(** * Transfer state machines of the rainbow-bridge client

    A shallow embedding of the two transfer state machines of the
    repository and of the builders around them:

    - [Ether]: natural ETH sent from Ethereum to Aurora
      (lock / sync / mint, file [src/unnamed/part_000]);
    - [Nep141]: a NEP-141 token sent from NEAR to Aurora
      (a single lock step,
      [src/packages/aurora-nep141/src/natural-nep141/sendToAurora/index.ts]).

    Every [async] function of the source becomes a function into the
    result type [Res]: [Ok v] is a fulfilled promise, [Throw e] a rejected
    one.  The chain adapters, the indexer, the clock and the other
    collaborators are the fields of an environment record; one environment
    is one state of the outside world, so calling twice with the same
    environment is calling twice with no change of chain state. *)

From Stdlib Require Import ZArith Ascii String DecimalString Lia.
From stdpp Require Import base option list strings gmap.

Local Open Scope Z_scope.
Local Open Scope string_scope.

(** ** Exceptions and promises *)

(** The classes of the errors the code distinguishes with [instanceof]. *)
Inductive ErrorClass : Type :=
  | GenericError        (* new Error(..) *)
  | TypeError           (* property read on null or undefined *)
  | ReferenceError      (* read of a global that is not defined *)
  | SearchError         (* find-replacement-tx *)
  | TxValidationError.  (* find-replacement-tx *)

Record Exn : Type := mkExn { exn_class : ErrorClass; message : string }.

Inductive Res (A : Type) : Type :=
  | Ok (a : A)
  | Throw (e : Exn).
Arguments Ok {A} a.
Arguments Throw {A} e.

Definition bind {A B : Type} (m : Res A) (k : A -> Res B) : Res B :=
  match m with
  | Ok a => k a
  | Throw e => Throw e
  end.

Declare Scope res_scope.
Delimit Scope res_scope with res.
Notation "'await' x <- m ;; k" := (bind m (fun x => k))
  (at level 100, x name, m at next level, k at level 200, right associativity)
  : res_scope.
Local Open Scope res_scope.

(** [@near-eth/client/dist/statuses]. *)
Inductive Status : Type :=
  | ACTION_NEEDED
  | IN_PROGRESS
  | COMPLETE
  | FAILED.

(** [const last = arr => arr[arr.length - 1]]: [undefined] on the empty
    array, where the index is [-1]. *)
Definition last {A : Type} (arr : list A) : option A :=
  match arr with
  | [] => None
  | _ :: _ => arr !! (length arr - 1)%nat
  end.

(** ** String helpers of the JavaScript runtime *)

(** [s.slice(n)] for [0 <= n]. *)
Fixpoint slice_from (n : nat) (s : string) : string :=
  match n, s with
  | O, _ => s
  | S n', String _ s' => slice_from n' s'
  | S _, EmptyString => EmptyString
  end.

(** [s.slice(1, s.length - 1)]. *)
Definition slice_1_last (s : string) : string :=
  String.substring 1 (String.length s - 2) s.

(** [s.slice(s.length - 40)]: the last 40 characters.  On a shorter text
    the start [s.length - 40] is negative and counts back from the end, so
    the slice starts at [2 * s.length - 40], or at 0 when that is negative
    too. *)
Definition slice_last40 (s : string) : string :=
  let n := String.length s in
  if (40 <=? n)%nat then slice_from (n - 40) s
  else slice_from (2 * n - 40) s.

(** [s.split(c)] for a one-character separator: never empty. *)
Fixpoint split_on (c : ascii) (s : string) : list string :=
  match s with
  | EmptyString => [EmptyString]
  | String a s' =>
      if Ascii.eqb a c then EmptyString :: split_on c s'
      else match split_on c s' with
           | [] => [String a EmptyString]
           | w :: ws => String a w :: ws
           end
  end.

Definition is_digit (a : ascii) : bool :=
  let n := nat_of_ascii a in (48 <=? n)%nat && (n <=? 57)%nat.
Definition is_lower_hex (a : ascii) : bool :=
  let n := nat_of_ascii a in is_digit a || ((97 <=? n)%nat && (n <=? 102)%nat).
Definition is_upper_hex (a : ascii) : bool :=
  let n := nat_of_ascii a in (65 <=? n)%nat && (n <=? 70)%nat.

Fixpoint all_chars (p : ascii -> bool) (s : string) : bool :=
  match s with
  | EmptyString => true
  | String a s' => p a && all_chars p s'
  end.

(** [/^([A-Fa-f0-9]{40})$/.test(s)]. *)
Definition test_hex40 (s : string) : bool :=
  (String.length s =? 40)%nat
  && all_chars (fun a => is_lower_hex a || is_upper_hex a) s.

(** [/^[a-f0-9]{40}$/.test(s)]. *)
Definition test_lower_hex40 (s : string) : bool :=
  (String.length s =? 40)%nat && all_chars is_lower_hex s.

(** [s.toLowerCase()] on ASCII text (addresses are hexadecimal). *)
Definition lower_ascii (a : ascii) : ascii :=
  let n := nat_of_ascii a in
  if (65 <=? n)%nat && (n <=? 90)%nat then ascii_of_nat (n + 32) else a.
Fixpoint toLowerCase (s : string) : string :=
  match s with
  | EmptyString => EmptyString
  | String a s' => String (lower_ascii a) (toLowerCase s')
  end.

(** [s.repeat(n)]. *)
Fixpoint repeat_text (s : string) (n : nat) : string :=
  match n with
  | O => EmptyString
  | S n' => s ++ repeat_text s n'
  end.

(** ** The ether variant: Ethereum to Aurora *)
Module Ether.

Definition TRANSFER_TYPE : string :=
  "@near-eth/aurora-ether/natural-ether/sendToAurora".
Definition LOCK : string := "lock-natural-ether-to-aurora".
Definition SYNC : string := "sync-natural-ether-to-aurora".
Definition MINT : string := "mint-natural-ether-to-aurora".

(** A web3 transaction receipt, with the fields the code reads. *)
Record Receipt : Type := mkReceipt {
  blockNumber : Z;
  transactionHash : string;
  receipt_status : bool
}.

(** [ethCache]: what is kept of the last broadcast transaction to find a
    transaction that replaced it. *)
Record EthCache : Type := mkEthCache {
  cache_from : string;
  cache_to : string;
  cache_nonce : Z;
  cache_data : string;
  safeReorgHeight : Z
}.

Record Transfer : Type := mkTransfer {
  id : option string;
  amount : string;
  completedStep : option string;
  destinationTokenName : string;
  errors : list string;
  recipient : string;
  sender : string;
  sourceToken : option string;
  sourceTokenName : string;
  symbol : string;
  decimals : Z;
  status : Status;
  type : string;
  ethCache : option EthCache;
  completedConfirmations : Z;
  lockHashes : list string;
  lockReceipts : list Receipt;
  neededConfirmations : Z;
  mintHashes : list string
}.

(** The object spreads [{ ...transfer, field: value }] of the source. *)
Definition with_status (v : Status) (t : Transfer) : Transfer :=
  mkTransfer (id t) (amount t) (completedStep t) (destinationTokenName t)
    (errors t) (recipient t) (sender t) (sourceToken t) (sourceTokenName t)
    (symbol t) (decimals t) v (type t) (ethCache t)
    (completedConfirmations t) (lockHashes t) (lockReceipts t)
    (neededConfirmations t) (mintHashes t).
Definition with_completedStep (v : option string) (t : Transfer) : Transfer :=
  mkTransfer (id t) (amount t) v (destinationTokenName t)
    (errors t) (recipient t) (sender t) (sourceToken t) (sourceTokenName t)
    (symbol t) (decimals t) (status t) (type t) (ethCache t)
    (completedConfirmations t) (lockHashes t) (lockReceipts t)
    (neededConfirmations t) (mintHashes t).
Definition with_errors (v : list string) (t : Transfer) : Transfer :=
  mkTransfer (id t) (amount t) (completedStep t) (destinationTokenName t)
    v (recipient t) (sender t) (sourceToken t) (sourceTokenName t)
    (symbol t) (decimals t) (status t) (type t) (ethCache t)
    (completedConfirmations t) (lockHashes t) (lockReceipts t)
    (neededConfirmations t) (mintHashes t).
Definition with_ethCache (v : option EthCache) (t : Transfer) : Transfer :=
  mkTransfer (id t) (amount t) (completedStep t) (destinationTokenName t)
    (errors t) (recipient t) (sender t) (sourceToken t) (sourceTokenName t)
    (symbol t) (decimals t) (status t) (type t) v
    (completedConfirmations t) (lockHashes t) (lockReceipts t)
    (neededConfirmations t) (mintHashes t).
Definition with_completedConfirmations (v : Z) (t : Transfer) : Transfer :=
  mkTransfer (id t) (amount t) (completedStep t) (destinationTokenName t)
    (errors t) (recipient t) (sender t) (sourceToken t) (sourceTokenName t)
    (symbol t) (decimals t) (status t) (type t) (ethCache t)
    v (lockHashes t) (lockReceipts t)
    (neededConfirmations t) (mintHashes t).
Definition with_lockHashes (v : list string) (t : Transfer) : Transfer :=
  mkTransfer (id t) (amount t) (completedStep t) (destinationTokenName t)
    (errors t) (recipient t) (sender t) (sourceToken t) (sourceTokenName t)
    (symbol t) (decimals t) (status t) (type t) (ethCache t)
    (completedConfirmations t) v (lockReceipts t)
    (neededConfirmations t) (mintHashes t).
Definition with_lockReceipts (v : list Receipt) (t : Transfer) : Transfer :=
  mkTransfer (id t) (amount t) (completedStep t) (destinationTokenName t)
    (errors t) (recipient t) (sender t) (sourceToken t) (sourceTokenName t)
    (symbol t) (decimals t) (status t) (type t) (ethCache t)
    (completedConfirmations t) (lockHashes t) v
    (neededConfirmations t) (mintHashes t).

(** The fields [transferDraft] fixes; the commented-out ones are supplied
    by [initiate] and [recover]. *)
Record TransferDraft : Type := mkDraft {
  draft_completedStep : option string;
  draft_errors : list string;
  draft_status : Status;
  draft_type : string;
  draft_completedConfirmations : Z;
  draft_lockHashes : list string;
  draft_lockReceipts : list Receipt;
  draft_neededConfirmations : Z;
  draft_mintHashes : list string
}.

Definition transferDraft : TransferDraft :=
  mkDraft None [] ACTION_NEEDED TRANSFER_TYPE 0 [] [] 20 [].

(** What [findReplacementTx] is given and what it resolves to. *)
Record TxIdentity : Type := mkTxIdentity {
  tx_nonce : Z;
  tx_from : string;
  tx_to : string;
  tx_data : string
}.
Record FoundTx : Type := mkFoundTx { found_hash : string }.

(** A pending transaction as [web3.eth.getTransaction] returns it. *)
Record PendingTx : Type := mkPendingTx {
  pending_from : string;
  pending_to : string;
  pending_nonce : Z;
  pending_input : string
}.

(** A [Deposited] event of the custodian contract. *)
Record DepositedEvent : Type := mkEvent {
  event_transactionHash : string;
  event_sender : string;
  event_recipient : string;
  event_amount : string
}.

(** One state of the outside world.  A hash argument is an [option]
    because [last] of an empty [lockHashes] is [undefined].  The custodian
    ABI text of [process.env] is taken to parse, so building the contract
    object does not throw. *)
Record Env : Type := mkEnv {
  ethNetworkId : string;                       (* process.env.ethNetworkId *)
  auroraEvmAccount : string;                   (* process.env.auroraEvmAccount *)
  getNetworkType : Res string;                 (* web3.eth.net.getNetworkType() *)
  getBlockNumber : Res Z;                      (* web3.eth.getBlockNumber() *)
  getTransactionReceipt : option string -> Res (option Receipt);
  getTransaction : string -> Res (option PendingTx);
  (* depositToEVM(recipient, fee).send({ value }) from a sender, resolved
     at the transactionHash event *)
  depositToEVM : string -> string -> string -> string -> Res string;
  getPastEvents : Z -> Z -> Res (list DepositedEvent);
  findReplacementTx : Z -> TxIdentity -> Res (option FoundTx);
  getRevertReason : option string -> string -> Res string;
  ethOnNearSyncHeight : Res Z;
  findProof : string -> Res string;
  getNearAccount : Res unit;
  is_used_proof : string -> Res bool;          (* viewFunction(.., 'is_used_proof', ..) *)
  dateNowISO : string                          (* new Date().toISOString() *)
}.

Definition undefined_read (prop : string) : Exn :=
  mkExn TypeError ("Cannot read properties of undefined (reading '" ++ prop ++ "')").
Definition null_read (prop : string) : Exn :=
  mkExn TypeError ("Cannot read properties of null (reading '" ++ prop ++ "')").

(** The template literal [${transfer.id}]. *)
Definition id_text (t : Transfer) : string := default "undefined" (id t).

(** *** lock *)
Definition lock (env : Env) (transfer : Transfer) : Res Transfer :=
  await ethNetwork <- getNetworkType env ;;
  if bool_decide (ethNetwork ≠ ethNetworkId env) then
    Throw (mkExn GenericError
             "Wrong eth network for checkLock, expected: %s, got: %s")
  else
    await height <- getBlockNumber env ;;
    let safeReorgHeight := height - 20 in
    await lockHash <-
      depositToEVM env (toLowerCase (slice_from 2 (recipient transfer))) "0"
        (amount transfer) (sender transfer) ;;
    await pendingLockTx <- getTransaction env lockHash ;;
    match pendingLockTx with
    | None => Throw (null_read "from")
    | Some tx =>
        Ok (with_lockHashes (lockHashes transfer ++ [lockHash])
             (with_ethCache
                (Some (mkEthCache (pending_from tx) (pending_to tx)
                         (pending_nonce tx) (pending_input tx) safeReorgHeight))
                (with_status IN_PROGRESS transfer)))
    end.

(** *** checkLock *)

(** The [try] block entered when the last lock hash has no receipt.  [inl]
    is an early [return] of the function, [inr] leaves the block with the
    new value of [lockReceipt]. *)
Definition replacementReceipt (env : Env) (transfer : Transfer)
  : Res (Transfer + option Receipt) :=
  let attempt : Res (Transfer + option Receipt) :=
    match ethCache transfer with
    | None => Throw (undefined_read "nonce")
    | Some cache =>
        let tx := mkTxIdentity (cache_nonce cache) (cache_from cache)
                    (cache_to cache) (cache_data cache) in
        await foundTx <- findReplacementTx env (safeReorgHeight cache) tx ;;
        match foundTx with
        | None => Ok (inl transfer)
        | Some found =>
            await lockReceipt <- getTransactionReceipt env (Some (found_hash found)) ;;
            Ok (inr lockReceipt)
        end
    end in
  match attempt with
  | Ok r => Ok r
  | Throw error =>
      match exn_class error with
      | SearchError | TxValidationError =>
          Ok (inl (with_status FAILED
                     (with_errors (errors transfer ++ [message error]) transfer)))
      | _ => Throw error
      end
  end.

Definition revertReason (env : Env) (lockHash : option string)
    (ethNetwork : string) : string :=
  match getRevertReason env lockHash ethNetwork with
  | Ok reason => reason
  | Throw e =>
      "Could not determine why transaction failed; encountered error: "
      ++ message e
  end.

(** The part of [checkLock] after the receipt has been looked for. *)
Definition settleLock (env : Env) (transfer : Transfer)
    (lockHash : option string) (ethNetwork : string)
    (lockReceipt : option Receipt) : Res Transfer :=
  match lockReceipt with
  | None => Ok transfer
  | Some lockReceipt =>
      if negb (receipt_status lockReceipt) then
        let error := revertReason env lockHash ethNetwork in
        Ok (with_lockReceipts (lockReceipts transfer ++ [lockReceipt])
              (with_errors (errors transfer ++ [error])
                 (with_status FAILED transfer)))
      else
        let transfer :=
          if bool_decide (Some (transactionHash lockReceipt) ≠ lockHash) then
            (* Record the replacement tx lockHash *)
            with_lockHashes
              (lockHashes transfer ++ [transactionHash lockReceipt]) transfer
          else transfer in
        Ok (with_lockReceipts (lockReceipts transfer ++ [lockReceipt])
              (with_completedStep (Some LOCK)
                 (with_status IN_PROGRESS transfer)))
  end.

Definition checkLock (env : Env) (transfer : Transfer) : Res Transfer :=
  let lockHash := last (lockHashes transfer) in
  await ethNetwork <- getNetworkType env ;;
  if bool_decide (ethNetwork ≠ ethNetworkId env) then Ok transfer
  else
    await lockReceipt <- getTransactionReceipt env lockHash ;;
    match lockReceipt with
    | Some _ => settleLock env transfer lockHash ethNetwork lockReceipt
    | None =>
        (* no receipt: has the transaction been replaced? *)
        await r <- replacementReceipt env transfer ;;
        match r with
        | inl returned => Ok returned
        | inr lockReceipt =>
            settleLock env transfer lockHash ethNetwork lockReceipt
        end
    end.

(** *** checkSync *)
Definition checkSync (env : Env) (transfer : Transfer) : Res Transfer :=
  match last (lockReceipts transfer) with
  | None => Throw (undefined_read "blockNumber")
  | Some lockReceipt =>
      let eventEmittedAt := blockNumber lockReceipt in
      await syncedTo <- ethOnNearSyncHeight env ;;
      let completedConfirmations := Z.max 0 (syncedTo - eventEmittedAt) in
      let inProgress :=
        with_status IN_PROGRESS
          (with_completedConfirmations completedConfirmations transfer) in
      if completedConfirmations >? neededConfirmations transfer then
        (* Check if relayer already minted *)
        await proof <- findProof env (transactionHash lockReceipt) ;;
        await nearAccount <- getNearAccount env ;;
        await proofAlreadyUsed <- is_used_proof env proof ;;
        if (proofAlreadyUsed : bool) then
          Ok (with_errors (errors transfer ++ ["Transfer already finalized."])
                (with_status COMPLETE
                   (with_completedConfirmations completedConfirmations
                      (with_completedStep (Some MINT) transfer))))
        else Ok inProgress
      else Ok inProgress
  end.

(** *** act and checkStatus *)
Definition act (env : Env) (transfer : Transfer) : Res Transfer :=
  match completedStep transfer with
  | None => lock env transfer
  | Some step =>
      if bool_decide (step = LOCK) then checkSync env transfer
      else Throw (mkExn GenericError
                    ("Don't know how to act on transfer: " ++ id_text transfer))
  end.

Definition checkStatus (env : Env) (transfer : Transfer) : Res Transfer :=
  match completedStep transfer with
  | None => checkLock env transfer
  | Some step =>
      if bool_decide (step = LOCK) then checkSync env transfer
      else Throw (mkExn GenericError
                    ("Don't know how to checkStatus for transfer "
                     ++ id_text transfer))
  end.

(** *** recover *)
Definition recover (env : Env) (lockTxHash : string) : Res Transfer :=
  await receipt <- getTransactionReceipt env (Some lockTxHash) ;;
  match receipt with
  | None => Throw (null_read "blockNumber")
  | Some receipt =>
      await events <-
        getPastEvents env (blockNumber receipt) (blockNumber receipt) ;;
      match List.find
              (fun event => bool_decide (event_transactionHash event = lockTxHash))
              events with
      | None =>
          Throw (mkExn GenericError "Unable to process lock transaction event.")
      | Some lockedEvent =>
          let sender := event_sender lockedEvent in
          let protocolMessage := event_recipient lockedEvent in
          let parts := split_on ":" protocolMessage in
          let auroraEvmAccount' := parts !! 0%nat in
          let auroraRecipient := parts !! 1%nat in
          if bool_decide (auroraEvmAccount' ≠ Some (auroraEvmAccount env)) then
            Throw (mkExn GenericError
                     "Failed to parse auroraEvmAccount in protocol message")
          else if negb (from_option test_hex40 false auroraRecipient) then
            Throw (mkExn GenericError
                     "Failed to parse recipient in protocol message")
          else
            let amount := event_amount lockedEvent in
            let sourceTokenName := "ETH" in
            let decimals := 18 in
            let destinationTokenName := "a" ++ sourceTokenName in
            let symbol := "ETH" in
            let transfer :=
              {| id := Some (dateNowISO env);
                 amount := amount;
                 completedStep := Some LOCK;
                 destinationTokenName := destinationTokenName;
                 errors := draft_errors transferDraft;
                 recipient := "0x" ++ default "undefined" auroraRecipient;
                 sender := sender;
                 sourceToken := None;
                 sourceTokenName := sourceTokenName;
                 symbol := symbol;
                 decimals := decimals;
                 status := IN_PROGRESS;
                 type := draft_type transferDraft;
                 ethCache := None;
                 completedConfirmations :=
                   draft_completedConfirmations transferDraft;
                 lockHashes := [lockTxHash];
                 lockReceipts := [receipt];
                 neededConfirmations := draft_neededConfirmations transferDraft;
                 mintHashes := draft_mintHashes transferDraft |} in
            (* Check transfer status *)
            checkSync env transfer
      end
  end.

(** The order [None < Lock < Sync < Mint] on [completedStep]; a string that
    names no step has no rank. *)
Definition step_rank (step : option string) : option nat :=
  match step with
  | None => Some 0%nat
  | Some s =>
      if bool_decide (s = LOCK) then Some 1%nat
      else if bool_decide (s = SYNC) then Some 2%nat
      else if bool_decide (s = MINT) then Some 3%nat
      else None
  end.

Definition step_lt (a b : option string) : Prop :=
  match step_rank a, step_rank b with
  | Some m, Some n => (m < n)%nat
  | _, _ => False
  end.

Definition step_le (a b : option string) : Prop := a = b \/ step_lt a b.

(** One call of the public interface, and a sequence of them, each against
    the world as it is at that moment; the sequence stops at the first
    rejection. *)
Inductive Op : Type := Act | CheckStatus.

Definition call (op : Op) (env : Env) (transfer : Transfer) : Res Transfer :=
  match op with
  | Act => act env transfer
  | CheckStatus => checkStatus env transfer
  end.

Fixpoint run (calls : list (Op * Env)) (transfer : Transfer) : Res Transfer :=
  match calls with
  | [] => Ok transfer
  | (op, env) :: rest =>
      await next <- call op env transfer ;;
      run rest next
  end.

(** The same chain state read at another moment of the wall clock. *)
Definition at_clock (now : string) (env : Env) : Env :=
  mkEnv (ethNetworkId env) (auroraEvmAccount env) (getNetworkType env)
    (getBlockNumber env) (getTransactionReceipt env) (getTransaction env)
    (depositToEVM env) (getPastEvents env) (findReplacementTx env)
    (getRevertReason env) (ethOnNearSyncHeight env) (findProof env)
    (getNearAccount env) (is_used_proof env) now.

Definition with_id (v : option string) (t : Transfer) : Transfer :=
  mkTransfer v (amount t) (completedStep t) (destinationTokenName t)
    (errors t) (recipient t) (sender t) (sourceToken t) (sourceTokenName t)
    (symbol t) (decimals t) (status t) (type t) (ethCache t)
    (completedConfirmations t) (lockHashes t) (lockReceipts t)
    (neededConfirmations t) (mintHashes t).

(** What [checkSync] relies on: a record past the lock step carries the
    receipt of its lock transaction. *)
Definition lock_evidenced (t : Transfer) : Prop :=
  completedStep t = Some LOCK -> lockReceipts t <> [].

(** The moves of the state machine: every record [act] or [checkStatus]
    returns is related to its input by one of them. *)
Inductive transition (t : Transfer) : Transfer -> Prop :=
  | lock_broadcast (lockHash : string) (cache : EthCache) :
      completedStep t = None ->
      transition t
        (with_lockHashes (lockHashes t ++ [lockHash])
           (with_ethCache (Some cache) (with_status IN_PROGRESS t)))
  | lock_pending :
      completedStep t = None -> transition t t
  | lock_search_failed (reason : string) :
      completedStep t = None ->
      transition t
        (with_status FAILED (with_errors (errors t ++ [reason]) t))
  | lock_reverted (reason : string) (lockReceipt : Receipt) :
      completedStep t = None ->
      transition t
        (with_lockReceipts (lockReceipts t ++ [lockReceipt])
           (with_errors (errors t ++ [reason]) (with_status FAILED t)))
  | lock_confirmed (hashes : list string) (lockReceipt : Receipt) :
      completedStep t = None ->
      transition t
        (with_lockReceipts (lockReceipts t ++ [lockReceipt])
           (with_completedStep (Some LOCK)
              (with_status IN_PROGRESS (with_lockHashes hashes t))))
  | sync_waiting (confirmations : Z) :
      completedStep t = Some LOCK ->
      lockReceipts t <> [] ->
      transition t
        (with_status IN_PROGRESS
           (with_completedConfirmations confirmations t))
  | sync_finalized (confirmations : Z) :
      completedStep t = Some LOCK ->
      lockReceipts t <> [] ->
      transition t
        (with_errors (errors t ++ ["Transfer already finalized."])
           (with_status COMPLETE
              (with_completedConfirmations confirmations
                 (with_completedStep (Some MINT) t)))).

End Ether.

(** ** The NEP-141 variant: NEAR to Aurora *)
Module Nep141.

Definition TRANSFER_TYPE : string :=
  "@near-eth/aurora-nep141/natural-nep141/sendToAurora".
Definition LOCK : string := "lock-natural-nep141-to-aurora".

Record Transfer : Type := mkTransfer {
  type : string;
  id : string;
  startTime : string;
  amount : string;
  decimals : Z;
  symbol : string;
  sourceToken : string;
  sourceTokenName : string;
  destinationTokenName : string;
  sender : string;
  recipient : string;
  status : Status;
  completedStep : option string;
  errors : list string;
  lockHashes : list string
}.

Definition with_status (v : Status) (t : Transfer) : Transfer :=
  mkTransfer (type t) (id t) (startTime t) (amount t) (decimals t) (symbol t)
    (sourceToken t) (sourceTokenName t) (destinationTokenName t) (sender t)
    (recipient t) v (completedStep t) (errors t) (lockHashes t).
Definition with_completedStep (v : option string) (t : Transfer) : Transfer :=
  mkTransfer (type t) (id t) (startTime t) (amount t) (decimals t) (symbol t)
    (sourceToken t) (sourceTokenName t) (destinationTokenName t) (sender t)
    (recipient t) (status t) v (errors t) (lockHashes t).
Definition with_errors (v : list string) (t : Transfer) : Transfer :=
  mkTransfer (type t) (id t) (startTime t) (amount t) (decimals t) (symbol t)
    (sourceToken t) (sourceTokenName t) (destinationTokenName t) (sender t)
    (recipient t) (status t) (completedStep t) v (lockHashes t).
Definition with_lockHashes (v : list string) (t : Transfer) : Transfer :=
  mkTransfer (type t) (id t) (startTime t) (amount t) (decimals t) (symbol t)
    (sourceToken t) (sourceTokenName t) (destinationTokenName t) (sender t)
    (recipient t) (status t) (completedStep t) (errors t) v.
Definition with_startTime (v : string) (t : Transfer) : Transfer :=
  mkTransfer (type t) (id t) v (amount t) (decimals t) (symbol t)
    (sourceToken t) (sourceTokenName t) (destinationTokenName t) (sender t)
    (recipient t) (status t) (completedStep t) (errors t) (lockHashes t).

Record Account : Type := mkAccount { accountId : string }.

(** The optional arguments the exported functions take. *)
Record Options : Type := mkOptions {
  opt_auroraEvmAccount : option string;
  opt_nearAccount : option Account;
  opt_decimals : option Z;
  opt_symbol : option string;
  opt_wNearNep141 : option string
}.
Definition no_options : Options := mkOptions None None None None None.

Record Metadata : Type := mkMetadata { meta_symbol : string; meta_decimals : Z }.

(** What [provider.txStatus] answers: [status.SuccessValue] is absent when
    the transaction did not succeed. *)
Record TxOutcome : Type := mkTxOutcome {
  SuccessValue : option string;
  block_hash : string
}.

(** A row of the indexer for [findAllTransfers]. *)
Record IndexedTx : Type := mkIndexedTx {
  originated_from_transaction_hash : string;
  method_name : string;
  args_msg : string;
  args_amount : string;
  args_receiver_id : string
}.

(** A row of the indexer for [recover]. *)
Record ActionReceipt : Type := mkActionReceipt {
  included_in_block_timestamp : Z;
  receipt_predecessor_account_id : string;
  receipt_method_name : string;
  receipt_msg : string;
  receipt_amount : string;
  receipt_sender_id : string
}.

(** The actions of the transactions [lock] and [lockNear] send. *)
Inductive ActionArgs : Type :=
  | StorageDeposit (account_id : string) (registration_only : bool)
  | NearDeposit
  | FtTransferCall (receiver_id amount msg : string).
Record Action : Type := mkAction {
  methodName : string;
  args : ActionArgs;
  gas : string;
  deposit : string
}.

(** [new BN(s)] for a decimal text. *)
Definition BN (s : string) : Z :=
  fold_left (fun acc a => 10 * acc + (Z.of_nat (nat_of_ascii a) - 48))
    (list_ascii_of_string s) 0.

(** One state of the outside world, the page URL apart. *)
Record Env : Type := mkEnv {
  hasWindow : bool;                            (* typeof window !== 'undefined' *)
  bridge_auroraEvmAccount : string;            (* getBridgeParams().auroraEvmAccount *)
  bridge_wNearNep141 : string;                 (* getBridgeParams().wNearNep141 *)
  getNearAccount : Res Account;
  txStatus : string -> string -> Res TxOutcome;
  block : string -> Res Z;                     (* header.timestamp of the block *)
  base_decode : string -> Res string;
  track : Transfer -> Res Transfer;
  functionCall : string -> Action -> Res string;
  signAndSendTransaction : string -> list Action -> Res string;
  storage_balance_bounds : string -> Res string;
  storage_minimum_balance : string -> Res string;
  storage_balance_of : string -> string -> Res (option string);
  getMetadata : string -> Options -> Res Metadata;
  buildIndexerTxQuery : string -> string -> string -> string -> string;
  newRegExp : string -> Res (string -> bool);  (* new RegExp(source), then .test *)
  base64_toString : string -> string;          (* Buffer.from(s, 'base64').toString() *)
  JSON_stringify : Transfer -> string;
  JSON_stringify_receipts : list ActionReceipt -> string;
  nanosToISOString : Z -> string;              (* new Date(t / 10 ** 6).toISOString() *)
  (* the text of Math.random().toString(), one draw per record built; the
     draws of findAllTransfers are numbered by candidate *)
  mathRandom : nat -> string
}.

(** The query string of the page, through [urlParams] of [@near-eth/utils]
    (exported by [src/packages/utils/src/index.ts], defined outside it). *)
Class UrlParams (U : Type) : Type := {
  url_get : string -> U -> option string;
  url_set : string -> string -> U -> U;
  url_clear : list string -> U -> U
}.

(** A falsy [string | null]: [null] or the empty string. *)
Definition truthy (v : option string) : bool :=
  match v with
  | None => false
  | Some s => negb (bool_decide (s = EmptyString))
  end.

Definition nl : string := String (ascii_of_nat 10) EmptyString.

Section StateMachine.
Context {U : Type} `{UrlParams U}.

(** A promise that also reads and writes the page URL. *)
Definition M (A : Type) : Type := U -> Res A * U.

Definition ret {A : Type} (a : A) : M A := fun url => (Ok a, url).
Definition throw {A : Type} (e : Exn) : M A := fun url => (Throw e, url).
Definition lift {A : Type} (r : Res A) : M A := fun url => (r, url).
Definition mbind {A B : Type} (m : M A) (k : A -> M B) : M B :=
  fun url =>
    match m url with
    | (Ok a, url') => k a url'
    | (Throw e, url') => (Throw e, url')
    end.
Definition update (f : U -> U) : M unit := fun url => (Ok tt, f url).

Notation "'await!' x <- m ;; k" := (mbind m (fun x => k))
  (at level 100, x name, m at next level, k at level 200, right associativity).

Definition nearAccountOf (env : Env) (options : Options) : Res Account :=
  match opt_nearAccount options with
  | Some account => Ok account
  | None => getNearAccount env
  end.

(** *** lock *)
Definition lock (env : Env) (transfer : Transfer) (options : Options)
  : M Transfer :=
  await! nearAccount <- lift (nearAccountOf env options) ;;
  let auroraEvmAccount :=
    default (bridge_auroraEvmAccount env) (opt_auroraEvmAccount options) in
  let msgPrefix :=
    if bool_decide (sourceToken transfer = auroraEvmAccount)
    then sender transfer ++ ":" ++ repeat_text "0" 64
    else EmptyString in
  await! _ <- (if hasWindow env
               then update (url_set "locking" (id transfer)) else ret tt) ;;
  await! transfer <- (if hasWindow env
                      then lift (track env (with_status IN_PROGRESS transfer))
                      else ret transfer) ;;
  await! hash <-
    lift (functionCall env (sourceToken transfer)
            (mkAction "ft_transfer_call"
               (FtTransferCall auroraEvmAccount (amount transfer)
                  (msgPrefix ++ slice_from 2 (toLowerCase (recipient transfer))))
               ("70" ++ repeat_text "0" 12) "1")) ;;
  ret (with_lockHashes [hash] transfer).

(** *** lockNear *)
Definition getMinStorageBalance (env : Env) (nep141Address : string)
  : Res string :=
  match storage_balance_bounds env nep141Address with
  | Ok balance_min => Ok balance_min
  | Throw _ => storage_minimum_balance env nep141Address
  end.

Definition getStorageBalance (env : Env) (nep141Address accountId : string)
  : Res (option string) :=
  match storage_balance_of env nep141Address accountId with
  | Ok balance => Ok balance
  | Throw _ => Ok None
  end.

Definition lockNear (env : Env) (transfer : Transfer) (options : Options)
  : M Transfer :=
  await! nearAccount <- lift (nearAccountOf env options) ;;
  let wNearNep141 :=
    default (bridge_wNearNep141 env) (opt_wNearNep141 options) in
  let auroraEvmAccount :=
    default (bridge_auroraEvmAccount env) (opt_auroraEvmAccount options) in
  await! minStorageBalance <- lift (getMinStorageBalance env wNearNep141) ;;
  await! userStorageBalance <-
    lift (getStorageBalance env wNearNep141 (sender transfer)) ;;
  let registration :=
    match userStorageBalance with
    | Some total =>
        if (BN total <? BN minStorageBalance)%Z
        then [mkAction "storage_deposit" (StorageDeposit (sender transfer) true)
                ("50" ++ repeat_text "0" 12) minStorageBalance]
        else []
    | None =>
        [mkAction "storage_deposit" (StorageDeposit (sender transfer) true)
           ("50" ++ repeat_text "0" 12) minStorageBalance]
    end in
  let actions :=
    (registration
     ++ [mkAction "near_deposit" NearDeposit ("30" ++ repeat_text "0" 12)
           (amount transfer);
         mkAction "ft_transfer_call"
           (FtTransferCall auroraEvmAccount (amount transfer)
              (slice_from 2 (toLowerCase (recipient transfer))))
           ("70" ++ repeat_text "0" 12) "1"])%list in
  await! _ <- (if hasWindow env
               then update (url_set "locking" (id transfer)) else ret tt) ;;
  await! transfer <- (if hasWindow env
                      then lift (track env (with_status IN_PROGRESS transfer))
                      else ret transfer) ;;
  await! hash <- lift (signAndSendTransaction env wNearNep141 actions) ;;
  ret (with_lockHashes [hash] transfer).

(** *** checkLock *)
Definition clearParams : list string :=
  ["locking"; "transactionHashes"; "errorCode"; "errorMessage"].

(** [urlParams.get] reads [window.location], and [checkLock] calls it
    without the [typeof window] guard of [lock] and [act]: outside a browser
    the first read is a [ReferenceError]. *)
Definition window_undefined : Exn :=
  mkExn ReferenceError "window is not defined".

Definition checkLock (env : Env) (transfer : Transfer) (options : Options)
  : M Transfer :=
  fun url =>
    if negb (hasWindow env) then (Throw window_undefined, url) else
    let id' := url_get "locking" url in
    let txHash := url_get "transactionHashes" url in
    let errorCode := url_get "errorCode" url in
    if negb (truthy id') then
      let newError := "Failed to process NEAR Wallet transaction." in
      (Ok (with_errors [newError] (with_status FAILED transfer)), url)
    else if bool_decide (id' ≠ Some (id transfer)) then
      let newError :=
        "Couldn't determine transaction outcome." ++ nl
        ++ "      Got transfer id '" ++ default EmptyString id'
        ++ " in URL, expected '" ++ id transfer in
      (Ok (with_errors ["Failed: " ++ newError] (with_status FAILED transfer)),
       url)
    else if truthy errorCode then
      (Ok (with_errors ["Failed: " ++ default EmptyString errorCode]
             (with_status FAILED transfer)),
       url_clear clearParams url)
    else
      match txHash with
      | None => (Ok transfer, url)
      | Some txHash =>
          if bool_decide (txHash = EmptyString) then (Ok transfer, url)
          else
            (await! nearAccount <- lift (nearAccountOf env options) ;;
             await! decodedTxHash <- lift (base_decode env txHash) ;;
             await! withdrawTx <-
               lift (txStatus env decodedTxHash (sender transfer)) ;;
             await! timestamp <- lift (block env (block_hash withdrawTx)) ;;
             let startTime := nanosToISOString env timestamp in
             await! _ <- update (url_clear clearParams) ;;
             ret (with_lockHashes (lockHashes transfer ++ [txHash])
                    (with_startTime startTime
                       (with_completedStep (Some LOCK)
                          (with_status COMPLETE transfer))))) url
      end.

(** *** act and checkStatus *)
Definition act (env : Env) (transfer : Transfer) : M Transfer :=
  match completedStep transfer with
  | None =>
      fun url =>
        match (if bool_decide (sourceToken transfer = "NEAR")
               then lockNear env transfer no_options
               else lock env transfer no_options) url with
        | (Ok locked, url') => (Ok locked, url')
        | (Throw error, url') =>
            (Throw error,
             if hasWindow env then url_clear ["locking"] url' else url')
        end
  | Some _ =>
      throw (mkExn GenericError
               ("Don't know how to act on transfer: "
                ++ JSON_stringify env transfer))
  end.

Definition checkStatus (env : Env) (transfer : Transfer) : M Transfer :=
  match completedStep transfer with
  | None => checkLock env transfer no_options
  | Some _ =>
      throw (mkExn GenericError
               ("Don't know how to checkStatus for transfer " ++ id transfer))
  end.

Inductive Op : Type := Act | CheckStatus.

Definition call (op : Op) (env : Env) (transfer : Transfer) : M Transfer :=
  match op with
  | Act => act env transfer
  | CheckStatus => checkStatus env transfer
  end.

(** A sequence of calls, each against the world of its moment, the page URL
    carried from one call to the next; it stops at the first rejection. *)
Fixpoint run (calls : list (Op * Env)) (transfer : Transfer) : M Transfer :=
  match calls with
  | [] => ret transfer
  | (op, env) :: rest =>
      await! next <- call op env transfer ;;
      run rest next
  end.

End StateMachine.

(** *** findAllTransfers *)

(** The metadata both builders resolve: fixed for nETH, looked up unless the
    caller supplied a truthy symbol and a truthy number of decimals. *)
Definition resolveMetadata (env : Env) (nep141Address auroraEvmAccount : string)
    (options : Options) : Res Metadata :=
  if bool_decide (nep141Address = auroraEvmAccount) then
    Ok (mkMetadata "ETH" 18)
  else if negb (truthy (opt_symbol options))
          || negb (from_option (fun d => negb (d =? 0)%Z) false
                     (opt_decimals options)) then
    getMetadata env nep141Address options
  else Ok (mkMetadata EmptyString 0).

(** The outcome the code verifies: the success value decoded and stripped of
    its quotes, ['0'] when the transaction has none. *)
Definition successValueOf (env : Env) (lockTx : TxOutcome) : string :=
  match SuccessValue lockTx with
  | Some encoded => slice_1_last (base64_toString env encoded)
  | None => "0"
  end.

(** The [async] callback mapped over the candidates; [n] numbers the
    candidate. *)
Definition transferOfCandidate (env : Env) (sender nep141Address
    auroraEvmAccount symbol : string) (decimals : Z) (metadata : Metadata)
    (n : nat) (tx : IndexedTx) : Res (option Transfer) :=
  await lockTx <- txStatus env (originated_from_transaction_hash tx) sender ;;
  let successValue := successValueOf env lockTx in
  await timestamp <- block env (block_hash lockTx) ;;
  let amount := args_amount tx in
  let msg := args_msg tx in
  let recipient :=
    if bool_decide (nep141Address = auroraEvmAccount)
    then "0x" ++ slice_last40 msg else "0x" ++ msg in
  if bool_decide (amount ≠ successValue) then Ok None
  else
    Ok (Some
          {| type := TRANSFER_TYPE;
             id := slice_from 2 (mathRandom env n);
             startTime := nanosToISOString env timestamp;
             amount := amount;
             decimals := decimals;
             symbol := symbol;
             sourceToken := nep141Address;
             sourceTokenName := meta_symbol metadata;
             destinationTokenName := "a" ++ meta_symbol metadata;
             sender := sender;
             recipient := recipient;
             status := COMPLETE;
             completedStep := Some LOCK;
             errors := [];
             lockHashes := [originated_from_transaction_hash tx] |}).

(** [Promise.all(xs.map(f))]: it fulfils, with the results in the order of
    the array, when every callback fulfils, and is rejected when one is.
    Which rejection comes out when several callbacks are rejected depends on
    their timing; here it is the first in the order of the array. *)
Fixpoint promiseAll {A B : Type} (f : nat -> A -> Res B) (n : nat)
    (xs : list A) : Res (list B) :=
  match xs with
  | [] => Ok []
  | x :: rest =>
      await y <- f n x ;;
      await ys <- promiseAll f (S n) rest ;;
      Ok (y :: ys)
  end.

(** [transfers.filter(transfer => transfer !== null)]. *)
Fixpoint dropNulls {A : Type} (xs : list (option A)) : list A :=
  match xs with
  | [] => []
  | None :: rest => dropNulls rest
  | Some x :: rest => x :: dropNulls rest
  end.

(** The two [filter]s on the indexer rows. *)
Definition candidates (auroraEvmAccount : string) (regex_test : string -> bool)
    (transactions : list IndexedTx) : list IndexedTx :=
  List.filter
    (fun tx => bool_decide (args_receiver_id tx = auroraEvmAccount)
               && regex_test (args_msg tx))
    (List.filter (fun tx => bool_decide (method_name tx = "ft_transfer_call"))
       transactions).

Definition findAllTransfers (env : Env) (fromBlock toBlock sender
    nep141Address : string) (callIndexer : string -> Res (list IndexedTx))
    (options : Options) : Res (list Transfer) :=
  let auroraEvmAccount :=
    default (bridge_auroraEvmAccount env) (opt_auroraEvmAccount options) in
  await nearAccount <- nearAccountOf env options ;;
  await transactions <-
    callIndexer (buildIndexerTxQuery env fromBlock toBlock sender nep141Address) ;;
  await regex_test <-
    (if bool_decide (nep141Address = auroraEvmAccount)
     then newRegExp env
            ("^" ++ sender ++ ":" ++ repeat_text "0" 64 ++ "[a-f0-9]{40}$")
     else Ok test_lower_hex40) ;;
  await metadata <- resolveMetadata env nep141Address auroraEvmAccount options ;;
  let symbol := default (meta_symbol metadata) (opt_symbol options) in
  let decimals := default (meta_decimals metadata) (opt_decimals options) in
  await transfers <-
    promiseAll
      (transferOfCandidate env sender nep141Address auroraEvmAccount symbol
         decimals metadata)
      0%nat (candidates auroraEvmAccount regex_test transactions) ;;
  Ok (dropNulls transfers).

(** *** recover *)

(** [msg.substr(0, msg.indexOf(':'))]: empty when there is no colon. *)
Fixpoint before_colon (msg : string) : option string :=
  match msg with
  | EmptyString => None
  | String a rest =>
      if Ascii.eqb a ":" then Some EmptyString
      else option_map (String a) (before_colon rest)
  end.

Definition recoverQuery (lockTxHash auroraEvmAccount : string) : string :=
  "SELECT public.receipts.included_in_block_timestamp," ++ nl
  ++ "    public.action_receipt_actions.receipt_predecessor_account_id, public.action_receipt_actions.args" ++ nl
  ++ "    FROM public.receipts" ++ nl
  ++ "    JOIN public.action_receipt_actions" ++ nl
  ++ "    ON public.action_receipt_actions.receipt_id = public.receipts.receipt_id" ++ nl
  ++ "    WHERE (originated_from_transaction_hash = '" ++ lockTxHash ++ "'" ++ nl
  ++ "      AND receiver_account_id = '" ++ auroraEvmAccount ++ "'" ++ nl
  ++ "    )".

Definition recover (env : Env) (lockTxHash : string)
    (callIndexer : string -> Res (list ActionReceipt)) (options : Options)
  : Res Transfer :=
  let auroraEvmAccount :=
    default (bridge_auroraEvmAccount env) (opt_auroraEvmAccount options) in
  await actionReceipts <- callIndexer (recoverQuery lockTxHash auroraEvmAccount) ;;
  match List.filter
          (fun r => bool_decide (receipt_method_name r = "ft_on_transfer")
                    && test_lower_hex40 (slice_last40 (receipt_msg r)))
          actionReceipts with
  | [] =>
      Throw (mkExn GenericError
               ("Failed to verify " ++ auroraEvmAccount
                ++ " ft_on_transfer action receipt: "
                ++ JSON_stringify_receipts env actionReceipts))
  | lockToAuroraActionReceipt :: _ =>
      let nep141Address :=
        receipt_predecessor_account_id lockToAuroraActionReceipt in
      await metadata <- resolveMetadata env nep141Address auroraEvmAccount options ;;
      let symbol := default (meta_symbol metadata) (opt_symbol options) in
      let decimals := default (meta_decimals metadata) (opt_decimals options) in
      let sender :=
        if bool_decide (receipt_sender_id lockToAuroraActionReceipt
                        = auroraEvmAccount)
        then default EmptyString
               (before_colon (receipt_msg lockToAuroraActionReceipt))
        else receipt_sender_id lockToAuroraActionReceipt in
      Ok {| type := TRANSFER_TYPE;
            id := slice_from 2 (mathRandom env 0%nat);
            startTime :=
              nanosToISOString env
                (included_in_block_timestamp lockToAuroraActionReceipt);
            amount := receipt_amount lockToAuroraActionReceipt;
            decimals := decimals;
            symbol := symbol;
            sourceToken := nep141Address;
            sourceTokenName := meta_symbol metadata;
            destinationTokenName := "a" ++ meta_symbol metadata;
            sender := sender;
            recipient :=
              "0x" ++ slice_last40 (receipt_msg lockToAuroraActionReceipt);
            status := COMPLETE;
            completedStep := Some LOCK;
            errors := [];
            lockHashes := [lockTxHash] |}
  end.

Definition step_rank (step : option string) : option nat :=
  match step with
  | None => Some 0%nat
  | Some s => if bool_decide (s = LOCK) then Some 1%nat else None
  end.

Definition step_lt (a b : option string) : Prop :=
  match step_rank a, step_rank b with
  | Some m, Some n => (m < n)%nat
  | _, _ => False
  end.

Definition step_le (a b : option string) : Prop := a = b \/ step_lt a b.

(** The same chain and indexer state with other draws of [Math.random]. *)
Definition at_draws (draws : nat -> string) (env : Env) : Env :=
  mkEnv (hasWindow env) (bridge_auroraEvmAccount env) (bridge_wNearNep141 env)
    (getNearAccount env) (txStatus env) (block env) (base_decode env)
    (track env) (functionCall env) (signAndSendTransaction env)
    (storage_balance_bounds env) (storage_minimum_balance env)
    (storage_balance_of env) (getMetadata env) (buildIndexerTxQuery env)
    (newRegExp env) (base64_toString env) (JSON_stringify env)
    (JSON_stringify_receipts env) (nanosToISOString env) draws.

Definition with_id (v : string) (t : Transfer) : Transfer :=
  mkTransfer (type t) v (startTime t) (amount t) (decimals t) (symbol t)
    (sourceToken t) (sourceTokenName t) (destinationTokenName t) (sender t)
    (recipient t) (status t) (completedStep t) (errors t) (lockHashes t).

(** [track] of [@near-eth/client] stores the record and hands it back: the
    state-machine fields come back as they went in. *)
Definition track_keeps_progress (env : Env) : Prop :=
  forall t t' : Transfer,
    track env t = Ok t' ->
    completedStep t' = completedStep t /\ errors t' = errors t.

(** The query string as a finite map from parameter names to values. *)
#[global] Instance url_gmap : UrlParams (gmap string string) := {
  url_get name url := url !! name;
  url_set name value url := <[name := value]> url;
  url_clear names url := foldr delete url names
}.

End Nep141.


(** ** Worlds and records of the scenarios *)
Module Scenario.

Definition unavailable {A : Type} : Res A :=
  Throw (mkExn GenericError "unavailable").

Definition recipient_hex : string := repeat_text "0" 32 ++ "deadbeef".

Module E.
Import Ether.

Definition receipt_abc : Receipt := mkReceipt 100 "0xabc" true.
Definition receipt_def : Receipt := mkReceipt 100 "0xdef" true.

Definition deposited : DepositedEvent :=
  mkEvent "0xabc" "0xsender" ("aurora:" ++ recipient_hex) "1000".

(** A world on the expected network, given its receipts, the answer of the
    replacement finder, the synced height, whether the proof has been used,
    and the reading of the clock. *)
Definition world (receipts : option string -> Res (option Receipt))
    (replacement : Res (option FoundTx)) (syncedTo : Z) (proofUsed : bool)
    (now : string) : Env :=
  {| ethNetworkId := "main";
     auroraEvmAccount := "aurora";
     getNetworkType := Ok "main";
     getBlockNumber := Ok 120;
     getTransactionReceipt := receipts;
     getTransaction := fun _ => Ok None;
     depositToEVM := fun _ _ _ _ => unavailable;
     getPastEvents := fun _ _ => Ok [deposited];
     findReplacementTx := fun _ _ => replacement;
     getRevertReason := fun _ _ => unavailable;
     ethOnNearSyncHeight := Ok syncedTo;
     findProof := fun _ => Ok "proof";
     getNearAccount := Ok tt;
     is_used_proof := fun _ => Ok proofUsed;
     dateNowISO := now |}.

(** The chain knows the lock transaction [0xabc]. *)
Definition mined (hash : option string) : Res (option Receipt) :=
  if bool_decide (hash = Some "0xabc") then Ok (Some receipt_abc) else Ok None.

(** [0xabc] was dropped and [0xdef] mined in its place. *)
Definition replaced (hash : option string) : Res (option Receipt) :=
  if bool_decide (hash = Some "0xdef") then Ok (Some receipt_def) else Ok None.

Definition synced (syncedTo : Z) (proofUsed : bool) : Env :=
  world mined (Ok None) syncedTo proofUsed "2021-06-01T00:00:00.000Z".

Definition speedup : Env :=
  world replaced (Ok (Some (mkFoundTx "0xdef"))) 100 false
    "2021-06-01T00:00:00.000Z".

(** A transfer whose lock [0xabc] is broadcast and not yet confirmed. *)
Definition pending : Transfer :=
  {| id := Some "1"; amount := "1000"; completedStep := None;
     destinationTokenName := "aETH"; errors := [];
     recipient := "0x" ++ recipient_hex; sender := "0xsender";
     sourceToken := None; sourceTokenName := "ETH"; symbol := "ETH";
     decimals := 18; status := IN_PROGRESS; type := TRANSFER_TYPE;
     ethCache := Some (mkEthCache "0xsender" "0xcustodian" 7 "0x" 80);
     completedConfirmations := 0; lockHashes := ["0xabc"];
     lockReceipts := []; neededConfirmations := 20; mintHashes := [] |}.

(** The same transfer once the lock is confirmed at height 100. *)
Definition locked : Transfer :=
  with_lockReceipts [receipt_abc] (with_completedStep (Some LOCK) pending).

End E.

Module N.
Import Nep141.

Definition quote : string := String (ascii_of_nat 34) EmptyString.

(** Two rows of the indexer: the first call returned the amount it was
    given, the second was reverted. *)
Definition row_paid : IndexedTx :=
  mkIndexedTx "hash1" "ft_transfer_call" recipient_hex "1000" "aurora".
Definition row_reverted : IndexedTx :=
  mkIndexedTx "hash2" "ft_transfer_call" recipient_hex "500" "aurora".

Definition row_receipt : ActionReceipt :=
  mkActionReceipt 1622505600000000000 "token.near" "ft_on_transfer"
    recipient_hex "1000" "alice.near".

Definition world (draws : nat -> string) : Env :=
  {| hasWindow := true;
     bridge_auroraEvmAccount := "aurora";
     bridge_wNearNep141 := "wrap.near";
     getNearAccount := Ok (mkAccount "alice.near");
     txStatus := fun hash _ =>
       if bool_decide (hash = "hash1")
       then Ok (mkTxOutcome (Some "IjEwMDAi") "block1")
       else Ok (mkTxOutcome None "block2");
     block := fun _ => Ok 1622505600000000000;
     base_decode := fun s => Ok s;
     track := fun t => Ok t;
     functionCall := fun _ _ => Ok "hash1";
     signAndSendTransaction := fun _ _ => Ok "hash1";
     storage_balance_bounds := fun _ => Ok "1250000000000000000000";
     storage_minimum_balance := fun _ => Ok "1250000000000000000000";
     storage_balance_of := fun _ _ => Ok None;
     getMetadata := fun _ _ => Ok (mkMetadata "TKN" 6);
     buildIndexerTxQuery := fun _ _ _ _ => "query";
     newRegExp := fun _ => Ok (fun _ => false);
     base64_toString := fun s =>
       if bool_decide (s = "IjEwMDAi") then quote ++ "1000" ++ quote
       else EmptyString;
     JSON_stringify := fun _ => "{}";
     JSON_stringify_receipts := fun _ => "[]";
     nanosToISOString := fun _ => "2021-06-01T00:00:00.000Z";
     mathRandom := draws |}.

Definition indexer (query : string) : Res (list IndexedTx) :=
  Ok [row_paid; row_reverted].

Definition receipts_indexer (query : string) : Res (list ActionReceipt) :=
  Ok [row_receipt].

(** A transfer that failed once, was retried, and waits for the wallet. *)
Definition retried : Transfer :=
  {| type := TRANSFER_TYPE; id := "42"; startTime := "2021-06-01T00:00:00.000Z";
     amount := "1000"; decimals := 6; symbol := "TKN";
     sourceToken := "token.near"; sourceTokenName := "TKN";
     destinationTokenName := "aTKN"; sender := "alice.near";
     recipient := "0x" ++ recipient_hex; status := IN_PROGRESS;
     completedStep := None; errors := ["Failed: UserRejected"];
     lockHashes := ["hash0"] |}.

End N.

End Scenario.
(** ** The user-facing texts and the initiators *)

(** The texts of a template literal: [status_text] is the value of the
    status constant of [@near-eth/client/dist/statuses], [number_text] the
    decimal text JavaScript prints for a number. *)
Record Runtime : Type := mkRuntime {
  status_text : Status -> string;
  number_text : Z -> string
}.

Module EtherClient.
Import Ether.

(** The template literal [${transfer.completedStep}]. *)
Definition step_text (step : option string) : string := default "null" step.

Definition unexpected_state (rt : Runtime) (transfer : Transfer) : Exn :=
  mkExn GenericError
    ("Transfer in unexpected state, transfer with ID=" ++ id_text transfer
     ++ " & status=" ++ status_text rt (status transfer)
     ++ " has completedStep=" ++ step_text (completedStep transfer)).

(** [i18n.en_US.statusMessage]. *)
Definition statusMessage (rt : Runtime) (transfer : Transfer) : Res string :=
  match status transfer with
  | FAILED => Ok "Failed"
  | ACTION_NEEDED =>
      match completedStep transfer with
      | None => Ok "Ready to transfer from Ethereum"
      | Some step =>
          if bool_decide (step = SYNC) then Ok "Ready to deposit in NEAR"
          else Throw (unexpected_state rt transfer)
      end
  | _ =>
      match completedStep transfer with
      | None => Ok "Approving transfer"
      | Some step =>
          if bool_decide (step = LOCK) then
            Ok ("Confirming transfer "
                ++ number_text rt (completedConfirmations transfer + 1)
                ++ " of " ++ number_text rt (neededConfirmations transfer))
          else if bool_decide (step = SYNC) then Ok "Depositing in Aurora"
          else if bool_decide (step = MINT) then Ok "Transfer complete"
          else Throw (unexpected_state rt transfer)
      end
  end.

(** [i18n.en_US.callToAction]: [None] is [null]. *)
Definition callToAction (transfer : Transfer) : option string :=
  match status transfer with
  | FAILED => Some "Retry"
  | ACTION_NEEDED =>
      match completedStep transfer with
      | Some step => if bool_decide (step = SYNC) then Some "Deposit" else None
      | None => None
      end
  | _ => None
  end.

(** The token [initiate] is given. *)
Record Token : Type := mkToken {
  token_symbol : string;
  token_decimals : Z;
  token_ethAddress : option string
}.

(** The signer and the store of the client: the selected address of the
    wallet and [track] of [@near-eth/client]. *)
Record Client : Type := mkClient {
  selectedAddress : string;
  track : Transfer -> Res Transfer
}.

(** The record [initiate] builds from [transferDraft] before it locks. *)
Definition draftOf (client : Client) (amount : string) (token : Token)
  : Transfer :=
  let sourceTokenName := token_symbol token in
  let decimals := token_decimals token in
  let destinationTokenName := "a" ++ sourceTokenName in
  let sender := selectedAddress client in
  let recipient := sender in
  {| id := None;
     amount := amount;
     completedStep := draft_completedStep transferDraft;
     destinationTokenName := destinationTokenName;
     errors := draft_errors transferDraft;
     recipient := recipient;
     sender := sender;
     sourceToken := token_ethAddress token;
     sourceTokenName := sourceTokenName;
     symbol := token_symbol token;
     decimals := decimals;
     status := draft_status transferDraft;
     type := draft_type transferDraft;
     ethCache := None;
     completedConfirmations := draft_completedConfirmations transferDraft;
     lockHashes := draft_lockHashes transferDraft;
     lockReceipts := draft_lockReceipts transferDraft;
     neededConfirmations := draft_neededConfirmations transferDraft;
     mintHashes := draft_mintHashes transferDraft |}.

Definition initiate (env : Env) (client : Client) (amount : string)
    (token : Token) : Res Transfer :=
  await transfer <- lock env (draftOf client amount token) ;;
  track client transfer.

End EtherClient.

Module Nep141Client.
Import Nep141.

(** [i18n.en_US.statusMessage]: the switch is on the text of the status;
    [None] is the [undefined] that [last] gives on an empty array. *)
Definition statusMessage (rt : Runtime) (transfer : Transfer)
  : option string :=
  let text := status_text rt (status transfer) in
  if bool_decide (text = "in-progress") then Some "Confirming transaction"
  else if bool_decide (text = "failed") then last (errors transfer)
  else Some "Completed".

(** [i18n.en_US.callToAction]. *)
Definition callToAction (transfer : Transfer) : option string :=
  match status transfer with
  | FAILED => Some "Retry"
  | _ => None
  end.

(** The store and the clock of the client. *)
Record Client : Type := mkClient {
  untrack : string -> Res unit;
  dateNowISO : string                          (* new Date().toISOString() *)
}.

(** The optional arguments of the initiators; [shared] is what [lock],
    [lockNear] and [getMetadata] read of them. *)
Record SendOptions : Type := mkSendOptions {
  send_symbol : option string;
  send_decimals : option Z;
  send_sender : option string;
  send_nearAccount : option Account;
  send_auroraEvmAccount : option string;
  send_wNearNep141 : option string
}.
Definition shared (options : SendOptions) : Options :=
  mkOptions (send_auroraEvmAccount options) (send_nearAccount options)
    (send_decimals options) (send_symbol options) (send_wNearNep141 options).

Section Initiators.
Context {U : Type} `{UrlParams U}.

(** The [catch] block of both initiators, the wait before it apart. *)
Definition abandon (env : Env) (client : Client) (error : Exn)
  : M (U := U) Transfer :=
  fun url =>
    if hasWindow env && truthy (url_get "locking" url) then
      match untrack client (default EmptyString (url_get "locking" url)) with
      | Ok _ => (Throw error, url_clear ["locking"] url)
      | Throw failure => (Throw failure, url)
      end
    else (Throw error, url).

Definition sendToAurora (env : Env) (client : Client) (nep141Address amount
    recipient : string) (options : SendOptions) : M (U := U) Transfer :=
  fun url =>
    match (if negb (truthy (send_symbol options))
              || negb (from_option (fun d => negb (d =? 0)%Z) false
                         (send_decimals options))
           then getMetadata env nep141Address (shared options)
           else Ok (mkMetadata EmptyString 0)) with
    | Throw e => (Throw e, url)
    | Ok metadata =>
        let symbol := default (meta_symbol metadata) (send_symbol options) in
        let sourceTokenName := symbol in
        let destinationTokenName := "a" ++ symbol in
        let decimals :=
          default (meta_decimals metadata) (send_decimals options) in
        let sourceToken := nep141Address in
        match nearAccountOf env (shared options) with
        | Throw e => (Throw e, url)
        | Ok nearAccount =>
            let sender :=
              default (accountId nearAccount) (send_sender options) in
            let transfer :=
              {| type := TRANSFER_TYPE;
                 id := slice_from 2 (mathRandom env 0%nat);
                 startTime := dateNowISO client;
                 amount := amount;
                 decimals := decimals;
                 symbol := symbol;
                 sourceToken := sourceToken;
                 sourceTokenName := sourceTokenName;
                 destinationTokenName := destinationTokenName;
                 sender := sender;
                 recipient := recipient;
                 status := IN_PROGRESS;
                 completedStep := None;
                 errors := [];
                 lockHashes := [] |} in
            match lock env transfer (shared options) url with
            | (Ok locked, url') => (Ok locked, url')
            | (Throw error, url') => abandon env client error url'
            end
        end
    end.

Definition wrapAndSendNearToAurora (env : Env) (client : Client) (amount
    recipient : string) (options : SendOptions) : M (U := U) Transfer :=
  fun url =>
    let symbol := default "NEAR" (send_symbol options) in
    let destinationTokenName := "a" ++ symbol in
    let sourceTokenName := symbol in
    let sourceToken := "NEAR" in
    match nearAccountOf env (shared options) with
    | Throw e => (Throw e, url)
    | Ok nearAccount =>
        let sender := default (accountId nearAccount) (send_sender options) in
        let transfer :=
          {| type := TRANSFER_TYPE;
             id := slice_from 2 (mathRandom env 0%nat);
             startTime := dateNowISO client;
             amount := amount;
             decimals := 24;
             symbol := symbol;
             sourceToken := sourceToken;
             sourceTokenName := sourceTokenName;
             destinationTokenName := destinationTokenName;
             sender := sender;
             recipient := recipient;
             status := IN_PROGRESS;
             completedStep := None;
             errors := [];
             lockHashes := [] |} in
        match lockNear env transfer (shared options) url with
        | (Ok locked, url') => (Ok locked, url')
        | (Throw error, url') => abandon env client error url'
        end
    end.

End Initiators.

End Nep141Client.

(** The status constants as the NEP-141 [statusMessage] spells two of them,
    and integers printed in decimal. *)
Definition statuses : Runtime :=
  mkRuntime
    (fun s => match s with
              | ACTION_NEEDED => "action-needed"
              | IN_PROGRESS => "in-progress"
              | COMPLETE => "completed"
              | FAILED => "failed"
              end)
    (fun n => NilZero.string_of_int (Z.to_int n)).


(** ** Invariants and further worlds *)

Module EtherInvariants.
Import Ether.

(** What ties the status of a record to its step and its errors. *)
Definition coherent (t : Transfer) : Prop :=
  (status t = FAILED -> errors t <> [])
  /\ (status t = COMPLETE <-> completedStep t = Some MINT)
  /\ 0 <= completedConfirmations t.

(** The fields no call of the state machine writes. *)
Definition same_identity (t t' : Transfer) : Prop :=
  id t' = id t /\ amount t' = amount t
  /\ destinationTokenName t' = destinationTokenName t
  /\ recipient t' = recipient t /\ sender t' = sender t
  /\ sourceToken t' = sourceToken t /\ sourceTokenName t' = sourceTokenName t
  /\ symbol t' = symbol t /\ decimals t' = decimals t /\ type t' = type t
  /\ neededConfirmations t' = neededConfirmations t
  /\ mintHashes t' = mintHashes t.

(** The histories of a record have only grown. *)
Definition extends (t t' : Transfer) : Prop :=
  (exists more, lockHashes t' = (lockHashes t ++ more)%list)
  /\ (exists more, lockReceipts t' = (lockReceipts t ++ more)%list)
  /\ (exists more, errors t' = (errors t ++ more)%list).

End EtherInvariants.

Module Worlds.

Module E.
Import Ether EtherClient.

Definition wallet_address : string := "0x" ++ repeat_text "0" 32 ++ "DEADBEEF".



Definition receipt_reverted : Receipt := mkReceipt 100 "0xabc" false.

(** A world on the expected network where a lock is broadcast as [0xabc]
    at height 120, with the receipts and the revert reason given. *)
Definition chain (network : string)
    (receipts : option string -> Res (option Receipt))
    (replacement : Res (option FoundTx)) (reason : Res string) : Env :=
  {| ethNetworkId := "main";
     auroraEvmAccount := "aurora";
     getNetworkType := Ok network;
     getBlockNumber := Ok 120;
     getTransactionReceipt := receipts;
     getTransaction := fun _ =>
       Ok (Some (mkPendingTx wallet_address "0xcustodian" 7 "0x"));
     depositToEVM := fun _ _ _ _ => Ok "0xabc";
     getPastEvents := fun _ _ => Ok [Scenario.E.deposited];
     findReplacementTx := fun _ _ => replacement;
     getRevertReason := fun _ _ => reason;
     ethOnNearSyncHeight := Ok 100;
     findProof := fun _ => Scenario.unavailable;
     getNearAccount := Ok tt;
     is_used_proof := fun _ => Ok false;
     dateNowISO := "2021-06-01T00:00:00.000Z" |}.

Definition confirming : Env :=
  chain "main" Scenario.E.mined (Ok None) Scenario.unavailable.

Definition ropsten : Env :=
  chain "ropsten" Scenario.E.mined (Ok None) Scenario.unavailable.

Definition reverting (hash : option string) : Res (option Receipt) :=
  if bool_decide (hash = Some "0xabc") then Ok (Some receipt_reverted)
  else Ok None.

Definition dropped (hash : option string) : Res (option Receipt) := Ok None.

(** The events of a block, for [recover]. *)
Definition with_events (events : Res (list DepositedEvent)) (env : Env) : Env :=
  mkEnv (ethNetworkId env) (auroraEvmAccount env) (getNetworkType env)
    (getBlockNumber env) (getTransactionReceipt env) (getTransaction env)
    (depositToEVM env) (fun _ _ => events) (findReplacementTx env)
    (getRevertReason env) (ethOnNearSyncHeight env) (findProof env)
    (getNearAccount env) (is_used_proof env) (dateNowISO env).

(** The same world with the destination chain synced to a given height. *)
Definition synced_to (syncedTo : Z) (env : Env) : Env :=
  mkEnv (ethNetworkId env) (auroraEvmAccount env) (getNetworkType env)
    (getBlockNumber env) (getTransactionReceipt env) (getTransaction env)
    (depositToEVM env) (getPastEvents env) (findReplacementTx env)
    (getRevertReason env) (Ok syncedTo) (findProof env)
    (getNearAccount env) (is_used_proof env) (dateNowISO env).

End E.

End Worlds.

Module WorldsN.
Import Nep141 Nep141Client.

Definition draws : nat -> string := fun _ => "0.123".

(** The world of the scenarios with another answer of the token contract
    to [ft_transfer_call], and with or without a browser window. *)
Definition sending (window : bool) (sent : Res string) : Env :=
  let env := Scenario.N.world draws in
  mkEnv window (bridge_auroraEvmAccount env) (bridge_wNearNep141 env)
    (getNearAccount env) (txStatus env) (block env) (base_decode env)
    (track env) (fun _ _ => sent) (signAndSendTransaction env)
    (storage_balance_bounds env) (storage_minimum_balance env)
    (storage_balance_of env) (getMetadata env) (buildIndexerTxQuery env)
    (newRegExp env) (base64_toString env) (JSON_stringify env)
    (JSON_stringify_receipts env) (nanosToISOString env) (mathRandom env).

(** The same world when the RPC node does not answer [txStatus]. *)
Definition offline : Env :=
  let env := Scenario.N.world draws in
  mkEnv (hasWindow env) (bridge_auroraEvmAccount env) (bridge_wNearNep141 env)
    (getNearAccount env) (fun _ _ => Scenario.unavailable) (block env)
    (base_decode env) (track env) (functionCall env)
    (signAndSendTransaction env) (storage_balance_bounds env)
    (storage_minimum_balance env) (storage_balance_of env) (getMetadata env)
    (buildIndexerTxQuery env) (newRegExp env) (base64_toString env)
    (JSON_stringify env) (JSON_stringify_receipts env) (nanosToISOString env)
    (mathRandom env).

(** The same world with another storage balance of the sender at wNEAR. *)
Definition registered (balance : Res (option string)) : Env :=
  let env := Scenario.N.world draws in
  mkEnv (hasWindow env) (bridge_auroraEvmAccount env) (bridge_wNearNep141 env)
    (getNearAccount env) (txStatus env) (block env) (base_decode env)
    (track env) (functionCall env)
    (fun _ actions =>
       Ok (String.concat "," (List.map methodName actions)))
    (storage_balance_bounds env) (storage_minimum_balance env)
    (fun _ _ => balance) (getMetadata env) (buildIndexerTxQuery env)
    (newRegExp env) (base64_toString env) (JSON_stringify env)
    (JSON_stringify_receipts env) (nanosToISOString env) (mathRandom env).

(** A row whose call was reverted and that carries the amount ['0']. *)
Definition row_zero : IndexedTx :=
  mkIndexedTx "hash2" "ft_transfer_call" Scenario.recipient_hex "0" "aurora".

(** The page as the wallet redirects back to it after signing. *)
Definition redirected : gmap string string :=
  <["transactionHashes" := "hash1"]> (<["locking" := "42"]> ∅).

Definition client : Client :=
  mkClient (fun _ => Ok tt) "2021-06-01T00:00:00.000Z".

Definition explicit : Options :=
  mkOptions None None (Some 6) (Some "TKN") None.

Definition mixed_case_recipient : string :=
  "0x" ++ repeat_text "0" 32 ++ "DeadBeef".

(** A transfer about to be locked, its recipient typed in mixed case. *)
Definition outgoing : Transfer :=
  mkTransfer TRANSFER_TYPE "7" "2021-06-01T00:00:00.000Z" "1000" 6 "TKN"
    "token.near" "TKN" "aTKN" "alice.near" mixed_case_recipient IN_PROGRESS
    None [] [].

(** The options of a sender who names the symbol and the decimals. *)
Definition named : SendOptions :=
  mkSendOptions (Some "TKN") (Some 6) None None None None.

(** A store that cannot forget a record. *)
Definition stuck : Client :=
  mkClient (fun _ => Throw (mkExn GenericError "storage locked"))
    "2021-06-01T00:00:00.000Z".

End WorldsN.

(** ** The token mapping of the Aurora engine
    ([src/packages/utils/src/index.ts], from its line 8 on) *)
Module TokenMap.

(** The digit of a value below 16, as [Buffer.toString('hex')] prints it. *)
Definition hex_digit (n : nat) : ascii :=
  if (n <? 10)%nat then ascii_of_nat (48 + n) else ascii_of_nat (87 + n).

(** The value of a hexadecimal digit, in either case. *)
Definition hex_value (a : ascii) : option nat :=
  let n := nat_of_ascii a in
  if is_digit a then Some (n - 48)%nat
  else if (97 <=? n)%nat && (n <=? 102)%nat then Some (n - 87)%nat
  else if is_upper_hex a then Some (n - 55)%nat
  else None.

(** [Buffer.from(bytes).toString('hex')]. *)
Fixpoint toString_hex (bytes : list Byte.byte) : string :=
  match bytes with
  | [] => EmptyString
  | b :: rest =>
      let n := Byte.to_nat b in
      String (hex_digit (n / 16)) (String (hex_digit (n mod 16))
                                     (toString_hex rest))
  end.

(** [Buffer.from(s, 'hex')]: pairs of digits, up to the first pair that is
    not two hexadecimal digits; a last odd character is left out. *)
Fixpoint from_hex (s : string) : list Byte.byte :=
  match s with
  | String a (String b rest) =>
      match hex_value a, hex_value b with
      | Some high, Some low =>
          match Byte.of_nat (16 * high + low) with
          | Some byte => byte :: from_hex rest
          | None => []
          end
      | _, _ => []
      end
  | _ => []
  end.

(** The engine contract and the library functions the code calls: the
    query of the provider for each of the two methods, raw bytes in and
    out, the Borsh serialization of the one-field argument, and UTF-8
    decoding. *)
Record Env : Type := mkEnv {
  serializeBorsh : string -> list Byte.byte;
  get_erc20_from_nep141 : string -> list Byte.byte -> Res (list Byte.byte);
  get_nep141_from_erc20 : string -> list Byte.byte -> Res (list Byte.byte);
  toString_utf8 : list Byte.byte -> string
}.

(** What [viewFunction] resolves to: [false], or what [parse] returned. *)
Inductive Viewed : Type :=
  | ViewedFalse
  | ViewedText (text : string).

(** [account.viewFunction(contractId, methodName, args, { parse })] of
    near-api-js ends in
    [result.result && result.result.length > 0 && parse(Buffer.from(result.result))]:
    an empty answer is not parsed, the call resolves to [false]. *)
Definition viewFunction (query : string -> list Byte.byte -> Res (list Byte.byte))
    (contractId : string) (args : list Byte.byte)
    (parse : list Byte.byte -> string) : Res Viewed :=
  await result <- query contractId args ;;
  Ok (if (0 <? length result)%nat then ViewedText (parse result)
      else ViewedFalse).

(** ['0x' + address]: the text of the right operand, [false] printed as
    such. *)
Definition to_text (address : Viewed) : string :=
  match address with
  | ViewedFalse => "false"
  | ViewedText text => text
  end.

Definition getErc20FromNep141 (env : Env) (nep141Address
    auroraEvmAccount : string) : Res string :=
  let serializedArgs := serializeBorsh env nep141Address in
  await address <-
    viewFunction (get_erc20_from_nep141 env) auroraEvmAccount serializedArgs
      toString_hex ;;
  Ok ("0x" ++ to_text address).

(** Declared to return a string; what it returns is whatever
    [viewFunction] resolved to. *)
Definition getNep141FromErc20 (env : Env) (auroraErc20Address
    auroraEvmAccount : string) : Res Viewed :=
  await address <-
    viewFunction (get_nep141_from_erc20 env) auroraEvmAccount
      (from_hex (slice_from 2 (toLowerCase auroraErc20Address)))
      (toString_utf8 env) ;;
  Ok address.

(** An engine that knows one token, at a 20-byte address, and answers
    nothing for any other. *)
Definition token_address : list Byte.byte :=
  List.repeat Byte.x00 16 ++ [Byte.xde; Byte.xad; Byte.xbe; Byte.xef].

Definition engine : Env :=
  mkEnv (fun s => Byte.x00 :: list_byte_of_string s)
    (fun _ args =>
       if String.eqb (string_of_list_byte args)
            (string_of_list_byte (Byte.x00 :: list_byte_of_string "token.near"))
       then Ok token_address
       else Ok [])
    (fun _ address =>
       if String.eqb (string_of_list_byte address)
            (string_of_list_byte token_address)
       then Ok (list_byte_of_string "token.near")
       else Ok [])
    string_of_list_byte.

End TokenMap.

(** From here on [++] appends lists; texts are appended with [+:+]. *)
Local Open Scope list_scope.

(** ** Properties of the ether state machine *)
Section EtherProperties.
Import Ether.

Lemma last_snoc {A : Type} (l : list A) (x : A) : last (l ++ [x]) = Some x.
Proof.
  unfold last. destruct (l ++ [x]) eqn:E.
  - destruct l; discriminate.
  - rewrite <- E. rewrite length_app. simpl.
    replace (length l + 1 - 1)%nat with (length l) by lia.
    rewrite lookup_app_r by lia. by rewrite Nat.sub_diag.
Qed.

Lemma last_nonempty {A : Type} (l : list A) : l <> [] -> is_Some (last l).
Proof.
  intros Hne. destruct l as [|a l] using rev_ind; [done|].
  rewrite last_snoc. eauto.
Qed.

Lemma last_Some_nonempty {A : Type} (l : list A) (x : A) :
  last l = Some x -> l <> [].
Proof. by destruct l. Qed.

(** [checkSync] once the lock receipt and the synced height are known. *)
Lemma checkSync_below (env : Env) (t : Transfer) (r : Receipt) (syncedTo : Z) :
  last (lockReceipts t) = Some r ->
  ethOnNearSyncHeight env = Ok syncedTo ->
  Z.max 0 (syncedTo - blockNumber r) <= neededConfirmations t ->
  checkSync env t =
    Ok (with_status IN_PROGRESS
          (with_completedConfirmations (Z.max 0 (syncedTo - blockNumber r)) t)).
Proof.
  intros Hlast Hsync Hle. unfold checkSync. rewrite Hlast, Hsync. simpl.
  destruct (Z.gtb_spec (Z.max 0 (syncedTo - blockNumber r)) (neededConfirmations t));
    [lia | reflexivity].
Qed.

Lemma checkSync_above (env : Env) (t : Transfer) (r : Receipt) (syncedTo : Z)
    (proof : string) (account : unit) (used : bool) :
  last (lockReceipts t) = Some r ->
  ethOnNearSyncHeight env = Ok syncedTo ->
  Z.max 0 (syncedTo - blockNumber r) > neededConfirmations t ->
  findProof env (transactionHash r) = Ok proof ->
  getNearAccount env = Ok account ->
  is_used_proof env proof = Ok used ->
  checkSync env t =
    Ok (if used
        then with_errors (errors t ++ ["Transfer already finalized."])
               (with_status COMPLETE
                  (with_completedConfirmations
                     (Z.max 0 (syncedTo - blockNumber r))
                     (with_completedStep (Some MINT) t)))
        else with_status IN_PROGRESS
               (with_completedConfirmations
                  (Z.max 0 (syncedTo - blockNumber r)) t)).
Proof.
  intros Hlast Hsync Hgt Hproof Hacc Hused. unfold checkSync.
  rewrite Hlast, Hsync. simpl.
  destruct (Z.gtb_spec (Z.max 0 (syncedTo - blockNumber r)) (neededConfirmations t));
    [|lia].
  rewrite Hproof. simpl. rewrite Hacc. simpl. rewrite Hused. simpl.
  by destruct used.
Qed.

(** The two shapes of a record [checkSync] returns. *)
Lemma checkSync_inv (env : Env) (t t' : Transfer) :
  checkSync env t = Ok t' ->
  exists r syncedTo,
    last (lockReceipts t) = Some r
    /\ ethOnNearSyncHeight env = Ok syncedTo
    /\ let confirmations := Z.max 0 (syncedTo - blockNumber r) in
       (t' = with_status IN_PROGRESS
               (with_completedConfirmations confirmations t)
        /\ (confirmations <= neededConfirmations t
            \/ exists proof account,
                 findProof env (transactionHash r) = Ok proof
                 /\ getNearAccount env = Ok account
                 /\ is_used_proof env proof = Ok false))
       \/ (t' = with_errors (errors t ++ ["Transfer already finalized."])
                  (with_status COMPLETE
                     (with_completedConfirmations confirmations
                        (with_completedStep (Some MINT) t)))
           /\ confirmations > neededConfirmations t
           /\ exists proof account,
                findProof env (transactionHash r) = Ok proof
                /\ getNearAccount env = Ok account
                /\ is_used_proof env proof = Ok true).
Proof.
  unfold checkSync. intros Hrun.
  destruct (last (lockReceipts t)) as [r|] eqn:Hlast; [|discriminate].
  destruct (ethOnNearSyncHeight env) as [syncedTo|] eqn:Hsync; [|discriminate].
  simpl in Hrun. exists r, syncedTo. do 2 (split; [reflexivity|]).
  destruct (Z.gtb_spec (Z.max 0 (syncedTo - blockNumber r)) (neededConfirmations t))
    as [Hgt|Hle].
  - destruct (findProof env (transactionHash r)) as [proof|] eqn:Hproof;
      [|discriminate].
    simpl in Hrun.
    destruct (getNearAccount env) as [account|] eqn:Hacc; [|discriminate].
    simpl in Hrun.
    destruct (is_used_proof env proof) as [[|]|] eqn:Hused; [| |discriminate];
      simpl in Hrun; injection Hrun as <-.
    + right. split; [reflexivity|]. split; [lia|]. eauto.
    + left. split; [reflexivity|]. right. eauto.
  - injection Hrun as <-. left. split; [reflexivity|]. left. lia.
Qed.

(** *** checkSync: confirmations and completion *)

(** C1: for a record at [completedStep = LOCK], [checkSync] sets
    [completedConfirmations] to [max 0 (syncedHeight - lockEventHeight)];
    when that exceeds [neededConfirmations] and the registry reports the
    proof used, the record returned is at [MINT] and [COMPLETE]; otherwise
    it is [IN_PROGRESS], still at [LOCK], with the new count. *)
Theorem checkSync_confirmations (env : Env) (t : Transfer) (r : Receipt)
    (syncedTo : Z) :
  completedStep t = Some LOCK ->
  last (lockReceipts t) = Some r ->
  ethOnNearSyncHeight env = Ok syncedTo ->
  let confirmations := Z.max 0 (syncedTo - blockNumber r) in
  (forall (proof : string) (account : unit),
      confirmations > neededConfirmations t ->
      findProof env (transactionHash r) = Ok proof ->
      getNearAccount env = Ok account ->
      is_used_proof env proof = Ok true ->
      exists t',
        checkSync env t = Ok t'
        /\ completedStep t' = Some MINT
        /\ status t' = COMPLETE
        /\ completedConfirmations t' = confirmations)
  /\ (confirmations <= neededConfirmations t
      \/ (exists (proof : string) (account : unit),
            findProof env (transactionHash r) = Ok proof
            /\ getNearAccount env = Ok account
            /\ is_used_proof env proof = Ok false) ->
      exists t',
        checkSync env t = Ok t'
        /\ completedStep t' = Some LOCK
        /\ status t' = IN_PROGRESS
        /\ completedConfirmations t' = confirmations).
Proof.
  intros Hstep Hlast Hsync confirmations. split.
  - intros proof account Hgt Hproof Hacc Hused.
    eexists. split.
    + rewrite (checkSync_above env t r syncedTo proof account true); done.
    + done.
  - intros [Hle | (proof & account & Hproof & Hacc & Hused)].
    + eexists. split; [by apply checkSync_below|]. done.
    + destruct (Z_le_gt_dec confirmations (neededConfirmations t)) as [Hle|Hgt].
      * eexists. split; [by apply checkSync_below|]. done.
      * eexists. split.
        -- rewrite (checkSync_above env t r syncedTo proof account false); done.
        -- done.
Qed.

(** The scenario of C1: 20 confirmations needed, lock event at height 100;
    synced to 119 gives 19 confirmations in progress, synced to 121 with the
    proof used gives a complete transfer at [MINT]. *)
Lemma checkSync_confirmations_scenario :
  (exists t',
     checkSync (Scenario.E.synced 119 false) Scenario.E.locked = Ok t'
     /\ completedConfirmations t' = 19 /\ status t' = IN_PROGRESS)
  /\ (exists t',
        checkSync (Scenario.E.synced 121 true) Scenario.E.locked = Ok t'
        /\ status t' = COMPLETE /\ completedStep t' = Some MINT).
Proof.
  split.
  - destruct (checkSync_confirmations (Scenario.E.synced 119 false)
                Scenario.E.locked Scenario.E.receipt_abc 119
                eq_refl eq_refl eq_refl) as [_ Hwait].
    destruct Hwait as (t' & Hrun & _ & Hstatus & Hcount).
    + left. vm_compute. discriminate.
    + exists t'. repeat split; assumption.
  - destruct (checkSync_confirmations (Scenario.E.synced 121 true)
                Scenario.E.locked Scenario.E.receipt_abc 121
                eq_refl eq_refl eq_refl) as [Hdone _].
    destruct (Hdone "proof" tt) as (t' & Hrun & Hstep & Hstatus & _);
      [reflexivity | reflexivity | reflexivity | reflexivity |].
    exists t'. repeat split; assumption.
Defined.

(** C10: when [checkSync] completes a transfer because the proof is already
    used, the record returned through the public interface is [COMPLETE] at
    [MINT], has ['Transfer already finalized.'] appended to [errors], and
    its [mintHashes] are those of the input, empty if they were: [errors]
    is not empty although the transfer did not fail, and no mint hash is
    recorded. *)
Theorem checkSync_finalized_by_relayer (env : Env) (t : Transfer) (r : Receipt)
    (syncedTo : Z) (proof : string) (account : unit) :
  completedStep t = Some LOCK ->
  last (lockReceipts t) = Some r ->
  ethOnNearSyncHeight env = Ok syncedTo ->
  Z.max 0 (syncedTo - blockNumber r) > neededConfirmations t ->
  findProof env (transactionHash r) = Ok proof ->
  getNearAccount env = Ok account ->
  is_used_proof env proof = Ok true ->
  exists t',
    checkSync env t = Ok t'
    /\ act env t = Ok t'
    /\ checkStatus env t = Ok t'
    /\ status t' = COMPLETE
    /\ completedStep t' = Some MINT
    /\ errors t' = errors t ++ ["Transfer already finalized."]
    /\ mintHashes t' = mintHashes t
    /\ (mintHashes t = [] -> mintHashes t' = [])
    /\ errors t' <> []
    /\ status t' <> FAILED.
Proof.
  intros Hstep Hlast Hsync Hgt Hproof Hacc Hused.
  pose proof (checkSync_above env t r syncedTo proof account true
                Hlast Hsync Hgt Hproof Hacc Hused) as Hrun.
  eexists. split; [exact Hrun|].
  unfold act, checkStatus. rewrite Hstep. simpl.
  repeat split; try done.
  destruct (errors t); discriminate.
Qed.

Lemma checkSync_finalized_by_relayer_scenario :
  exists t',
    checkStatus (Scenario.E.synced 121 true) Scenario.E.locked = Ok t'
    /\ status t' = COMPLETE
    /\ errors t' = ["Transfer already finalized."]
    /\ mintHashes t' = [].
Proof.
  destruct (checkSync_finalized_by_relayer (Scenario.E.synced 121 true)
              Scenario.E.locked Scenario.E.receipt_abc 121 "proof" tt)
    as (t' & _ & _ & Hrun & Hstatus & _ & Herrors & Hmint & _);
    [reflexivity | reflexivity | reflexivity | reflexivity | reflexivity
    | reflexivity | reflexivity |].
  exists t'. repeat split; assumption.
Defined.

(** *** checkSync called on its own output *)

(** The statement of C5 fails: with the proof already used, the second call
    appends ['Transfer already finalized.'] a second time. *)
Lemma checkSync_not_idempotent :
  ~ (forall (env : Env) (t t' : Transfer),
        checkSync env t = Ok t' -> checkSync env t' = Ok t').
Proof.
  intros Hidem.
  pose (env := Scenario.E.synced 121 true).
  pose (once :=
          with_errors ["Transfer already finalized."]
            (with_status COMPLETE
               (with_completedConfirmations 21
                  (with_completedStep (Some MINT) Scenario.E.locked)))).
  assert (Hfirst : checkSync env Scenario.E.locked = Ok once) by reflexivity.
  specialize (Hidem env Scenario.E.locked once Hfirst).
  assert (Hsecond :
            checkSync env once
            = Ok (with_errors
                    ["Transfer already finalized."; "Transfer already finalized."]
                    once)) by reflexivity.
  rewrite Hsecond in Hidem. discriminate Hidem.
Qed.

(** C5, amended: with the chain state unchanged, [checkSync] called on its
    own output succeeds; it returns that output unchanged when the output is
    in progress, and when the output is complete it returns it with
    ['Transfer already finalized.'] appended once more to [errors] and no
    other field changed. *)
Theorem checkSync_repeated (env : Env) (t t' : Transfer) :
  checkSync env t = Ok t' ->
  checkSync env t' =
    Ok (match status t' with
        | COMPLETE =>
            with_errors (errors t' ++ ["Transfer already finalized."]) t'
        | _ => t'
        end).
Proof.
  intros Hrun.
  destruct (checkSync_inv env t t' Hrun)
    as (r & syncedTo & Hlast & Hsync & Hshape).
  destruct Hshape as [[-> Hwhy] | (-> & Hgt & proof & account & Hproof & Hacc & Hused)].
  - destruct Hwhy as [Hle | (proof & account & Hproof & Hacc & Hused)].
    + rewrite (checkSync_below env _ r syncedTo); done.
    + destruct (Z_le_gt_dec (Z.max 0 (syncedTo - blockNumber r))
                  (neededConfirmations t)) as [Hle|Hgt].
      * rewrite (checkSync_below env _ r syncedTo); done.
      * rewrite (checkSync_above env _ r syncedTo proof account false); done.
  - rewrite (checkSync_above env _ r syncedTo proof account true); done.
Qed.

Lemma checkSync_repeated_scenario :
  checkSync (Scenario.E.synced 119 false)
    (with_status IN_PROGRESS
       (with_completedConfirmations 19 Scenario.E.locked))
  = Ok (with_status IN_PROGRESS
          (with_completedConfirmations 19 Scenario.E.locked)).
Proof.
  apply (checkSync_repeated (Scenario.E.synced 119 false) Scenario.E.locked).
  reflexivity.
Defined.

(** *** checkLock when the lock transaction has no receipt *)

(** [checkLock] on the expected network, the last lock hash without a
    receipt: the outcome is that of the search for a replacement. *)
Lemma checkLock_no_receipt (env : Env) (t : Transfer) (network : string) :
  getNetworkType env = Ok network ->
  network = ethNetworkId env ->
  getTransactionReceipt env (last (lockHashes t)) = Ok None ->
  checkLock env t =
    (await r <- replacementReceipt env t ;;
     match r with
     | inl returned => Ok returned
     | inr lockReceipt =>
         settleLock env t (last (lockHashes t)) network lockReceipt
     end).
Proof.
  intros Hnet -> Hnone. unfold checkLock. rewrite Hnet. simpl.
  rewrite bool_decide_eq_false_2 by (intros Hne; by apply Hne).
  by rewrite Hnone.
Qed.

(** C2: in [checkLock], when the most recent lock hash has no receipt: if
    the finder returns no candidate the record is returned unchanged; if it
    fails with a search or validation error the record returned is [FAILED]
    with the message appended to [errors]; if it finds a replacement whose
    receipt reports success, the hash of the replacement is appended to
    [lockHashes], the receipt to [lockReceipts], and [completedStep] becomes
    [LOCK]. *)
Theorem checkLock_replacement (env : Env) (t : Transfer) (network : string)
    (cache : EthCache) :
  getNetworkType env = Ok network ->
  network = ethNetworkId env ->
  getTransactionReceipt env (last (lockHashes t)) = Ok None ->
  ethCache t = Some cache ->
  let searched :=
    findReplacementTx env (safeReorgHeight cache)
      (mkTxIdentity (cache_nonce cache) (cache_from cache) (cache_to cache)
         (cache_data cache)) in
  (searched = Ok None -> checkLock env t = Ok t)
  /\ (forall e : Exn,
        searched = Throw e ->
        exn_class e = SearchError \/ exn_class e = TxValidationError ->
        exists t',
          checkLock env t = Ok t'
          /\ status t' = FAILED
          /\ errors t' = errors t ++ [message e]
          /\ completedStep t' = completedStep t
          /\ lockHashes t' = lockHashes t)
  /\ (forall (found : FoundTx) (receipt : Receipt),
        searched = Ok (Some found) ->
        getTransactionReceipt env (Some (found_hash found)) = Ok (Some receipt) ->
        transactionHash receipt = found_hash found ->
        receipt_status receipt = true ->
        exists t',
          checkLock env t = Ok t'
          /\ lockHashes t' = lockHashes t ++ [found_hash found]
          /\ lockReceipts t' = lockReceipts t ++ [receipt]
          /\ completedStep t' = Some LOCK
          /\ status t' = IN_PROGRESS
          /\ errors t' = errors t).
Proof.
  intros Hnet Hid Hnone Hcache searched.
  pose proof (checkLock_no_receipt env t network Hnet Hid Hnone) as Hrun.
  unfold replacementReceipt in Hrun. rewrite Hcache in Hrun.
  fold searched in Hrun.
  split; [|split].
  - intros Hsearch. rewrite Hsearch in Hrun. exact Hrun.
  - intros e Hsearch Hclass. rewrite Hsearch in Hrun. simpl in Hrun.
    eexists. split.
    + rewrite Hrun. destruct Hclass as [-> | ->]; reflexivity.
    + done.
  - intros found receipt Hsearch Hreceipt Hhash Hstatus.
    rewrite Hsearch in Hrun. simpl in Hrun. rewrite Hreceipt in Hrun.
    simpl in Hrun. unfold settleLock in Hrun.
    rewrite Hstatus in Hrun. simpl in Hrun.
    rewrite bool_decide_eq_true_2 in Hrun.
    + eexists. split; [exact Hrun|]. rewrite Hhash. done.
    + rewrite Hhash. intros Hsame. rewrite <- Hsame in Hnone. congruence.
Qed.

(** The scenario of C2: the lock broadcast as [0xabc] is replaced by the
    successful [0xdef]. *)
Lemma checkLock_replacement_scenario :
  exists t',
    checkLock Scenario.E.speedup Scenario.E.pending = Ok t'
    /\ lockHashes t' = ["0xabc"; "0xdef"]
    /\ lockReceipts t' = [Scenario.E.receipt_def]
    /\ completedStep t' = Some LOCK.
Proof.
  destruct (checkLock_replacement Scenario.E.speedup Scenario.E.pending "main"
              (mkEthCache "0xsender" "0xcustodian" 7 "0x" 80)
              eq_refl eq_refl eq_refl eq_refl) as (_ & _ & Hfound).
  destruct (Hfound (mkFoundTx "0xdef") Scenario.E.receipt_def
              eq_refl eq_refl eq_refl eq_refl)
    as (t' & Hrun & Hhashes & Hreceipts & Hstep & _).
  exists t'. repeat split; assumption.
Defined.

(** *** Every call is a transition *)

Lemma lock_transition (env : Env) (t t' : Transfer) :
  completedStep t = None -> lock env t = Ok t' -> transition t t'.
Proof.
  intros Hstep. unfold lock.
  destruct (getNetworkType env) as [network|]; [|discriminate]. simpl.
  case_bool_decide; [discriminate|].
  destruct (getBlockNumber env) as [height|]; [|discriminate]. simpl.
  destruct (depositToEVM env _ _ _ _) as [lockHash|]; [|discriminate]. simpl.
  destruct (getTransaction env lockHash) as [[tx|]|]; try discriminate. simpl.
  intros [= <-]. by constructor.
Qed.

Lemma settleLock_transition (env : Env) (t t' : Transfer)
    (lockHash : option string) (network : string) (receipt : option Receipt) :
  completedStep t = None ->
  settleLock env t lockHash network receipt = Ok t' -> transition t t'.
Proof.
  intros Hstep. unfold settleLock.
  destruct receipt as [receipt|]; [|intros [= <-]; by constructor].
  destruct (receipt_status receipt); simpl.
  - case_bool_decide; intros [= <-].
    + by apply (lock_confirmed t (lockHashes t ++ [transactionHash receipt])).
    + by apply (lock_confirmed t (lockHashes t)).
  - intros [= <-]. by constructor.
Qed.

Lemma checkLock_transition (env : Env) (t t' : Transfer) :
  completedStep t = None -> checkLock env t = Ok t' -> transition t t'.
Proof.
  intros Hstep. unfold checkLock.
  destruct (getNetworkType env) as [network|]; [|discriminate]. simpl.
  case_bool_decide; [intros [= <-]; by constructor|].
  destruct (getTransactionReceipt env (last (lockHashes t)))
    as [[receipt|]|]; [| |discriminate]; cbn [bind].
  - by apply settleLock_transition.
  - unfold replacementReceipt.
    destruct (ethCache t) as [cache|]; [|discriminate].
    destruct (findReplacementTx env _ _) as [[found|]|e]; cbn [bind].
    + destruct (getTransactionReceipt env (Some (found_hash found)))
        as [receipt|e]; cbn [bind].
      * by apply settleLock_transition.
      * destruct (exn_class e); simpl; try discriminate;
          intros [= <-]; by constructor.
    + intros [= <-]. by constructor.
    + destruct (exn_class e); simpl; try discriminate;
        intros [= <-]; by constructor.
Qed.

Lemma checkSync_transition (env : Env) (t t' : Transfer) :
  completedStep t = Some LOCK -> checkSync env t = Ok t' -> transition t t'.
Proof.
  intros Hstep Hrun.
  destruct (checkSync_inv env t t' Hrun)
    as (r & syncedTo & Hlast & _ & [[-> _] | [-> _]]);
    constructor; eauto using last_Some_nonempty.
Qed.

Lemma call_transition (op : Op) (env : Env) (t t' : Transfer) :
  call op env t = Ok t' -> transition t t'.
Proof.
  destruct op; simpl; unfold act, checkStatus;
    destruct (completedStep t) as [step|] eqn:Hstep;
    try case_bool_decide; subst; try discriminate;
    eauto using lock_transition, checkLock_transition, checkSync_transition.
Qed.

(** What a transition does to the step, the errors, the mint hashes and the
    lock receipts. *)
Lemma transition_step (t t' : Transfer) :
  transition t t' -> step_le (completedStep t) (completedStep t').
Proof.
  intros [] ; simpl; try (by left); right; unfold step_lt;
    match goal with Hstep : completedStep t = _ |- _ => rewrite Hstep end;
    vm_compute; lia.
Qed.

Lemma transition_errors (t t' : Transfer) :
  transition t t' -> exists appended, errors t' = errors t ++ appended.
Proof.
  intros []; simpl; eauto; exists []; by rewrite app_nil_r.
Qed.

Lemma transition_mintHashes (t t' : Transfer) :
  transition t t' -> mintHashes t' = mintHashes t.
Proof. by intros []. Qed.

Lemma transition_evidenced (t t' : Transfer) :
  transition t t' -> lock_evidenced t -> lock_evidenced t'.
Proof.
  unfold lock_evidenced.
  intros [] Hev; simpl; try done; try congruence.
  intros _. by destruct (lockReceipts t).
Qed.

Lemma step_le_trans (a b c : option string) :
  step_le a b -> step_le b c -> step_le a c.
Proof.
  unfold step_le, step_lt. intros [-> | Hab] [-> | Hbc]; auto.
  right. destruct (step_rank a), (step_rank b), (step_rank c); try done. lia.
Qed.

End EtherProperties.

(** ** Properties of the NEP-141 state machine *)
Section Nep141Properties.
Import Nep141.
Context {U : Type} `{UrlParams U}.

Ltac run_io Hrun :=
  repeat match type of Hrun with
    | context [match ?r with Ok _ => _ | Throw _ => _ end] =>
        destruct r eqn:?; cbn in Hrun; try discriminate
    | context [if hasWindow ?env then _ else _] =>
        destruct (hasWindow env) eqn:?; cbn in Hrun
    end.

Lemma lock_keeps (env : Env) (t t' : Transfer) (options : Options)
    (url url' : U) :
  track_keeps_progress env ->
  lock env t options url = (Ok t', url') ->
  completedStep t' = completedStep t /\ errors t' = errors t.
Proof.
  intros Htrack Hrun. unfold lock, mbind, lift, ret, update in Hrun.
  run_io Hrun; simplify_eq; simpl;
    try match goal with
      | Hcall : track env _ = Ok _ |- _ => by apply Htrack in Hcall
      end; done.
Qed.

Lemma lockNear_keeps (env : Env) (t t' : Transfer) (options : Options)
    (url url' : U) :
  track_keeps_progress env ->
  lockNear env t options url = (Ok t', url') ->
  completedStep t' = completedStep t /\ errors t' = errors t.
Proof.
  intros Htrack Hrun. unfold lockNear, mbind, lift, ret, update in Hrun.
  run_io Hrun; simplify_eq; simpl;
    try match goal with
      | Hcall : track env _ = Ok _ |- _ => by apply Htrack in Hcall
      end; done.
Qed.

Lemma act_keeps (env : Env) (t t' : Transfer) (url url' : U) :
  track_keeps_progress env ->
  act env t url = (Ok t', url') ->
  completedStep t = None
  /\ completedStep t' = completedStep t /\ errors t' = errors t.
Proof.
  intros Htrack. unfold act.
  destruct (completedStep t) eqn:Hstep; [discriminate|].
  rewrite <- Hstep. intros Hrun. split; [done|].
  case_bool_decide.
  - destruct (lockNear env t no_options url) as [[locked|e] url1] eqn:Hlock;
      [|discriminate].
    simplify_eq. by eapply lockNear_keeps.
  - destruct (lock env t no_options url) as [[locked|e] url1] eqn:Hlock;
      [|discriminate].
    simplify_eq. by eapply lock_keeps.
Qed.

(** The records [checkLock] returns. *)
Lemma checkLock_inv (env : Env) (t t' : Transfer) (options : Options)
    (url url' : U) :
  checkLock env t options url = (Ok t', url') ->
  t' = t
  \/ (exists reason, t' = with_errors [reason] (with_status FAILED t))
  \/ (exists txHash startTime,
        t' = with_lockHashes (lockHashes t ++ [txHash])
               (with_startTime startTime
                  (with_completedStep (Some LOCK) (with_status COMPLETE t)))).
Proof.
  unfold checkLock. intros Hrun.
  destruct (hasWindow env); simpl in Hrun; [|discriminate].
  destruct (truthy (url_get "locking" url)); simpl in Hrun;
    [|simplify_eq; eauto].
  case_bool_decide; [simplify_eq; eauto|].
  destruct (truthy (url_get "errorCode" url)); simpl in Hrun;
    [simplify_eq; eauto|].
  destruct (url_get "transactionHashes" url) as [txHash|];
    [|simplify_eq; eauto].
  case_bool_decide; [simplify_eq; eauto|].
  unfold mbind, lift, ret, update in Hrun.
  run_io Hrun. simplify_eq. eauto.
Qed.

Lemma checkStatus_inv (env : Env) (t t' : Transfer) (url url' : U) :
  checkStatus env t url = (Ok t', url') ->
  completedStep t = None
  /\ (completedStep t' = None \/ completedStep t' = Some LOCK).
Proof.
  unfold checkStatus.
  destruct (completedStep t) eqn:Hstep; [discriminate|].
  intros Hrun. split; [done|].
  destruct (checkLock_inv _ _ _ _ _ _ Hrun)
    as [-> | [[reason ->] | (txHash & startTime & ->)]]; simpl; auto.
Qed.

Lemma nep141_call_step (op : Op) (env : Env) (t t' : Transfer) (url url' : U) :
  track_keeps_progress env ->
  call op env t url = (Ok t', url') ->
  step_le (completedStep t) (completedStep t').
Proof.
  intros Htrack. destruct op; simpl; intros Hrun.
  - destruct (act_keeps _ _ _ _ _ Htrack Hrun) as (_ & -> & _). by left.
  - destruct (checkStatus_inv _ _ _ _ _ Hrun) as (-> & [-> | ->]);
      [by left|right; vm_compute; lia].
Qed.

Lemma nep141_step_le_trans (a b c : option string) :
  step_le a b -> step_le b c -> step_le a c.
Proof.
  unfold step_le, step_lt. intros [-> | Hab] [-> | Hbc]; auto.
  right. destruct (step_rank a), (step_rank b), (step_rank c); try done. lia.
Qed.

Lemma nep141_run_step (calls : list (Op * Env)) (t t' : Transfer)
    (url url' : U) :
  Forall (fun c => track_keeps_progress c.2) calls ->
  run calls t url = (Ok t', url') ->
  step_le (completedStep t) (completedStep t').
Proof.
  intros Htracks. revert t url.
  induction Htracks as [|[op env] rest Htrack _ IH]; intros t url; simpl.
  - intros [= <- <-]. by left.
  - unfold mbind.
    destruct (call op env t url) as [[next|e] url1] eqn:Hcall; [|discriminate].
    intros Hrest. eapply nep141_step_le_trans.
    + by eapply nep141_call_step.
    + by eapply IH.
Qed.

End Nep141Properties.

(** ** Sequences of calls and recovery, ether variant *)
Section EtherRuns.
Import Ether.

Lemma ether_run_step (calls : list (Op * Env)) (t t' : Transfer) :
  run calls t = Ok t' -> step_le (completedStep t) (completedStep t').
Proof.
  revert t. induction calls as [|[op env] rest IH]; intros t; simpl.
  - intros [= <-]. by left.
  - destruct (call op env t) as [next|e] eqn:Hcall; [|discriminate]. simpl.
    intros Hrest. eapply step_le_trans.
    + eapply transition_step, call_transition, Hcall.
    + by apply IH.
Qed.

Lemma ether_run_evidenced (calls : list (Op * Env)) (t t' : Transfer) :
  lock_evidenced t -> run calls t = Ok t' -> lock_evidenced t'.
Proof.
  revert t. induction calls as [|[op env] rest IH]; intros t Hev; simpl.
  - by intros [= <-].
  - destruct (call op env t) as [next|e] eqn:Hcall; [|discriminate]. simpl.
    apply IH. eapply transition_evidenced; [|exact Hev].
    eapply call_transition, Hcall.
Qed.

Lemma step_lt_irrefl_le (a b : option string) :
  step_le a b -> ~ step_lt b a.
Proof.
  unfold step_le, step_lt. intros [Heq | Hlt].
  - subst b. destruct (step_rank a); [lia | tauto].
  - destruct (step_rank a), (step_rank b); try tauto; lia.
Qed.

(** [checkSync] reads neither the clock nor the [id]. *)
Lemma checkSync_at_clock (now : string) (env : Env) (t : Transfer) :
  checkSync (at_clock now env) t = checkSync env t.
Proof. reflexivity. Qed.

Lemma checkSync_with_id (env : Env) (v : option string) (t : Transfer) :
  checkSync env (with_id v t) =
    (await t' <- checkSync env t ;; Ok (with_id v t')).
Proof.
  unfold checkSync. simpl.
  destruct (last (lockReceipts t)) as [r|]; [|done].
  destruct (ethOnNearSyncHeight env) as [syncedTo|]; [|done]. simpl.
  destruct (Z.max 0 (syncedTo - blockNumber r) >? neededConfirmations t); [|done].
  destruct (findProof env (transactionHash r)) as [proof|]; [|done]. simpl.
  destruct (getNearAccount env) as [account|]; [|done]. simpl.
  by destruct (is_used_proof env proof) as [[|]|].
Qed.

Lemma checkSync_lockReceipts (env : Env) (t t' : Transfer) :
  checkSync env t = Ok t' -> lockReceipts t' = lockReceipts t.
Proof.
  intros Hrun.
  by destruct (checkSync_inv env t t' Hrun)
    as (r & syncedTo & _ & _ & [[-> _] | [-> _]]).
Qed.

Lemma checkSync_id (env : Env) (t t' : Transfer) :
  checkSync env t = Ok t' -> id t' = id t.
Proof.
  intros Hrun.
  by destruct (checkSync_inv env t t' Hrun)
    as (r & syncedTo & _ & _ & [[-> _] | [-> _]]).
Qed.

Lemma checkSync_step (env : Env) (t t' : Transfer) :
  checkSync env t = Ok t' ->
  completedStep t' = completedStep t \/ completedStep t' = Some MINT.
Proof.
  intros Hrun.
  destruct (checkSync_inv env t t' Hrun)
    as (r & syncedTo & _ & _ & [[-> _] | [-> _]]); auto.
Qed.

(** The record [recover] hands to [checkSync]. *)
Lemma recover_inv (env : Env) (lockTxHash : string) (t' : Transfer) :
  recover env lockTxHash = Ok t' ->
  exists (receipt : Receipt) (built : Transfer),
    getTransactionReceipt env (Some lockTxHash) = Ok (Some receipt)
    /\ id built = Some (dateNowISO env)
    /\ completedStep built = Some LOCK
    /\ lockHashes built = [lockTxHash]
    /\ lockReceipts built = [receipt]
    /\ checkSync env built = Ok t'
    /\ forall now : string,
         recover (at_clock now env) lockTxHash
         = checkSync env (with_id (Some now) built).
Proof.
  unfold recover. simpl.
  destruct (getTransactionReceipt env (Some lockTxHash)) as [[receipt|]|];
    try discriminate. simpl.
  destruct (getPastEvents env _ _) as [events|]; [|discriminate]. simpl.
  destruct (List.find _ events) as [lockedEvent|]; [|discriminate].
  case_bool_decide; [discriminate|].
  destruct (negb _); [discriminate|].
  intros Hsync.
  match type of Hsync with checkSync _ ?built = _ => exists receipt, built end.
  repeat split; try reflexivity. exact Hsync.
Qed.

End EtherRuns.

(** ** The builders of the NEP-141 variant *)
Section Nep141Builders.
Import Nep141.

Lemma promiseAll_length {A B : Type} (f : nat -> A -> Res B) (n : nat)
    (xs : list A) (ys : list B) :
  promiseAll f n xs = Ok ys -> length ys = length xs.
Proof.
  revert n ys. induction xs as [|x rest IH]; intros n ys; simpl.
  - by intros [= <-].
  - destruct (f n x) as [y|]; [|discriminate]. simpl.
    destruct (promiseAll f (S n) rest) as [ys'|] eqn:Hrest; [|discriminate].
    simpl. intros [= <-]. simpl. f_equal. by eapply IH.
Qed.

Lemma promiseAll_lookup {A B : Type} (f : nat -> A -> Res B) (n : nat)
    (xs : list A) (ys : list B) (i : nat) (x : A) :
  promiseAll f n xs = Ok ys ->
  xs !! i = Some x ->
  exists y, f (n + i)%nat x = Ok y /\ ys !! i = Some y.
Proof.
  revert n ys i. induction xs as [|x0 rest IH]; intros n ys i; simpl.
  - intros _ Hnone. by rewrite lookup_nil in Hnone.
  - destruct (f n x0) as [y0|] eqn:Hhead; [|discriminate]. simpl.
    destruct (promiseAll f (S n) rest) as [ys'|] eqn:Hrest; [|discriminate].
    simpl. intros [= <-]. destruct i as [|i]; simpl.
    + intros [= <-]. exists y0. by rewrite Nat.add_0_r.
    + intros Hx. destruct (IH _ _ _ Hrest Hx) as (y & Hy & Hlook).
      exists y. split; [|done]. by replace (n + S i)%nat with (S n + i)%nat by lia.
Qed.

Lemma dropNulls_elem {A : Type} (xs : list (option A)) (x : A) :
  In x (dropNulls xs) -> exists i, xs !! i = Some (Some x).
Proof.
  induction xs as [|[y|] rest IH]; simpl.
  - done.
  - intros [-> | Hin].
    + by exists 0%nat.
    + destruct (IH Hin) as [i Hi]. by exists (S i).
  - intros Hin. destruct (IH Hin) as [i Hi]. by exists (S i).
Qed.

Lemma candidates_rows (auroraEvmAccount : string) (regex_test : string -> bool)
    (rows : list IndexedTx) (tx : IndexedTx) :
  In tx (candidates auroraEvmAccount regex_test rows) ->
  In tx rows
  /\ method_name tx = "ft_transfer_call"
  /\ args_receiver_id tx = auroraEvmAccount.
Proof.
  unfold candidates. rewrite !filter_In.
  intros [[Hin Hmethod] Hmatch].
  apply andb_prop in Hmatch as [Hreceiver _].
  apply bool_decide_eq_true_1 in Hmethod, Hreceiver. done.
Qed.

(** What the callback answers on a candidate whose transaction status and
    block are available. *)
Lemma transferOfCandidate_inv (env : Env) (sender nep141Address
    auroraEvmAccount symbol : string) (decimals : Z) (metadata : Metadata)
    (n : nat) (tx : IndexedTx) (outcome : option Transfer) :
  transferOfCandidate env sender nep141Address auroraEvmAccount symbol
    decimals metadata n tx = Ok outcome ->
  exists lockTx,
    txStatus env (originated_from_transaction_hash tx) sender = Ok lockTx
    /\ ((args_amount tx <> successValueOf env lockTx /\ outcome = None)
        \/ (args_amount tx = successValueOf env lockTx
            /\ exists t,
                 outcome = Some t
                 /\ amount t = args_amount tx
                 /\ lockHashes t = [originated_from_transaction_hash tx]
                 /\ status t = COMPLETE
                 /\ errors t = [])).
Proof.
  unfold transferOfCandidate.
  destruct (txStatus env _ sender) as [lockTx|]; [|discriminate]. simpl.
  destruct (block env _) as [timestamp|]; [|discriminate]. simpl.
  intros Hout. exists lockTx. split; [reflexivity|].
  case_bool_decide; injection Hout as <-.
  - by left.
  - right. split; [done|]. eexists. by split.
Qed.

(** A transaction without a success value is read as the outcome ['0']:
    its candidate is dropped unless the row itself carries the amount
    ['0']. *)
Lemma successValueOf_failed (env : Env) (lockTx : TxOutcome) :
  SuccessValue lockTx = None -> successValueOf env lockTx = "0".
Proof. unfold successValueOf. by intros ->. Qed.

Lemma findAllTransfers_inv (env : Env) (fromBlock toBlock sender
    nep141Address : string) (callIndexer : string -> Res (list IndexedTx))
    (options : Options) (transfers : list Transfer) :
  findAllTransfers env fromBlock toBlock sender nep141Address callIndexer
    options = Ok transfers ->
  exists (rows : list IndexedTx) (regex_test : string -> bool)
         (metadata : Metadata) (outcomes : list (option Transfer)),
    let auroraEvmAccount :=
      default (bridge_auroraEvmAccount env) (opt_auroraEvmAccount options) in
    callIndexer (buildIndexerTxQuery env fromBlock toBlock sender nep141Address)
      = Ok rows
    /\ promiseAll
         (transferOfCandidate env sender nep141Address auroraEvmAccount
            (default (meta_symbol metadata) (opt_symbol options))
            (default (meta_decimals metadata) (opt_decimals options)) metadata)
         0%nat (candidates auroraEvmAccount regex_test rows) = Ok outcomes
    /\ transfers = dropNulls outcomes.
Proof.
  unfold findAllTransfers.
  destruct (nearAccountOf env options) as [account|]; [|discriminate]. simpl.
  destruct (callIndexer _) as [rows|]; [|discriminate]. simpl.
  match goal with
  | |- context [bind ?m _] =>
      destruct m as [regex_test|]; [|discriminate]
  end. simpl.
  destruct (resolveMetadata env _ _ options) as [metadata|]; [|discriminate].
  simpl.
  match goal with
  | |- context [bind ?m _] =>
      destruct m as [outcomes|] eqn:Hall; [|discriminate]
  end. simpl.
  intros [= <-]. by exists rows, regex_test, metadata, outcomes.
Qed.

(** [recover] draws its [id] and nothing else from [Math.random]. *)
Lemma nep141_recover_draws (env : Env) (draws1 draws2 : nat -> string)
    (lockTxHash : string) (callIndexer : string -> Res (list ActionReceipt))
    (options : Options) (t1 : Transfer) :
  recover (at_draws draws1 env) lockTxHash callIndexer options = Ok t1 ->
  id t1 = slice_from 2 (draws1 0%nat)
  /\ recover (at_draws draws2 env) lockTxHash callIndexer options
     = Ok (with_id (slice_from 2 (draws2 0%nat)) t1).
Proof.
  unfold recover. simpl.
  destruct (callIndexer _) as [actionReceipts|]; [|discriminate]. simpl.
  destruct (List.filter _ actionReceipts) as [|first rest]; [discriminate|].
  replace (resolveMetadata (at_draws draws2 env)) with (resolveMetadata env)
    by reflexivity.
  replace (resolveMetadata (at_draws draws1 env)) with (resolveMetadata env)
    by reflexivity.
  destruct (resolveMetadata env _ _ options) as [metadata|]; [|discriminate].
  simpl. intros [= <-]. done.
Qed.

End Nep141Builders.

(** ** The public interface, both variants *)

(** C3: over any sequence of [act] and [checkStatus] calls, of either
    variant, [completedStep] does not decrease in the order
    [None < Lock < Sync < Mint]: the record returned is at the step of the
    input or at a later one, never at a strictly lower one. *)
Theorem completedStep_never_regresses :
  (forall (calls : list (Ether.Op * Ether.Env)) (t t' : Ether.Transfer),
      Ether.run calls t = Ok t' ->
      Ether.step_le (Ether.completedStep t) (Ether.completedStep t')
      /\ ~ Ether.step_lt (Ether.completedStep t') (Ether.completedStep t))
  /\ (forall (U : Type) (P : Nep141.UrlParams U)
        (calls : list (Nep141.Op * Nep141.Env)) (t t' : Nep141.Transfer)
        (url url' : U),
        Forall (fun c => Nep141.track_keeps_progress c.2) calls ->
        Nep141.run calls t url = (Ok t', url') ->
        Nep141.step_le (Nep141.completedStep t) (Nep141.completedStep t')
        /\ ~ Nep141.step_lt (Nep141.completedStep t') (Nep141.completedStep t)).
Proof.
  split.
  - intros calls t t' Hrun.
    pose proof (ether_run_step calls t t' Hrun) as Hle.
    split; [exact Hle | by apply step_lt_irrefl_le].
  - intros U P calls t t' url url' Htracks Hrun.
    pose proof (nep141_run_step calls t t' url url' Htracks Hrun) as Hle.
    split; [exact Hle|].
    unfold Nep141.step_le, Nep141.step_lt in *.
    destruct Hle as [Heq | Hlt].
    + rewrite Heq. destruct (Nep141.step_rank _); [lia | tauto].
    + destruct (Nep141.step_rank _), (Nep141.step_rank _); try tauto; lia.
Qed.

(** A transfer polled through a replaced lock and the confirmations up to
    its completion, and a NEP-141 transfer retried and then confirmed by the
    wallet redirect. *)
Lemma completedStep_never_regresses_scenario :
  Ether.step_le (Ether.completedStep Scenario.E.pending) (Some Ether.MINT)
  /\ Nep141.step_le (Nep141.completedStep Scenario.N.retried)
       (Some Nep141.LOCK).
Proof.
  split.
  - pose (calls :=
            [(Ether.CheckStatus, Scenario.E.speedup);
             (Ether.CheckStatus, Scenario.E.synced 119 false);
             (Ether.Act, Scenario.E.synced 121 true)]).
    destruct (Ether.run calls Scenario.E.pending) as [t'|] eqn:Hrun;
      [|vm_compute in Hrun; discriminate Hrun].
    assert (Hstep : Ether.completedStep t' = Some Ether.MINT).
    { vm_compute in Hrun. injection Hrun as <-. reflexivity. }
    rewrite <- Hstep.
    exact (proj1 (proj1 completedStep_never_regresses calls
                    Scenario.E.pending t' Hrun)).
  - pose (calls :=
            [(Nep141.Act, Scenario.N.world (fun _ => "0.123"));
             (Nep141.CheckStatus, Scenario.N.world (fun _ => "0.123"))]).
    pose (url := {["transactionHashes" := "hash1"]} : gmap string string).
    destruct (Nep141.run calls Scenario.N.retried url) as [[t'|] url'] eqn:Hrun;
      [|vm_compute in Hrun; discriminate Hrun].
    assert (Hstep : Nep141.completedStep t' = Some Nep141.LOCK).
    { vm_compute in Hrun. injection Hrun as <- _. reflexivity. }
    rewrite <- Hstep.
    refine (proj1 (proj2 completedStep_never_regresses _ _ calls
                     Scenario.N.retried t' url url' _ Hrun)).
    do 2 (constructor; [intros t0 t1 [= <-]; done|]). constructor.
Defined.

(** The ether variant only ever appends to [errors]. *)
Lemma ether_call_errors_appended (op : Ether.Op) (env : Ether.Env)
    (t t' : Ether.Transfer) :
  Ether.call op env t = Ok t' ->
  exists appended, Ether.errors t' = Ether.errors t ++ appended.
Proof. intros Hrun. eapply transition_errors, call_transition, Hrun. Qed.

Lemma ether_call_mintHashes (op : Ether.Op) (env : Ether.Env)
    (t t' : Ether.Transfer) :
  Ether.call op env t = Ok t' -> Ether.mintHashes t' = Ether.mintHashes t.
Proof. intros Hrun. eapply transition_mintHashes, call_transition, Hrun. Qed.

(** C4: the [errors] of the record returned should extend the [errors] of
    the input.  [checkLock] of the NEP-141 variant does not: polled through
    [checkStatus] with no [locking] parameter in the URL, a retried transfer
    that carries the error of its first attempt comes back with that entry
    replaced by the new one. *)
Theorem nep141_checkLock_replaces_errors :
  let env := Scenario.N.world (fun _ => "0.123") in
  let url : gmap string string := ∅ in
  exists t',
    Nep141.checkStatus env Scenario.N.retried url = (Ok t', url)
    /\ Nep141.errors Scenario.N.retried = ["Failed: UserRejected"]
    /\ Nep141.errors t' = ["Failed to process NEAR Wallet transaction."]
    /\ ~ (exists appended,
            Nep141.errors t'
            = Nep141.errors Scenario.N.retried ++ appended).
Proof.
  intros env url. eexists. split; [reflexivity|].
  split; [reflexivity|]. split; [reflexivity|].
  intros [appended Happ]. discriminate Happ.
Qed.

(** C8: a record whose [completedStep] the dispatcher does not know (the
    ether variant: neither null nor [LOCK]; the NEP-141 variant: not null)
    makes [act] and [checkStatus] throw; no record is returned, and the page
    URL is left as it was. *)
Theorem unrecognized_step_throws :
  (forall (env : Ether.Env) (t : Ether.Transfer) (step : string),
      Ether.completedStep t = Some step ->
      step <> Ether.LOCK ->
      Ether.act env t
      = Throw (mkExn GenericError
                 ("Don't know how to act on transfer: " +:+ Ether.id_text t))
      /\ Ether.checkStatus env t
         = Throw (mkExn GenericError
                    ("Don't know how to checkStatus for transfer "
                     +:+ Ether.id_text t)))
  /\ (forall (U : Type) (P : Nep141.UrlParams U) (env : Nep141.Env)
        (t : Nep141.Transfer) (step : string) (url : U),
        Nep141.completedStep t = Some step ->
        Nep141.act env t url
        = (Throw (mkExn GenericError
                    ("Don't know how to act on transfer: "
                     +:+ Nep141.JSON_stringify env t)), url)
        /\ Nep141.checkStatus env t url
           = (Throw (mkExn GenericError
                       ("Don't know how to checkStatus for transfer "
                        +:+ Nep141.id t)), url)).
Proof.
  split.
  - intros env t step Hstep Hother. unfold Ether.act, Ether.checkStatus.
    rewrite Hstep. by rewrite bool_decide_eq_false_2.
  - intros U P env t step url Hstep. unfold Nep141.act, Nep141.checkStatus.
    by rewrite Hstep.
Qed.

(** A record already at [MINT], and a NEP-141 record already at [LOCK]. *)
Lemma unrecognized_step_throws_scenario :
  (exists e,
     Ether.act (Scenario.E.synced 121 true)
       (Ether.with_completedStep (Some Ether.MINT) Scenario.E.locked)
     = Throw e)
  /\ (exists e,
        Nep141.checkStatus (Scenario.N.world (fun _ => "0.123"))
          (Nep141.with_completedStep (Some Nep141.LOCK) Scenario.N.retried)
          (∅ : gmap string string)
        = (Throw e, ∅)).
Proof.
  split.
  - eexists.
    apply (proj1 unrecognized_step_throws _ _ Ether.MINT);
      [reflexivity | vm_compute; discriminate].
  - eexists.
    apply (proj2 unrecognized_step_throws _ _ _ _ Nep141.LOCK ∅). reflexivity.
Defined.

(** C9: [checkSync] reads the block number of the last lock receipt without
    a check.  On a record with lock receipts the read is in bounds and the
    confirmations are counted from that receipt; on a record without, it is
    a read on [undefined].  The records [act] and [checkStatus] route to it
    have a receipt: [checkLock] and [recover] put one in [lockReceipts] when
    they set [completedStep] to [LOCK], and no call loses it. *)
Theorem checkSync_reads_lock_receipt :
  (forall (env : Ether.Env) (t : Ether.Transfer),
      Ether.lockReceipts t = [] ->
      Ether.checkSync env t = Throw (Ether.undefined_read "blockNumber"))
  /\ (forall t : Ether.Transfer,
        Ether.lockReceipts t <> [] ->
        exists r,
          Ether.lockReceipts t !! (length (Ether.lockReceipts t) - 1)%nat
          = Some r
          /\ last (Ether.lockReceipts t) = Some r
          /\ forall (env : Ether.Env) (syncedTo : Z) (proof : string)
               (account : unit) (used : bool),
               Ether.ethOnNearSyncHeight env = Ok syncedTo ->
               Ether.findProof env (Ether.transactionHash r) = Ok proof ->
               Ether.getNearAccount env = Ok account ->
               Ether.is_used_proof env proof = Ok used ->
               exists t',
                 Ether.checkSync env t = Ok t'
                 /\ Ether.completedConfirmations t'
                    = Z.max 0 (syncedTo - Ether.blockNumber r))
  /\ (forall (env : Ether.Env) (t t' : Ether.Transfer),
        Ether.completedStep t = None ->
        Ether.checkLock env t = Ok t' ->
        Ether.completedStep t' = Some Ether.LOCK ->
        Ether.lockReceipts t' <> [])
  /\ (forall (env : Ether.Env) (lockTxHash : string) (t' : Ether.Transfer),
        Ether.recover env lockTxHash = Ok t' ->
        exists receipt,
          Ether.getTransactionReceipt env (Some lockTxHash) = Ok (Some receipt)
          /\ Ether.lockReceipts t' = [receipt])
  /\ (forall (calls : list (Ether.Op * Ether.Env)) (t t' : Ether.Transfer),
        Ether.lock_evidenced t ->
        Ether.run calls t = Ok t' ->
        Ether.lock_evidenced t').
Proof.
  split; [|split; [|split; [|split]]].
  - intros env t Hempty. unfold Ether.checkSync. by rewrite Hempty.
  - intros t Hne. destruct (last_nonempty _ Hne) as [r Hlast].
    exists r. split; [|split; [exact Hlast|]].
    + unfold last in Hlast. by destruct (Ether.lockReceipts t).
    + intros env syncedTo proof account used Hsync Hproof Hacc Hused.
      destruct (Z_le_gt_dec (Z.max 0 (syncedTo - Ether.blockNumber r))
                  (Ether.neededConfirmations t)) as [Hle|Hgt].
      * eexists. split; [by apply checkSync_below|]. done.
      * eexists. split; [by eapply checkSync_above|]. by destruct used.
  - intros env t t' Hstep Hrun Hlock.
    pose proof (checkLock_transition env t t' Hstep Hrun) as Hmove.
    apply (transition_evidenced t t' Hmove); [|exact Hlock].
    intros Hcontra. congruence.
  - intros env lockTxHash t' Hrun.
    destruct (recover_inv env lockTxHash t' Hrun)
      as (receipt & built & Hreceipt & _ & _ & _ & Hbuilt & Hsync & _).
    exists receipt. split; [exact Hreceipt|].
    by rewrite (checkSync_lockReceipts _ _ _ Hsync).
  - intros calls t t'. apply ether_run_evidenced.
Qed.

(** A fresh transfer polled until its lock is confirmed carries the receipt
    [checkSync] goes on to read. *)
Lemma checkSync_reads_lock_receipt_scenario :
  exists t' r,
    Ether.run [(Ether.CheckStatus, Scenario.E.speedup)] Scenario.E.pending
    = Ok t'
    /\ Ether.lock_evidenced t'
    /\ last (Ether.lockReceipts Scenario.E.locked) = Some r.
Proof.
  destruct (Ether.run [(Ether.CheckStatus, Scenario.E.speedup)]
              Scenario.E.pending) as [t'|] eqn:Hrun;
    [|vm_compute in Hrun; discriminate Hrun].
  destruct (proj1 (proj2 checkSync_reads_lock_receipt) Scenario.E.locked)
    as (r & _ & Hlast & _); [vm_compute; discriminate|].
  exists t', r. split; [reflexivity|]. split; [|exact Hlast].
  apply (proj2 (proj2 (proj2 (proj2 checkSync_reads_lock_receipt)))
           [(Ether.CheckStatus, Scenario.E.speedup)] Scenario.E.pending t');
    [|exact Hrun].
  intros Hstep. vm_compute in Hstep. discriminate Hstep.
Defined.

(** ** Recovery and discovery *)

(** The statement of C6 fails: two recoveries of the same lock transaction
    against the same chain state, at two readings of the clock, return two
    different [id]s. *)
Lemma recover_id_not_deterministic :
  ~ (forall (env : Ether.Env) (now1 now2 lockTxHash : string)
       (t1 t2 : Ether.Transfer),
        Ether.recover (Ether.at_clock now1 env) lockTxHash = Ok t1 ->
        Ether.recover (Ether.at_clock now2 env) lockTxHash = Ok t2 ->
        Ether.id t1 = Ether.id t2).
Proof.
  intros Hsame.
  pose (env := Scenario.E.synced 119 false).
  destruct (Ether.recover
              (Ether.at_clock "2021-06-01T00:00:00.000Z" env) "0xabc")
    as [t1|] eqn:Hfirst; [|vm_compute in Hfirst; discriminate Hfirst].
  destruct (Ether.recover
              (Ether.at_clock "2021-06-01T00:00:01.000Z" env) "0xabc")
    as [t2|] eqn:Hsecond; [|vm_compute in Hsecond; discriminate Hsecond].
  specialize (Hsame env _ _ _ t1 t2 Hfirst Hsecond).
  vm_compute in Hfirst, Hsecond.
  injection Hfirst as <-. injection Hsecond as <-. discriminate Hsame.
Qed.

(** C6, amended: the [id] [recover] assigns is not derived from the lock
    transaction.  In the ether variant it is the ISO text of the clock at
    the call, in the NEP-141 variant the digits of a [Math.random] draw; two
    recoveries against the same chain and indexer state return records that
    are equal in every field but [id]. *)
Theorem recover_id_from_clock_or_draw :
  (forall (env : Ether.Env) (now1 now2 lockTxHash : string)
      (t1 : Ether.Transfer),
      Ether.recover (Ether.at_clock now1 env) lockTxHash = Ok t1 ->
      Ether.id t1 = Some now1
      /\ Ether.recover (Ether.at_clock now2 env) lockTxHash
         = Ok (Ether.with_id (Some now2) t1))
  /\ (forall (env : Nep141.Env) (draws1 draws2 : nat -> string)
        (lockTxHash : string)
        (callIndexer : string -> Res (list Nep141.ActionReceipt))
        (options : Nep141.Options) (t1 : Nep141.Transfer),
        Nep141.recover (Nep141.at_draws draws1 env) lockTxHash callIndexer
          options = Ok t1 ->
        Nep141.id t1 = slice_from 2 (draws1 0%nat)
        /\ Nep141.recover (Nep141.at_draws draws2 env) lockTxHash callIndexer
             options
           = Ok (Nep141.with_id (slice_from 2 (draws2 0%nat)) t1)).
Proof.
  split.
  - intros env now1 now2 lockTxHash t1 Hrun.
    destruct (recover_inv _ _ _ Hrun)
      as (receipt & built & _ & Hid & _ & _ & _ & Hsync & Hclock).
    simpl in Hid. rewrite checkSync_at_clock in Hsync. split.
    + by rewrite (checkSync_id _ _ _ Hsync).
    + transitivity
        (Ether.recover (Ether.at_clock now2 (Ether.at_clock now1 env))
           lockTxHash); [reflexivity|].
      rewrite (Hclock now2), checkSync_at_clock, checkSync_with_id, Hsync.
      reflexivity.
  - intros env draws1 draws2 lockTxHash callIndexer options t1.
    apply nep141_recover_draws.
Qed.

Lemma recover_id_from_clock_or_draw_scenario :
  (exists t1,
     Ether.recover (Scenario.E.synced 119 false) "0xabc" = Ok t1
     /\ Ether.id t1 = Some "2021-06-01T00:00:00.000Z")
  /\ (exists t1,
        Nep141.recover (Scenario.N.world (fun _ => "0.123")) "hash1"
          Scenario.N.receipts_indexer Nep141.no_options = Ok t1
        /\ Nep141.id t1 = "123").
Proof.
  split.
  - destruct (Ether.recover (Scenario.E.synced 119 false) "0xabc")
      as [t1|] eqn:Hrun; [|vm_compute in Hrun; discriminate Hrun].
    exists t1. split; [reflexivity|].
    exact (proj1 (proj1 recover_id_from_clock_or_draw
                    (Scenario.E.synced 119 false)
                    "2021-06-01T00:00:00.000Z" "2021-06-01T00:00:01.000Z"
                    "0xabc" t1 Hrun)).
  - destruct (Nep141.recover (Scenario.N.world (fun _ => "0.123")) "hash1"
                Scenario.N.receipts_indexer Nep141.no_options)
      as [t1|] eqn:Hrun; [|vm_compute in Hrun; discriminate Hrun].
    exists t1. split; [reflexivity|].
    exact (proj1 (proj2 recover_id_from_clock_or_draw
                    (Scenario.N.world (fun _ => "0.123"))
                    (fun _ => "0.123") (fun _ => "0.456") "hash1"
                    Scenario.N.receipts_indexer Nep141.no_options t1 Hrun)).
Defined.

(** What [findAllTransfers] compares: the amount of the indexer row and the
    outcome as the code reads it, [successValueOf], which is ['0'] for a
    transaction without a success value.  Each candidate is mapped to a
    transfer when the two are equal and to null when they differ; the nulls
    are filtered out, so a differing candidate raises no error and yields
    no record, and every transfer returned is [COMPLETE] with no [errors].
    A reverted call is therefore left out only when its row carries an
    amount other than ['0']. *)
Lemma findAllTransfers_compares (env : Nep141.Env) (fromBlock toBlock sender
    nep141Address : string)
    (callIndexer : string -> Res (list Nep141.IndexedTx))
    (options : Nep141.Options) (transfers : list Nep141.Transfer) :
  Nep141.findAllTransfers env fromBlock toBlock sender nep141Address
    callIndexer options = Ok transfers ->
  exists (rows found : list Nep141.IndexedTx)
         (outcomes : list (option Nep141.Transfer)),
    callIndexer
      (Nep141.buildIndexerTxQuery env fromBlock toBlock sender nep141Address)
      = Ok rows
    /\ (forall tx, In tx found -> In tx rows)
    /\ length outcomes = length found
    /\ transfers = Nep141.dropNulls outcomes
    /\ (forall (i : nat) (tx : Nep141.IndexedTx),
          found !! i = Some tx ->
          exists lockTx,
            Nep141.txStatus env (Nep141.originated_from_transaction_hash tx)
              sender = Ok lockTx
            /\ ((Nep141.args_amount tx <> Nep141.successValueOf env lockTx
                 /\ outcomes !! i = Some None)
                \/ (Nep141.args_amount tx = Nep141.successValueOf env lockTx
                    /\ exists t,
                         outcomes !! i = Some (Some t)
                         /\ Nep141.amount t = Nep141.args_amount tx)))
    /\ (forall t : Nep141.Transfer,
          In t transfers ->
          exists tx lockTx,
            In tx rows
            /\ Nep141.txStatus env (Nep141.originated_from_transaction_hash tx)
                 sender = Ok lockTx
            /\ Nep141.lockHashes t
               = [Nep141.originated_from_transaction_hash tx]
            /\ Nep141.amount t = Nep141.args_amount tx
            /\ Nep141.amount t = Nep141.successValueOf env lockTx
            /\ Nep141.status t = COMPLETE
            /\ Nep141.errors t = []).
Proof.
  intros Hrun.
  destruct (findAllTransfers_inv _ _ _ _ _ _ _ _ Hrun)
    as (rows & regex_test & metadata & outcomes & Hrows & Hall & ->).
  set (auroraEvmAccount :=
         default (Nep141.bridge_auroraEvmAccount env)
           (Nep141.opt_auroraEvmAccount options)) in *.
  set (found := Nep141.candidates auroraEvmAccount regex_test rows) in *.
  assert (Heach : forall i tx,
             found !! i = Some tx ->
             exists lockTx,
               Nep141.txStatus env
                 (Nep141.originated_from_transaction_hash tx) sender = Ok lockTx
               /\ ((Nep141.args_amount tx <> Nep141.successValueOf env lockTx
                    /\ outcomes !! i = Some None)
                   \/ (Nep141.args_amount tx = Nep141.successValueOf env lockTx
                       /\ exists t,
                            outcomes !! i = Some (Some t)
                            /\ Nep141.amount t = Nep141.args_amount tx
                            /\ Nep141.lockHashes t
                               = [Nep141.originated_from_transaction_hash tx]
                            /\ Nep141.status t = COMPLETE
                            /\ Nep141.errors t = []))).
  { intros i tx Hi.
    destruct (promiseAll_lookup _ _ _ _ _ _ Hall Hi) as (outcome & Hout & Hlook).
    destruct (transferOfCandidate_inv _ _ _ _ _ _ _ _ _ _ Hout)
      as (lockTx & Hstatus & Hcase).
    exists lockTx. split; [exact Hstatus|].
    destruct Hcase as [[Hne ->] | (Heq & t & -> & Hfields)]; [by left|].
    right. split; [exact Heq|]. by exists t. }
  exists rows, found, outcomes.
  split; [exact Hrows|]. split.
  { intros tx Hin. by apply candidates_rows in Hin as [Hin _]. }
  split; [by eapply promiseAll_length|]. split; [reflexivity|]. split.
  - intros i tx Hi. destruct (Heach i tx Hi) as (lockTx & Hstatus & Hcase).
    exists lockTx. split; [exact Hstatus|].
    destruct Hcase as [Hdiff | (Heq & t & Hlook & Hamount & _)]; [by left|].
    right. split; [exact Heq|]. by exists t.
  - intros t Hin. destruct (dropNulls_elem _ _ Hin) as [i Hi].
    assert (Hlt : (i < length found)%nat).
    { erewrite <- promiseAll_length by exact Hall.
      apply lookup_lt_is_Some. eauto. }
    destruct (lookup_lt_is_Some_2 found i Hlt) as [tx Htx].
    destruct (Heach i tx Htx) as (lockTx & Hstatus & Hcase).
    destruct Hcase as [[_ Hnull] | (Heq & t0 & Hlook & Hamount & Hhash & Hst & Herr)];
      [congruence|].
    assert (t0 = t) as -> by congruence.
    exists tx, lockTx. split.
    { apply (candidates_rows auroraEvmAccount regex_test).
      apply list_elem_of_In, list_elem_of_lookup. eauto. }
    repeat split; try done. congruence.
Qed.

(** The indexer reports a call that returned the amount it was given and a
    reverted one of amount ['500']: only the first is returned. *)
Lemma findAllTransfers_compares_scenario :
  exists transfers,
    Nep141.findAllTransfers (Scenario.N.world (fun _ => "0.123")) "0" "latest"
      "alice.near" "token.near" Scenario.N.indexer Nep141.no_options
    = Ok transfers
    /\ (forall t, In t transfers ->
          Nep141.status t = COMPLETE /\ Nep141.errors t = [])
    /\ Nep141.lockHashes <$> transfers = [["hash1"]].
Proof.
  destruct (Nep141.findAllTransfers (Scenario.N.world (fun _ => "0.123")) "0"
              "latest" "alice.near" "token.near" Scenario.N.indexer
              Nep141.no_options) as [transfers|] eqn:Hrun;
    [|vm_compute in Hrun; discriminate Hrun].
  destruct (findAllTransfers_compares _ _ _ _ _ _ _ _ Hrun)
    as (rows & found & outcomes & _ & _ & _ & _ & _ & Hverified).
  exists transfers. split; [reflexivity|]. split.
  - intros t Hin.
    destruct (Hverified t Hin) as (tx & lockTx & _ & _ & _ & _ & _ & Hst & Herr).
    by split.
  - vm_compute in Hrun. injection Hrun as <-. reflexivity.
Defined.

(** ** Further properties of the ether variant *)
Section EtherFurther.
Import Ether EtherClient EtherInvariants.

(** The record [lock] returns. *)
Lemma lock_inv (env : Env) (t t' : Transfer) :
  lock env t = Ok t' ->
  exists (network lockHash : string) (height : Z) (tx : PendingTx),
    getNetworkType env = Ok network
    /\ network = ethNetworkId env
    /\ getBlockNumber env = Ok height
    /\ depositToEVM env (toLowerCase (slice_from 2 (recipient t))) "0"
         (amount t) (sender t) = Ok lockHash
    /\ getTransaction env lockHash = Ok (Some tx)
    /\ t' = with_lockHashes (lockHashes t ++ [lockHash])
              (with_ethCache
                 (Some (mkEthCache (pending_from tx) (pending_to tx)
                          (pending_nonce tx) (pending_input tx) (height - 20)))
                 (with_status IN_PROGRESS t)).
Proof.
  unfold lock.
  destruct (getNetworkType env) as [network|]; [|discriminate]. simpl.
  case_bool_decide as Hnet; [discriminate|].
  destruct (getBlockNumber env) as [height|]; [|discriminate]. simpl.
  destruct (depositToEVM env _ _ _ _) as [lockHash|] eqn:Hsend; [|discriminate].
  simpl.
  destruct (getTransaction env lockHash) as [[tx|]|] eqn:Htx; try discriminate.
  intros [= <-]. exists network, lockHash, height, tx.
  repeat split; try done;
    try (by destruct (decide (network = ethNetworkId env))).
Qed.

(** [checkLock] on the expected network when the last lock hash has a
    receipt. *)
Lemma checkLock_receipt (env : Env) (t : Transfer) (network : string)
    (receipt : Receipt) :
  getNetworkType env = Ok network ->
  network = ethNetworkId env ->
  getTransactionReceipt env (last (lockHashes t)) = Ok (Some receipt) ->
  checkLock env t
  = settleLock env t (last (lockHashes t)) network (Some receipt).
Proof.
  intros Hnet -> Hreceipt. unfold checkLock. rewrite Hnet. cbn [bind].
  rewrite bool_decide_eq_false_2 by (intros Hne; by apply Hne).
  by rewrite Hreceipt.
Qed.



(** X2: On another Ethereum network than the expected one, a poll of a fresh
    transfer returns the record as it is, whatever the chain says, and
    [act] refuses to broadcast. *)
Theorem wrong_network_no_progress (env : Env) (t : Transfer)
    (network : string) :
  getNetworkType env = Ok network ->
  network <> ethNetworkId env ->
  completedStep t = None ->
  checkStatus env t = Ok t
  /\ act env t
     = Throw (mkExn GenericError
                "Wrong eth network for checkLock, expected: %s, got: %s").
Proof.
  intros Hnet Hother Hstep. unfold checkStatus, act, checkLock, lock.
  rewrite Hstep, Hnet. cbn [bind].
  by rewrite bool_decide_eq_true_2.
Qed.

Lemma wrong_network_no_progress_scenario :
  checkStatus Worlds.E.ropsten Scenario.E.pending = Ok Scenario.E.pending
  /\ exists e, act Worlds.E.ropsten Scenario.E.pending = Throw e.
Proof.
  destruct (wrong_network_no_progress Worlds.E.ropsten Scenario.E.pending
              "ropsten" eq_refl) as [Hpoll Hact];
    [vm_compute; discriminate | reflexivity |].
  split; [exact Hpoll | eauto].
Defined.

(** X3: When the receipt [checkLock] obtains, of the last lock hash or of a
    transaction that replaced it, reports a revert: the record fails with
    the receipt appended and one reason appended to [errors]; the reason is
    asked for the last lock hash, and when it cannot be had the fallback
    text carries the message of that failure.  The step and [lockHashes]
    stay as they are, also when the receipt is that of a replacement. *)
Theorem checkLock_reverted (env : Env) (t : Transfer) (network : string)
    (receipt : Receipt) :
  getNetworkType env = Ok network ->
  network = ethNetworkId env ->
  getTransactionReceipt env (last (lockHashes t)) = Ok (Some receipt)
  \/ (exists (cache : EthCache) (found : FoundTx),
        getTransactionReceipt env (last (lockHashes t)) = Ok None
        /\ ethCache t = Some cache
        /\ findReplacementTx env (safeReorgHeight cache)
             (mkTxIdentity (cache_nonce cache) (cache_from cache)
                (cache_to cache) (cache_data cache)) = Ok (Some found)
        /\ getTransactionReceipt env (Some (found_hash found))
           = Ok (Some receipt)) ->
  receipt_status receipt = false ->
  exists (t' : Transfer) (reason : string),
    checkLock env t = Ok t'
    /\ status t' = FAILED
    /\ errors t' = errors t ++ [reason]
    /\ lockReceipts t' = lockReceipts t ++ [receipt]
    /\ lockHashes t' = lockHashes t
    /\ completedStep t' = completedStep t
    /\ match getRevertReason env (last (lockHashes t)) network with
       | Ok text => reason = text
       | Throw e =>
           reason
           = "Could not determine why transaction failed; encountered error: "
             +:+ message e
       end.
Proof.
  intros Hnet Hid Hfound Hstatus.
  assert (Hrun : checkLock env t
                 = settleLock env t (last (lockHashes t)) network (Some receipt)).
  { destruct Hfound as [Hdirect | (cache & found & Hnone & Hcache & Hsearch & Hrepl)].
    - by apply checkLock_receipt.
    - rewrite (checkLock_no_receipt env t network Hnet Hid Hnone).
      unfold replacementReceipt. rewrite Hcache, Hsearch. cbn [bind].
      by rewrite Hrepl. }
  rewrite Hrun. unfold settleLock. rewrite Hstatus. cbn [negb].
  eexists _, (revertReason env (last (lockHashes t)) network).
  split; [reflexivity|]. repeat split.
  unfold revertReason. by destruct (getRevertReason env _ network).
Qed.

Lemma checkLock_reverted_scenario :
  exists t',
    checkLock
      (Worlds.E.chain "main" Worlds.E.reverting (Ok None)
         (Ok "Not enough balance"))
      Scenario.E.pending = Ok t'
    /\ status t' = FAILED
    /\ errors t' = ["Not enough balance"]
    /\ lockReceipts t' = [Worlds.E.receipt_reverted].
Proof.
  destruct (checkLock_reverted
              (Worlds.E.chain "main" Worlds.E.reverting (Ok None)
                 (Ok "Not enough balance"))
              Scenario.E.pending "main" Worlds.E.receipt_reverted
              eq_refl eq_refl (or_introl eq_refl) eq_refl)
    as (t' & reason & Hrun & Hstatus & Herrors & Hreceipts & _ & _ & Hreason).
  simpl in Hreason. subst reason.
  exists t'. repeat split; assumption.
Defined.

(** X4: [checkLock] records no failure of a collaborator in the record: the
    rejection of the network lookup, of the receipt lookup, and any
    rejection of the search for a replacement that is neither a search nor a
    validation error come out as they are; a record without [ethCache] whose
    lock hash has no receipt is a read on [undefined]. *)
Theorem checkLock_rethrows (env : Env) (t : Transfer) :
  (forall e, getNetworkType env = Throw e -> checkLock env t = Throw e)
  /\ (forall network e,
        getNetworkType env = Ok network ->
        network = ethNetworkId env ->
        getTransactionReceipt env (last (lockHashes t)) = Throw e ->
        checkLock env t = Throw e)
  /\ (forall network,
        getNetworkType env = Ok network ->
        network = ethNetworkId env ->
        getTransactionReceipt env (last (lockHashes t)) = Ok None ->
        match ethCache t with
        | None => checkLock env t = Throw (undefined_read "nonce")
        | Some cache =>
            forall e,
              findReplacementTx env (safeReorgHeight cache)
                (mkTxIdentity (cache_nonce cache) (cache_from cache)
                   (cache_to cache) (cache_data cache)) = Throw e ->
              exn_class e <> SearchError ->
              exn_class e <> TxValidationError ->
              checkLock env t = Throw e
        end).
Proof.
  split; [|split].
  - intros e Hnet. unfold checkLock. by rewrite Hnet.
  - intros network e Hnet -> Hreceipt. unfold checkLock. rewrite Hnet.
    cbn [bind]. rewrite bool_decide_eq_false_2 by (intros Hne; by apply Hne).
    by rewrite Hreceipt.
  - intros network Hnet Hid Hnone.
    pose proof (checkLock_no_receipt env t network Hnet Hid Hnone) as Hrun.
    unfold replacementReceipt in Hrun.
    destruct (ethCache t) as [cache|]; [|exact Hrun].
    intros e Hsearch Hs Hv. rewrite Hsearch in Hrun. cbn [bind] in Hrun.
    rewrite Hrun. by destruct (exn_class e).
Qed.

Lemma checkLock_rethrows_scenario :
  checkLock
    (Worlds.E.chain "main" Worlds.E.dropped
       (Throw (mkExn GenericError "connection lost")) Scenario.unavailable)
    Scenario.E.pending
  = Throw (mkExn GenericError "connection lost").
Proof.
  pose proof (proj2 (proj2 (checkLock_rethrows
                (Worlds.E.chain "main" Worlds.E.dropped
                   (Throw (mkExn GenericError "connection lost"))
                   Scenario.unavailable)
                Scenario.E.pending)) "main" eq_refl eq_refl eq_refl) as Hcase.
  simpl in Hcase.
  apply Hcase; [reflexivity | discriminate | discriminate].
Defined.

(** *** What no sequence of calls undoes *)

Lemma transition_receipts (t t' : Transfer) :
  transition t t' -> exists more, lockReceipts t' = lockReceipts t ++ more.
Proof. intros []; simpl; eauto; exists []; by rewrite app_nil_r. Qed.

Lemma settleLock_lockHashes (env : Env) (t t' : Transfer)
    (lockHash : option string) (network : string) (receipt : option Receipt) :
  settleLock env t lockHash network receipt = Ok t' ->
  exists more, lockHashes t' = lockHashes t ++ more.
Proof.
  unfold settleLock. destruct receipt as [receipt|].
  - destruct (receipt_status receipt); cbn [negb].
    + case_bool_decide; intros [= <-]; simpl; eauto.
      exists []. by rewrite app_nil_r.
    + intros [= <-]. exists []. by rewrite app_nil_r.
  - intros [= <-]. exists []. by rewrite app_nil_r.
Qed.

Lemma checkLock_lockHashes (env : Env) (t t' : Transfer) :
  checkLock env t = Ok t' -> exists more, lockHashes t' = lockHashes t ++ more.
Proof.
  unfold checkLock.
  destruct (getNetworkType env) as [network|]; [|discriminate]. cbn [bind].
  case_bool_decide; [intros [= <-]; exists []; by rewrite app_nil_r|].
  destruct (getTransactionReceipt env (last (lockHashes t)))
    as [[receipt|]|]; [| |discriminate]; cbn [bind].
  - apply settleLock_lockHashes.
  - unfold replacementReceipt.
    destruct (ethCache t) as [cache|]; [|discriminate].
    destruct (findReplacementTx env _ _) as [[found|]|e]; cbn [bind].
    + destruct (getTransactionReceipt env (Some (found_hash found)))
        as [receipt|e]; cbn [bind].
      * apply settleLock_lockHashes.
      * destruct (exn_class e); simpl; try discriminate;
          intros [= <-]; exists []; by rewrite app_nil_r.
    + intros [= <-]. exists []. by rewrite app_nil_r.
    + destruct (exn_class e); simpl; try discriminate;
        intros [= <-]; exists []; by rewrite app_nil_r.
Qed.

Lemma call_lockHashes (op : Op) (env : Env) (t t' : Transfer) :
  call op env t = Ok t' -> exists more, lockHashes t' = lockHashes t ++ more.
Proof.
  destruct op; simpl; unfold act, checkStatus;
    destruct (completedStep t) as [step|] eqn:Hstep;
    try case_bool_decide; try discriminate; intros Hrun.
  - destruct (checkSync_inv env t t' Hrun)
      as (r & syncedTo & _ & _ & [[-> _] | [-> _]]);
      exists []; by rewrite app_nil_r.
  - destruct (lock_inv env t t' Hrun)
      as (network & lockHash & height & tx & _ & _ & _ & _ & _ & ->).
    simpl. eauto.
  - destruct (checkSync_inv env t t' Hrun)
      as (r & syncedTo & _ & _ & [[-> _] | [-> _]]);
      exists []; by rewrite app_nil_r.
  - by eapply checkLock_lockHashes.
Qed.

Lemma call_extends (op : Op) (env : Env) (t t' : Transfer) :
  call op env t = Ok t' -> extends t t'.
Proof.
  intros Hcall. pose proof (call_transition op env t t' Hcall) as Hmove.
  split; [by eapply call_lockHashes|].
  split; [by apply transition_receipts | by apply transition_errors].
Qed.

Lemma transition_identity (t t' : Transfer) :
  transition t t' -> same_identity t t'.
Proof. unfold same_identity. by intros []. Qed.

Lemma extends_refl (t : Transfer) : extends t t.
Proof. unfold extends. repeat split; exists []; by rewrite app_nil_r. Qed.

Lemma extends_trans (a b c : Transfer) :
  extends a b -> extends b c -> extends a c.
Proof.
  unfold extends.
  intros ([h1 Hh1] & [r1 Hr1] & [e1 He1]) ([h2 Hh2] & [r2 Hr2] & [e2 He2]).
  repeat split.
  - exists (h1 ++ h2). by rewrite Hh2, Hh1, app_assoc.
  - exists (r1 ++ r2). by rewrite Hr2, Hr1, app_assoc.
  - exists (e1 ++ e2). by rewrite He2, He1, app_assoc.
Qed.

Lemma same_identity_trans (a b c : Transfer) :
  same_identity a b -> same_identity b c -> same_identity a c.
Proof. unfold same_identity. intuition congruence. Qed.

(** X5: Over any sequence of [act] and [checkStatus] calls the histories only
    grow ([lockHashes], [lockReceipts] and [errors] of the input are
    prefixes of those of the output) and the identity of the transfer (its
    [id], amount, parties, token, type, needed confirmations, and
    [mintHashes]) is untouched. *)
Theorem run_keeps_history (calls : list (Op * Env)) (t t' : Transfer) :
  run calls t = Ok t' -> extends t t' /\ same_identity t t'.
Proof.
  revert t. induction calls as [|[op env] rest IH]; intros t; simpl.
  - intros [= <-]. split; [apply extends_refl | by unfold same_identity].
  - destruct (call op env t) as [next|e] eqn:Hcall; [|discriminate].
    cbn [bind]. intros Hrest. destruct (IH _ Hrest) as [Hext Hsame].
    pose proof (call_transition op env t next Hcall) as Hmove. split.
    + eapply extends_trans; [by eapply call_extends | exact Hext].
    + eapply same_identity_trans; [by apply transition_identity | exact Hsame].
Qed.

Lemma run_keeps_history_scenario :
  exists t',
    run [(CheckStatus, Scenario.E.speedup);
         (CheckStatus, Scenario.E.synced 119 false);
         (Act, Scenario.E.synced 121 true)] Scenario.E.pending = Ok t'
    /\ extends Scenario.E.pending t'
    /\ lockHashes t' = ["0xabc"; "0xdef"]
    /\ amount t' = "1000".
Proof.
  destruct (run [(CheckStatus, Scenario.E.speedup);
                 (CheckStatus, Scenario.E.synced 119 false);
                 (Act, Scenario.E.synced 121 true)] Scenario.E.pending)
    as [t'|] eqn:Hrun; [|vm_compute in Hrun; discriminate Hrun].
  destruct (run_keeps_history _ _ _ Hrun) as [Hext Hsame].
  exists t'. split; [reflexivity|]. split; [exact Hext|].
  vm_compute in Hrun. injection Hrun as <-. by split.
Defined.

Lemma call_confirmations (op : Op) (env : Env) (t t' : Transfer) :
  call op env t = Ok t' ->
  completedConfirmations t' = completedConfirmations t
  \/ 0 <= completedConfirmations t'.
Proof.
  intros Hcall.
  assert (Hroute : (completedStep t = None /\ transition t t')
                   \/ checkSync env t = Ok t').
  { destruct op; simpl in Hcall; unfold act, checkStatus in Hcall;
      destruct (completedStep t) as [step|] eqn:Hstep;
      try case_bool_decide; try discriminate; eauto;
      left; split; eauto using lock_transition, checkLock_transition. }
  destruct Hroute as [[Hstep Hmove] | Hsync].
  - left. destruct Hmove; simpl; congruence.
  - right.
    destruct (checkSync_inv env t t' Hsync)
      as (r & syncedTo & _ & _ & [[-> _] | [-> _]]); simpl; lia.
Qed.

Lemma call_coherent (op : Op) (env : Env) (t t' : Transfer) :
  call op env t = Ok t' -> coherent t -> coherent t'.
Proof.
  intros Hcall (Hfailed & Hcomplete & Hcount).
  pose proof (call_transition op env t t' Hcall) as Hmove.
  split; [|split].
  - destruct Hmove; simpl; try done; intros _; by destruct (errors t).
  - destruct Hmove as [? ? Hs| Hs | ? Hs | ? ? Hs | ? ? Hs | ? Hs ? | ? Hs ?];
      simpl; try done; rewrite ?Hs; split; try done; try discriminate.
  - destruct (call_confirmations op env t t' Hcall) as [-> | Hge]; done.
Qed.

(** X6: A record whose status fits its step and its errors keeps doing so over
    any sequence of calls: it is [FAILED] only with an error recorded,
    [COMPLETE] exactly at [MINT], and its count of confirmations is never
    negative (a synced height behind the lock event counts as zero). *)
Theorem run_keeps_coherence (calls : list (Op * Env)) (t t' : Transfer) :
  coherent t -> run calls t = Ok t' -> coherent t'.
Proof.
  revert t. induction calls as [|[op env] rest IH]; intros t Hco; simpl.
  - by intros [= <-].
  - destruct (call op env t) as [next|e] eqn:Hcall; [|discriminate].
    cbn [bind]. apply IH. by eapply call_coherent.
Qed.

Lemma run_keeps_coherence_scenario :
  exists t',
    run [(CheckStatus, Scenario.E.speedup);
         (Act, Scenario.E.synced 90 false)] Scenario.E.pending = Ok t'
    /\ coherent t'
    /\ completedConfirmations t' = 0.
Proof.
  destruct (run [(CheckStatus, Scenario.E.speedup);
                 (Act, Scenario.E.synced 90 false)] Scenario.E.pending)
    as [t'|] eqn:Hrun; [|vm_compute in Hrun; discriminate Hrun].
  exists t'. split; [reflexivity|]. split.
  - refine (run_keeps_coherence _ Scenario.E.pending t' _ Hrun).
    unfold coherent. simpl. repeat split; discriminate.
  - vm_compute in Hrun. by injection Hrun as <-.
Defined.

(** *** checkSync and the collaborators *)

(** X7: [checkSync] records no failure of a collaborator either: a rejection of
    the synced-height lookup, and above the threshold one of the proof
    builder, of the account lookup or of the registry, comes out as it is
    and no record is returned. *)
Theorem checkSync_rethrows (env : Env) (t : Transfer) (r : Receipt) :
  last (lockReceipts t) = Some r ->
  (forall e, ethOnNearSyncHeight env = Throw e -> checkSync env t = Throw e)
  /\ (forall syncedTo,
        ethOnNearSyncHeight env = Ok syncedTo ->
        Z.max 0 (syncedTo - blockNumber r) > neededConfirmations t ->
        (forall e,
            findProof env (transactionHash r) = Throw e ->
            checkSync env t = Throw e)
        /\ (forall proof e,
              findProof env (transactionHash r) = Ok proof ->
              getNearAccount env = Throw e ->
              checkSync env t = Throw e)
        /\ (forall proof account e,
              findProof env (transactionHash r) = Ok proof ->
              getNearAccount env = Ok account ->
              is_used_proof env proof = Throw e ->
              checkSync env t = Throw e)).
Proof.
  intros Hlast. unfold checkSync. rewrite Hlast. split.
  - by intros e ->.
  - intros syncedTo -> Hgt. cbn [bind].
    destruct (Z.gtb_spec (Z.max 0 (syncedTo - blockNumber r))
                (neededConfirmations t)); [|lia].
    split; [|split].
    + by intros e ->.
    + intros proof e -> Hacc. cbn [bind]. by rewrite Hacc.
    + intros proof account e -> Hacc Hused. cbn [bind]. rewrite Hacc.
      cbn [bind]. by rewrite Hused.
Qed.

(** At 30 confirmations the proof builder of this world is unavailable. *)
Lemma checkSync_rethrows_scenario :
  checkSync (Worlds.E.synced_to 130 Worlds.E.confirming) Scenario.E.locked
  = Throw (mkExn GenericError "unavailable").
Proof.
  refine (proj1 (proj2 (checkSync_rethrows
                          (Worlds.E.synced_to 130 Worlds.E.confirming)
                          Scenario.E.locked Scenario.E.receipt_abc eq_refl)
                   130 eq_refl _) _ _);
    reflexivity.
Defined.

(** *** recover *)

(** X8: [recover] rejects, before it reads any synced height, a hash without a
    receipt, a receipt whose block holds no [Deposited] event of that
    transaction, an event addressed to another account than the Aurora
    engine, and an event whose recipient is not 40 hexadecimal digits. *)
Theorem recover_rejects (env : Env) (lockTxHash : string) :
  (getTransactionReceipt env (Some lockTxHash) = Ok None ->
   recover env lockTxHash = Throw (null_read "blockNumber"))
  /\ (forall receipt events,
        getTransactionReceipt env (Some lockTxHash) = Ok (Some receipt) ->
        getPastEvents env (blockNumber receipt) (blockNumber receipt)
        = Ok events ->
        match List.find
                (fun event =>
                   bool_decide (event_transactionHash event = lockTxHash))
                events with
        | None =>
            recover env lockTxHash
            = Throw (mkExn GenericError
                       "Unable to process lock transaction event.")
        | Some lockedEvent =>
            let parts := split_on ":" (event_recipient lockedEvent) in
            (parts !! 0%nat <> Some (auroraEvmAccount env) ->
             recover env lockTxHash
             = Throw (mkExn GenericError
                        "Failed to parse auroraEvmAccount in protocol message"))
            /\ (parts !! 0%nat = Some (auroraEvmAccount env) ->
                from_option test_hex40 false (parts !! 1%nat) = false ->
                recover env lockTxHash
                = Throw (mkExn GenericError
                           "Failed to parse recipient in protocol message"))
        end).
Proof.
  split.
  - intros Hnone. unfold recover. by rewrite Hnone.
  - intros receipt events Hreceipt Hevents. unfold recover.
    rewrite Hreceipt. cbn [bind]. rewrite Hevents. cbn [bind].
    destruct (List.find _ events) as [lockedEvent|]; [|reflexivity].
    cbn zeta. split.
    + intros Hother. by rewrite bool_decide_eq_true_2.
    + intros Hsame Hbad. rewrite bool_decide_eq_false_2 by (by intros Hne).
      by rewrite Hbad.
Qed.

(** The event of the block carries a recipient that is too short. *)
Lemma recover_rejects_scenario :
  recover
    (Worlds.E.with_events
       (Ok [mkEvent "0xabc" "0xsender" "aurora:deadbeef" "1000"])
       Worlds.E.confirming) "0xabc"
  = Throw (mkExn GenericError "Failed to parse recipient in protocol message").
Proof.
  pose proof (proj2 (recover_rejects
                (Worlds.E.with_events
                   (Ok [mkEvent "0xabc" "0xsender" "aurora:deadbeef" "1000"])
                   Worlds.E.confirming) "0xabc")
                Scenario.E.receipt_abc _ eq_refl eq_refl) as Hcase.
  simpl in Hcase. apply (proj2 Hcase); reflexivity.
Defined.

Lemma split_on_nonempty (c : ascii) (s : string) : split_on c s <> [].
Proof.
  destruct s as [|a s]; simpl; [done|].
  destruct (Ascii.eqb a c); [done|]. by destruct (split_on c s).
Qed.

(** [split] undone: the first part, and when there are more the separator
    and the text the other parts are split from. *)
Lemma split_on_cons (c : ascii) (s w : string) (ws : list string) :
  split_on c s = w :: ws ->
  match ws with
  | [] => s = w
  | _ :: _ => exists s', s = w +:+ String c s' /\ split_on c s' = ws
  end.
Proof.
  revert w ws. induction s as [|a s IH]; intros w ws; simpl.
  - by intros [= <- <-].
  - destruct (Ascii.eqb_spec a c) as [->|Hne].
    + intros [= <- <-].
      pose proof (split_on_nonempty c s) as Hne.
      destruct (split_on c s) eqn:Hs; [done|]. by exists s.
    + destruct (split_on c s) as [|w0 ws0] eqn:Hs.
      * by destruct (split_on_nonempty c s).
      * intros [= <- <-]. specialize (IH w0 ws0 eq_refl).
        destruct ws0 as [|w1 ws1]; [by subst|].
        destruct IH as (s' & -> & Hrest). by exists s'.
Qed.

Lemma split_on_two (c : ascii) (s a b : string) :
  split_on c s !! 0%nat = Some a ->
  split_on c s !! 1%nat = Some b ->
  s = a +:+ String c b \/ exists rest, s = a +:+ String c (b +:+ String c rest).
Proof.
  destruct (split_on c s) as [|w [|w1 ws]] eqn:Hs; try done.
  simpl. intros [= ->] [= ->].
  destruct (split_on_cons c s a (b :: ws) Hs) as (s' & -> & Hrest).
  pose proof (split_on_cons c s' b ws Hrest) as Htail.
  destruct ws as [|w2 ws]; [left; by subst|].
  destruct Htail as (s'' & -> & _). right. by exists s''.
Qed.

Lemma test_hex40_length (s : string) :
  test_hex40 s = true -> String.length s = 40%nat.
Proof.
  unfold test_hex40. intros Htest. apply andb_prop in Htest as [Hlen _].
  by apply Nat.eqb_eq.
Qed.

(** X9: A record [recover] returns is built from the receipt of the lock
    transaction and from the first [Deposited] event of that transaction
    in the events the chain reports for the block of the receipt: the
    parties and the amount are those of that event, the recipient is [0x]
    and the 40 hexadecimal digits of its protocol message, the histories
    hold that one transaction, the confirmations are counted from the block
    of the receipt to the synced height, never below zero, and the record
    is either in progress at [LOCK] without errors or complete at [MINT]. *)
Theorem recover_record (env : Env) (lockTxHash : string) (t' : Transfer) :
  recover env lockTxHash = Ok t' ->
  exists (receipt : Receipt) (events : list DepositedEvent)
         (lockedEvent : DepositedEvent) (hex : string) (syncedTo : Z),
    getTransactionReceipt env (Some lockTxHash) = Ok (Some receipt)
    /\ getPastEvents env (blockNumber receipt) (blockNumber receipt)
       = Ok events
    /\ List.find
         (fun event => bool_decide (event_transactionHash event = lockTxHash))
         events = Some lockedEvent
    /\ ethOnNearSyncHeight env = Ok syncedTo
    /\ event_transactionHash lockedEvent = lockTxHash
    /\ (event_recipient lockedEvent = auroraEvmAccount env +:+ ":" +:+ hex
        \/ exists rest,
             event_recipient lockedEvent
             = auroraEvmAccount env +:+ ":" +:+ hex +:+ ":" +:+ rest)
    /\ test_hex40 hex = true
    /\ recipient t' = "0x" +:+ hex
    /\ String.length (recipient t') = 42%nat
    /\ sender t' = event_sender lockedEvent
    /\ amount t' = event_amount lockedEvent
    /\ id t' = Some (dateNowISO env)
    /\ lockHashes t' = [lockTxHash]
    /\ lockReceipts t' = [receipt]
    /\ symbol t' = "ETH" /\ decimals t' = 18
    /\ destinationTokenName t' = "aETH"
    /\ neededConfirmations t' = 20
    /\ completedConfirmations t' = Z.max 0 (syncedTo - blockNumber receipt)
    /\ 0 <= completedConfirmations t'
    /\ ((completedStep t' = Some LOCK /\ status t' = IN_PROGRESS
         /\ errors t' = [])
        \/ (completedStep t' = Some MINT /\ status t' = COMPLETE
            /\ errors t' = ["Transfer already finalized."])).
Proof.
  unfold recover.
  destruct (getTransactionReceipt env (Some lockTxHash)) as [[receipt|]|];
    try discriminate. cbn [bind].
  destruct (getPastEvents env _ _) as [events|] eqn:Hevents; [|discriminate].
  cbn [bind].
  destruct (List.find _ events) as [lockedEvent|] eqn:Hfind; [|discriminate].
  cbn zeta. case_bool_decide as Haccount; [discriminate|].
  destruct (split_on ":" (event_recipient lockedEvent) !! 1%nat)
    as [hex|] eqn:Hhex; [|discriminate].
  cbn [from_option default].
  destruct (test_hex40 hex) eqn:Htest; [|discriminate]. cbn [negb].
  intros Hsync.
  pose proof Hfind as Hfound. apply find_some in Hfound as [_ Hhash].
  apply bool_decide_eq_true_1 in Hhash.
  assert (Hfirst : split_on ":" (event_recipient lockedEvent) !! 0%nat
                   = Some (auroraEvmAccount env)) by exact Haccount.
  pose proof (test_hex40_length hex Htest) as Hlen.
  destruct (checkSync_inv env _ t' Hsync)
    as (r & syncedTo & Hlast & Hheight & Hshape).
  injection Hlast as <-.
  exists receipt, events, lockedEvent, hex, syncedTo.
  split; [reflexivity|]. split; [exact Hevents|]. split; [exact Hfind|].
  split; [exact Hheight|]. split; [exact Hhash|].
  split; [exact (split_on_two _ _ _ _ Hfirst Hhex)|].
  split; [exact Htest|].
  destruct Hshape as [[-> _] | [-> _]]; simpl;
    change (String.length ("" +:+ hex)) with (String.length hex);
    rewrite Hlen; repeat split; try lia; auto.
Qed.

(** The recovery of the lock [0xabc], 19 confirmations in. *)
Lemma recover_record_scenario :
  exists t',
    recover (Scenario.E.synced 119 false) "0xabc" = Ok t'
    /\ recipient t' = "0x" +:+ Scenario.recipient_hex
    /\ completedStep t' = Some LOCK
    /\ completedConfirmations t' = 19.
Proof.
  destruct (recover (Scenario.E.synced 119 false) "0xabc")
    as [t'|] eqn:Hrun; [|vm_compute in Hrun; discriminate Hrun].
  destruct (recover_record _ _ _ Hrun)
    as (receipt & events & lockedEvent & hex & syncedTo & _).
  exists t'. split; [reflexivity|].
  vm_compute in Hrun. injection Hrun as <-. by repeat split.
Defined.

(** *** The texts shown for a transfer *)

(** X10: [statusMessage] throws on a state it does not expect, but never on a
    record [act] or [checkStatus] returned, whatever the record they were
    given; and such a record never offers the [Deposit] action. *)
Theorem statusMessage_defined (rt : Runtime) (op : Op) (env : Env)
    (t t' : Transfer) :
  call op env t = Ok t' ->
  (exists text, statusMessage rt t' = Ok text)
  /\ callToAction t' <> Some "Deposit".
Proof.
  intros Hcall. pose proof (call_transition op env t t' Hcall) as Hmove.
  unfold statusMessage, callToAction.
  destruct Hmove; simpl;
    try match goal with
      | Hstep : completedStep t = _ |- _ => rewrite Hstep
      end;
    try (destruct (status t)); simpl; split; eauto; discriminate.
Qed.

Lemma statusMessage_defined_scenario :
  exists t',
    checkStatus (Scenario.E.synced 119 false) Scenario.E.locked = Ok t'
    /\ statusMessage statuses t' = Ok "Confirming transfer 20 of 20".
Proof.
  destruct (checkStatus (Scenario.E.synced 119 false) Scenario.E.locked)
    as [t'|] eqn:Hrun; [|vm_compute in Hrun; discriminate Hrun].
  destruct (statusMessage_defined statuses CheckStatus _ _ _ Hrun)
    as [[text Htext] _].
  exists t'. split; [reflexivity|].
  vm_compute in Hrun. injection Hrun as <-. reflexivity.
Defined.

(** And it does throw on a record that needs an action at [LOCK]. *)
Lemma statusMessage_unexpected (rt : Runtime) :
  statusMessage rt (with_status ACTION_NEEDED Scenario.E.locked)
  = Throw (unexpected_state rt (with_status ACTION_NEEDED Scenario.E.locked)).
Proof. reflexivity. Qed.

(** *** initiate *)

(** X11: [initiate] locks a record drawn from the draft and hands the result to
    [track]: a record in progress at no step, with the one hash it
    broadcast, no receipt and no error, sender and recipient both the
    selected address of the wallet, and the cache for the replacement
    search; when the lock is rejected nothing is tracked. *)
Theorem initiate_tracks_locked (env : Env) (client : Client) (amount : string)
    (token : Token) :
  match lock env (draftOf client amount token) with
  | Throw e => initiate env client amount token = Throw e
  | Ok locked =>
      initiate env client amount token = track client locked
      /\ (exists lockHash, lockHashes locked = [lockHash])
      /\ lockReceipts locked = []
      /\ errors locked = []
      /\ status locked = IN_PROGRESS
      /\ completedStep locked = None
      /\ sender locked = selectedAddress client
      /\ recipient locked = selectedAddress client
      /\ destinationTokenName locked = "a" +:+ token_symbol token
      /\ neededConfirmations locked = 20
      /\ is_Some (ethCache locked)
      /\ forall rt, statusMessage rt locked = Ok "Approving transfer"
  end.
Proof.
  unfold initiate.
  destruct (lock env (draftOf client amount token)) as [locked|e] eqn:Hlock;
    [|reflexivity].
  split; [reflexivity|].
  destruct (lock_inv _ _ _ Hlock)
    as (network & lockHash & height & tx & _ & _ & _ & _ & _ & ->).
  simpl. repeat split; eauto.
Qed.

End EtherFurther.

(** ** Further properties of the NEP-141 variant *)
Section Nep141Further.
Import Nep141 Nep141Client.
Context {U : Type} `{UrlParams U}.

Ltac step_io Hrun :=
  repeat match type of Hrun with
    | context [match ?r with Ok _ => _ | Throw _ => _ end] =>
        destruct r eqn:?; cbn in Hrun
    | context [if hasWindow ?env then _ else _] =>
        destruct (hasWindow env) eqn:?; cbn in Hrun
    end.

(** X12: [checkLock] clears the parameters of the redirect only together with a
    settled record, failed or complete: when it rejects (the RPC node does
    not answer) and when it has the caller wait, the page URL is as it
    was, so the next poll finds the parameters again. *)
Theorem checkLock_clears_when_settled (env : Env) (t : Transfer)
    (options : Options) (url url' : U) (outcome : Res Transfer) :
  checkLock env t options url = (outcome, url') ->
  url' = url
  \/ (url' = url_clear clearParams url
      /\ exists t',
           outcome = Ok t'
           /\ (status t' = FAILED \/ status t' = COMPLETE)).
Proof.
  unfold checkLock. intros Hrun.
  destruct (hasWindow env); simpl in Hrun; [|simplify_eq; by left].
  destruct (truthy (url_get "locking" url)); simpl in Hrun;
    [|simplify_eq; by left].
  case_bool_decide; [simplify_eq; by left|].
  destruct (truthy (url_get "errorCode" url)); simpl in Hrun;
    [simplify_eq; right; split; [done|]; eexists; split; [done|]; by left|].
  destruct (url_get "transactionHashes" url) as [txHash|];
    [|simplify_eq; by left].
  case_bool_decide; [simplify_eq; by left|].
  unfold mbind, lift, ret, update in Hrun.
  step_io Hrun; simplify_eq;
    first [by left | right; split; [done|]; eexists; split; [done|]; by right].
Qed.

(** Outside a browser [checkLock] is rejected before it reads anything of
    the record or of the chain, and the URL is as it was. *)
Lemma checkLock_needs_window (env : Env) (t : Transfer) (options : Options)
    (url : U) :
  hasWindow env = false ->
  checkLock env t options url = (Throw window_undefined, url).
Proof. intros Hwindow. unfold checkLock. by rewrite Hwindow. Qed.


(** What [lock] and [lockNear] do to the page URL: nothing outside a
    browser; in a browser they set [locking] to the [id] of the transfer
    once the account is at hand, whether they then succeed or not. *)
Lemma lock_url (env : Env) (t : Transfer) (options : Options) (url url' : U)
    (outcome : Res Transfer) :
  lock env t options url = (outcome, url') ->
  (hasWindow env = true /\ url' = url_set "locking" (id t) url)
  \/ (url' = url
      /\ (hasWindow env = false \/ exists e, outcome = Throw e)).
Proof.
  intros Hrun. unfold lock, mbind, lift, ret, update in Hrun.
  step_io Hrun; simplify_eq; eauto 6.
Qed.

Lemma lockNear_url (env : Env) (t : Transfer) (options : Options)
    (url url' : U) (outcome : Res Transfer) :
  lockNear env t options url = (outcome, url') ->
  (hasWindow env = true /\ url' = url_set "locking" (id t) url)
  \/ (url' = url
      /\ (hasWindow env = false \/ exists e, outcome = Throw e)).
Proof.
  intros Hrun. unfold lockNear, mbind, lift, ret, update in Hrun.
  step_io Hrun; simplify_eq; eauto 6.
Qed.

Lemma act_url (env : Env) (t : Transfer) (url url' : U)
    (outcome : Res Transfer) :
  completedStep t = None ->
  hasWindow env = true ->
  act env t url = (outcome, url') ->
  match outcome with
  | Ok _ => url' = url_set "locking" (id t) url
  | Throw _ =>
      url' = url_clear ["locking"] url
      \/ url' = url_clear ["locking"] (url_set "locking" (id t) url)
  end.
Proof.
  intros Hstep Hwindow. unfold act. rewrite Hstep, Hwindow.
  case_bool_decide.
  - destruct (lockNear env t no_options url) as [[locked|e] url1] eqn:Hlock;
      intros [= <- <-];
      destruct (lockNear_url _ _ _ _ _ _ Hlock)
        as [[_ ->] | [-> [Hno | [e' He']]]]; try done; auto; congruence.
  - destruct (lock env t no_options url) as [[locked|e] url1] eqn:Hlock;
      intros [= <- <-];
      destruct (lock_url _ _ _ _ _ _ Hlock)
        as [[_ ->] | [-> [Hno | [e' He']]]]; try done; auto; congruence.
Qed.

(** The records [checkStatus] fails. *)
Lemma checkStatus_failed (env : Env) (t t' : Transfer) (url url' : U) :
  checkStatus env t url = (Ok t', url') ->
  status t <> FAILED ->
  status t' = FAILED ->
  exists reason, errors t' = [reason].
Proof.
  unfold checkStatus. destruct (completedStep t); [discriminate|].
  intros Hrun Hbefore Hafter.
  destruct (checkLock_inv _ _ _ _ _ _ Hrun)
    as [-> | [[reason ->] | (txHash & startTime & ->)]]; simpl in *;
    [done | eauto | discriminate].
Qed.

(** X14: After a poll that failed a transfer, [statusMessage] shows the reason
    of that failure, the one entry of [errors], and never [undefined]; the
    action offered is [Retry]. *)
Theorem failed_poll_shows_reason (rt : Runtime) (env : Env) (t t' : Transfer)
    (url url' : U) :
  status_text rt FAILED = "failed" ->
  checkStatus env t url = (Ok t', url') ->
  status t <> FAILED ->
  status t' = FAILED ->
  exists reason,
    errors t' = [reason]
    /\ statusMessage rt t' = Some reason
    /\ callToAction t' = Some "Retry".
Proof.
  intros Htext Hrun Hbefore Hafter.
  destruct (checkStatus_failed env t t' url url' Hrun Hbefore Hafter)
    as [reason Herrors].
  exists reason. split; [exact Herrors|].
  unfold statusMessage, callToAction. rewrite Hafter, Htext, Herrors.
  by split.
Qed.

End Nep141Further.

(** ** The NEP-141 variant on a page URL *)
Section Nep141OnPage.
Import Nep141 Nep141Client.

Lemma checkLock_clears_when_settled_scenario :
  (checkLock WorldsN.offline Scenario.N.retried no_options WorldsN.redirected).2
  = WorldsN.redirected.
Proof.
  destruct (checkLock WorldsN.offline Scenario.N.retried no_options
              WorldsN.redirected) as [outcome url'] eqn:Hrun.
  destruct (checkLock_clears_when_settled _ _ _ _ _ _ Hrun)
    as [-> | (_ & t' & -> & _)]; [reflexivity|].
  vm_compute in Hrun. discriminate Hrun.
Defined.


(** The wallet reported that the user rejected the transaction. *)
Lemma failed_poll_shows_reason_scenario :
  exists t' url',
    checkStatus (Scenario.N.world WorldsN.draws) Scenario.N.retried
      (<["errorCode" := "userRejected"]> WorldsN.redirected) = (Ok t', url')
    /\ statusMessage statuses t' = Some "Failed: userRejected".
Proof.
  destruct (checkStatus (Scenario.N.world WorldsN.draws) Scenario.N.retried
              (<["errorCode" := "userRejected"]> WorldsN.redirected))
    as [[t'|] url'] eqn:Hrun; [|vm_compute in Hrun; discriminate Hrun].
  destruct (failed_poll_shows_reason statuses _ _ _ _ _ eq_refl Hrun)
    as (reason & Herrors & Hmessage & _).
  - discriminate.
  - vm_compute in Hrun. by injection Hrun as <- _.
  - exists t', url'. split; [reflexivity|]. rewrite Hmessage. f_equal.
    vm_compute in Hrun. injection Hrun as <- _.
    by injection Herrors as <-.
Defined.

(** X15: In a browser [act] on a transfer at no step leaves the [locking]
    parameter set to the [id] of the transfer exactly when the lock went
    through, and removed when it was rejected; the other parameters of the
    page are untouched. *)
Theorem act_marks_page (env : Env) (t : Transfer)
    (url url' : gmap string string) (outcome : Res Transfer) :
  completedStep t = None ->
  hasWindow env = true ->
  act env t url = (outcome, url') ->
  url' !! "locking"
  = match outcome with Ok _ => Some (id t) | Throw _ => None end
  /\ forall name, name <> "locking" -> url' !! name = url !! name.
Proof.
  intros Hstep Hwindow Hrun.
  pose proof (act_url env t url url' outcome Hstep Hwindow Hrun) as Hurl.
  destruct outcome as [locked|e].
  - subst url'. simpl. split; [by rewrite lookup_insert_eq|].
    intros name Hname. by rewrite lookup_insert_ne.
  - destruct Hurl as [-> | ->]; simpl; split;
      try (by rewrite lookup_delete_eq);
      intros name Hname; rewrite lookup_delete_ne by done;
      try done; by rewrite lookup_insert_ne.
Qed.

Lemma act_marks_page_scenario :
  exists e url',
    act (WorldsN.sending true (Throw (mkExn GenericError "rejected")))
      Scenario.N.retried WorldsN.redirected = (Throw e, url')
    /\ url' !! "locking" = None
    /\ url' !! "transactionHashes" = Some "hash1".
Proof.
  destruct (act (WorldsN.sending true (Throw (mkExn GenericError "rejected")))
              Scenario.N.retried WorldsN.redirected)
    as [[locked|e] url'] eqn:Hrun; [vm_compute in Hrun; discriminate Hrun|].
  destruct (act_marks_page
              (WorldsN.sending true (Throw (mkExn GenericError "rejected")))
              Scenario.N.retried WorldsN.redirected url' (Throw e)
              eq_refl eq_refl Hrun) as [Hlocking Hrest].
  exists e, url'. split; [reflexivity|]. split; [exact Hlocking|].
  rewrite Hrest by discriminate. reflexivity.
Defined.

(** X16: The lock and the redirect compose: after [act] went through in a
    browser and the wallet came back with the hash of the signed
    transaction, the poll, in a browser as well, finds the [id] it left in
    the URL, completes the transfer at [LOCK], appends the hash of the
    wallet to the hash of the lock, and leaves none of the four parameters
    of the redirect. *)
Theorem act_then_redirect (env later : Env) (t locked : Transfer)
    (url url1 : gmap string string) (txHash decoded : string)
    (withdrawTx : TxOutcome) (timestamp : Z) (account : Account) :
  completedStep t = None ->
  hasWindow env = true ->
  id t <> EmptyString ->
  txHash <> EmptyString ->
  id locked = id t ->
  completedStep locked = None ->
  act env t url = (Ok locked, url1) ->
  hasWindow later = true ->
  getNearAccount later = Ok account ->
  base_decode later txHash = Ok decoded ->
  txStatus later decoded (sender locked) = Ok withdrawTx ->
  block later (block_hash withdrawTx) = Ok timestamp ->
  exists (done : Transfer) (url2 : gmap string string),
    checkStatus later locked
      (<["transactionHashes" := txHash]> (delete "errorCode" url1))
    = (Ok done, url2)
    /\ status done = COMPLETE
    /\ completedStep done = Some LOCK
    /\ lockHashes done = lockHashes locked ++ [txHash]
    /\ startTime done = nanosToISOString later timestamp
    /\ errors done = errors locked
    /\ forall name, In name clearParams -> url2 !! name = None.
Proof.
  intros Hstep Hwindow Hid Hhash Hsame Hfresh Hact Hpage Hacc Hdecode Hstatus
    Hblock.
  assert (Hlocking : url1 !! "locking" = Some (id t)).
  { pose proof (act_url env t url url1 (Ok locked) Hstep Hwindow Hact) as ->.
    simpl. by rewrite lookup_insert_eq. }
  unfold checkStatus. rewrite Hfresh. unfold checkLock. rewrite Hpage. simpl.
  rewrite lookup_insert_ne by done. rewrite lookup_delete_ne by done.
  rewrite Hlocking. simpl.
  rewrite bool_decide_eq_false_2 by done. simpl.
  rewrite bool_decide_eq_false_2 by (rewrite Hsame; by intros Hne).
  rewrite lookup_insert_ne by done. rewrite lookup_delete_eq. simpl.
  rewrite lookup_insert_eq.
  rewrite bool_decide_eq_false_2 by done.
  unfold mbind, lift, ret, update, nearAccountOf. simpl.
  rewrite Hacc, Hdecode, Hstatus, Hblock.
  eexists _, _. split; [reflexivity|]. simpl. repeat split.
  intros name Hname. simpl in Hname.
  destruct Hname as [<- | [<- | [<- | [<- | []]]]];
    repeat first [rewrite lookup_delete_eq; reflexivity
                 | rewrite lookup_delete_ne by done].
Qed.

Lemma act_then_redirect_scenario :
  exists locked url1 done url2,
    act (Scenario.N.world WorldsN.draws) Scenario.N.retried ∅
    = (Ok locked, url1)
    /\ checkStatus (Scenario.N.world WorldsN.draws) locked
         (<["transactionHashes" := "hash1"]> (delete "errorCode" url1))
       = (Ok done, url2)
    /\ lockHashes done = ["hash1"; "hash1"]
    /\ url2 !! "locking" = None.
Proof.
  destruct (act (Scenario.N.world WorldsN.draws) Scenario.N.retried ∅)
    as [[locked|e] url1] eqn:Hact; [|vm_compute in Hact; discriminate Hact].
  assert (Hlocked : locked
                    = with_lockHashes ["hash1"]
                        (with_status IN_PROGRESS Scenario.N.retried)).
  { vm_compute in Hact. by injection Hact as <- _. }
  destruct (act_then_redirect (Scenario.N.world WorldsN.draws)
              (Scenario.N.world WorldsN.draws) Scenario.N.retried locked ∅ url1
              "hash1" "hash1" (mkTxOutcome (Some "IjEwMDAi") "block1")
              1622505600000000000 (mkAccount "alice.near"))
    as (done & url2 & Hpoll & _ & _ & Hhashes & _ & _ & Hcleared);
    try reflexivity; try discriminate; try (by subst locked); try exact Hact.
  exists locked, url1, done, url2. split; [reflexivity|].
  split; [exact Hpoll|]. split.
  - rewrite Hhashes. by subst locked.
  - apply Hcleared. by left.
Defined.

End Nep141OnPage.

(** ** Further properties of discovery and recovery, NEP-141 variant *)
Section Nep141Discovery.
Import Nep141 Nep141Client.

Lemma test_lower_hex40_length (s : string) :
  test_lower_hex40 s = true -> String.length s = 40%nat.
Proof.
  unfold test_lower_hex40. intros Htest. apply andb_prop in Htest as [Hlen _].
  by apply Nat.eqb_eq.
Qed.

(** The stages [findAllTransfers] went through when it returns. *)
Lemma findAllTransfers_stages (env : Env) (fromBlock toBlock sender
    nep141Address : string) (callIndexer : string -> Res (list IndexedTx))
    (options : Options) (transfers : list Transfer) :
  findAllTransfers env fromBlock toBlock sender nep141Address callIndexer
    options = Ok transfers ->
  exists (rows : list IndexedTx) (regex_test : string -> bool)
         (metadata : Metadata) (outcomes : list (option Transfer)),
    let auroraEvmAccount :=
      default (bridge_auroraEvmAccount env) (opt_auroraEvmAccount options) in
    callIndexer (buildIndexerTxQuery env fromBlock toBlock sender nep141Address)
      = Ok rows
    /\ (nep141Address <> auroraEvmAccount -> regex_test = test_lower_hex40)
    /\ resolveMetadata env nep141Address auroraEvmAccount options = Ok metadata
    /\ promiseAll
         (transferOfCandidate env sender nep141Address auroraEvmAccount
            (default (meta_symbol metadata) (opt_symbol options))
            (default (meta_decimals metadata) (opt_decimals options)) metadata)
         0%nat (candidates auroraEvmAccount regex_test rows) = Ok outcomes
    /\ transfers = dropNulls outcomes.
Proof.
  unfold findAllTransfers.
  destruct (nearAccountOf env options) as [account|]; [|discriminate].
  cbn [bind].
  destruct (callIndexer _) as [rows|]; [|discriminate]. cbn [bind].
  set (auroraEvmAccount :=
         default (bridge_auroraEvmAccount env) (opt_auroraEvmAccount options)).
  case_bool_decide as Hneth.
  - destruct (newRegExp env _) as [regex_test|]; [|discriminate]. cbn [bind].
    destruct (resolveMetadata env _ _ options) as [metadata|] eqn:Hmeta;
      [|discriminate]. cbn [bind].
    destruct (promiseAll _ _ _) as [outcomes|] eqn:Hall; [|discriminate].
    cbn [bind]. intros [= <-].
    exists rows, regex_test, metadata, outcomes. by repeat split.
  - cbn [bind].
    destruct (resolveMetadata env _ _ options) as [metadata|] eqn:Hmeta;
      [|discriminate]. cbn [bind].
    destruct (promiseAll _ _ _) as [outcomes|] eqn:Hall; [|discriminate].
    cbn [bind]. intros [= <-].
    exists rows, test_lower_hex40, metadata, outcomes. by repeat split.
Qed.

Lemma candidates_elem (auroraEvmAccount : string) (regex_test : string -> bool)
    (rows : list IndexedTx) (tx : IndexedTx) :
  In tx (candidates auroraEvmAccount regex_test rows) <->
  In tx rows
  /\ method_name tx = "ft_transfer_call"
  /\ args_receiver_id tx = auroraEvmAccount
  /\ regex_test (args_msg tx) = true.
Proof.
  unfold candidates. rewrite !filter_In, andb_true_iff, !bool_decide_eq_true.
  tauto.
Qed.

(** The record the callback builds for a candidate it keeps. *)
Lemma transferOfCandidate_record (env : Env) (sender nep141Address
    auroraEvmAccount symbol : string) (decimals : Z) (metadata : Metadata)
    (n : nat) (tx : IndexedTx) (t : Transfer) :
  transferOfCandidate env sender nep141Address auroraEvmAccount symbol
    decimals metadata n tx = Ok (Some t) ->
  type t = TRANSFER_TYPE
  /\ Nep141.sender t = sender
  /\ sourceToken t = nep141Address
  /\ Nep141.symbol t = symbol
  /\ Nep141.decimals t = decimals
  /\ sourceTokenName t = meta_symbol metadata
  /\ destinationTokenName t = "a" +:+ meta_symbol metadata
  /\ amount t = args_amount tx
  /\ lockHashes t = [originated_from_transaction_hash tx]
  /\ recipient t
     = (if bool_decide (nep141Address = auroraEvmAccount)
        then "0x" +:+ slice_last40 (args_msg tx)
        else "0x" +:+ args_msg tx)
  /\ status t = COMPLETE
  /\ completedStep t = Some LOCK
  /\ errors t = [].
Proof.
  unfold transferOfCandidate.
  destruct (txStatus env _ sender) as [lockTx|]; [|discriminate]. cbn [bind].
  destruct (block env _) as [timestamp|]; [|discriminate]. cbn [bind].
  case_bool_decide; [discriminate|]. intros [= <-]. by repeat split.
Qed.

(** X17: Every transfer [findAllTransfers] returns for a token other than nETH
    comes from a row of the indexer that calls [ft_transfer_call] with the
    Aurora engine as receiver and 40 lower-case hexadecimal digits as
    message; its recipient is [0x] and those digits, its sender and token
    are the ones asked for, and it is complete at [LOCK], so that [act] and
    [checkStatus] reject it. *)
Theorem discovered_transfers (env : Env) (fromBlock toBlock sender
    nep141Address : string) (callIndexer : string -> Res (list IndexedTx))
    (options : Options) (transfers : list Transfer) (t : Transfer) :
  findAllTransfers env fromBlock toBlock sender nep141Address callIndexer
    options = Ok transfers ->
  nep141Address
  <> default (bridge_auroraEvmAccount env) (opt_auroraEvmAccount options) ->
  In t transfers ->
  exists (rows : list IndexedTx) (tx : IndexedTx),
    callIndexer (buildIndexerTxQuery env fromBlock toBlock sender nep141Address)
      = Ok rows
    /\ In tx rows
    /\ method_name tx = "ft_transfer_call"
    /\ args_receiver_id tx
       = default (bridge_auroraEvmAccount env) (opt_auroraEvmAccount options)
    /\ test_lower_hex40 (args_msg tx) = true
    /\ recipient t = "0x" +:+ args_msg tx
    /\ String.length (recipient t) = 42%nat
    /\ Nep141.sender t = sender
    /\ sourceToken t = nep141Address
    /\ lockHashes t = [originated_from_transaction_hash tx]
    /\ status t = COMPLETE
    /\ completedStep t = Some LOCK
    /\ forall (U : Type) (P : UrlParams U) (later : Env) (url : U),
         (exists e, act later t url = (Throw e, url))
         /\ (exists e, checkStatus later t url = (Throw e, url)).
Proof.
  intros Hrun Htoken Hin.
  destruct (findAllTransfers_stages _ _ _ _ _ _ _ _ Hrun)
    as (rows & regex_test & metadata & outcomes & Hrows & Hregex & _ & Hall & ->).
  cbn zeta in *. rewrite (Hregex Htoken) in Hall.
  destruct (dropNulls_elem _ _ Hin) as [i Hi].
  assert (Hlt : (i < length (candidates
                     (default (bridge_auroraEvmAccount env)
                        (opt_auroraEvmAccount options))
                     test_lower_hex40 rows))%nat).
  { erewrite <- promiseAll_length by exact Hall.
    apply lookup_lt_is_Some. eauto. }
  destruct (lookup_lt_is_Some_2 _ i Hlt) as [tx Htx].
  destruct (promiseAll_lookup _ _ _ _ _ _ Hall Htx) as (outcome & Hout & Hlook).
  assert (outcome = Some t) as -> by congruence.
  destruct (transferOfCandidate_record _ _ _ _ _ _ _ _ _ _ Hout)
    as (_ & Hsender & Htok & _ & _ & _ & _ & _ & Hhash & Hrecipient & Hstatus
        & Hstep & _).
  rewrite bool_decide_eq_false_2 in Hrecipient by done.
  assert (Hcand : In tx (candidates
                    (default (bridge_auroraEvmAccount env)
                       (opt_auroraEvmAccount options))
                    test_lower_hex40 rows)).
  { apply list_elem_of_In, list_elem_of_lookup. eauto. }
  apply candidates_elem in Hcand as (Hrow & Hmethod & Hreceiver & Hmsg).
  exists rows, tx. repeat split; try done.
  - rewrite Hrecipient.
    change (String.length ("0x" +:+ args_msg tx))
      with (S (S (String.length (args_msg tx)))).
    by rewrite (test_lower_hex40_length _ Hmsg).
  - unfold act. rewrite Hstep. eauto.
  - unfold checkStatus. rewrite Hstep. eauto.
Qed.

Lemma discovered_transfers_scenario :
  exists t,
    findAllTransfers (Scenario.N.world WorldsN.draws) "0" "latest"
      "alice.near" "token.near" Scenario.N.indexer no_options = Ok [t]
    /\ recipient t = "0x" +:+ Scenario.recipient_hex
    /\ String.length (recipient t) = 42%nat.
Proof.
  destruct (findAllTransfers (Scenario.N.world WorldsN.draws) "0" "latest"
              "alice.near" "token.near" Scenario.N.indexer no_options)
    as [transfers|] eqn:Hrun; [|vm_compute in Hrun; discriminate Hrun].
  assert (Hone : exists t, transfers = [t]).
  { vm_compute in Hrun. injection Hrun as <-. eauto. }
  destruct Hone as [t ->]. exists t. split; [reflexivity|].
  destruct (discovered_transfers _ _ _ _ _ _ _ _ t Hrun)
    as (rows & tx & _ & _ & _ & _ & _ & Hrecipient & Hlength & _);
    [vm_compute; discriminate | by left |].
  split; [|exact Hlength].
  vm_compute in Hrun. by injection Hrun as <-.
Defined.

Lemma kept_in_order (f : nat -> IndexedTx -> Res (option Transfer)) (n : nat)
    (found : list IndexedTx) (outcomes : list (option Transfer)) :
  (forall i tx t, f i tx = Ok (Some t) ->
                  lockHashes t = [originated_from_transaction_hash tx]) ->
  promiseAll f n found = Ok outcomes ->
  sublist (lockHashes <$> dropNulls outcomes)
    ((fun tx => [originated_from_transaction_hash tx]) <$> found).
Proof.
  intros Hhash. revert n outcomes.
  induction found as [|tx rest IH]; intros n outcomes; simpl.
  - intros [= <-]. constructor.
  - destruct (f n tx) as [outcome|] eqn:Hout; [|discriminate]. cbn [bind].
    destruct (promiseAll f (S n) rest) as [others|] eqn:Hrest; [|discriminate].
    cbn [bind]. intros [= <-]. specialize (IH _ _ Hrest).
    destruct outcome as [t|]; simpl.
    + rewrite (Hhash _ _ _ Hout). by constructor.
    + by constructor.
Qed.

Lemma candidates_in_order (auroraEvmAccount : string)
    (regex_test : string -> bool) (rows : list IndexedTx) :
  sublist (candidates auroraEvmAccount regex_test rows) rows.
Proof.
  unfold candidates.
  assert (Hfilter : forall (p : IndexedTx -> bool) l,
             sublist (List.filter p l) l).
  { intros p l. induction l as [|x l IH]; simpl; [constructor|].
    destruct (p x); by constructor. }
  etransitivity; apply Hfilter.
Qed.

(** X18: The transfers [findAllTransfers] returns are in the order of the rows
    of the indexer: their lock hashes are a subsequence of the transaction
    hashes of the rows, so there are never more transfers than rows and a
    fresh query gives them in the same order. *)
Theorem discovery_keeps_order (env : Env) (fromBlock toBlock sender
    nep141Address : string) (callIndexer : string -> Res (list IndexedTx))
    (options : Options) (transfers : list Transfer) :
  findAllTransfers env fromBlock toBlock sender nep141Address callIndexer
    options = Ok transfers ->
  exists rows : list IndexedTx,
    callIndexer (buildIndexerTxQuery env fromBlock toBlock sender nep141Address)
      = Ok rows
    /\ sublist (lockHashes <$> transfers)
         ((fun tx => [originated_from_transaction_hash tx]) <$> rows)
    /\ (length transfers <= length rows)%nat.
Proof.
  intros Hrun.
  destruct (findAllTransfers_stages _ _ _ _ _ _ _ _ Hrun)
    as (rows & regex_test & metadata & outcomes & Hrows & _ & _ & Hall & ->).
  cbn zeta in *.
  assert (Hsub : sublist (lockHashes <$> dropNulls outcomes)
                   ((fun tx => [originated_from_transaction_hash tx]) <$> rows)).
  { etransitivity.
    - eapply kept_in_order; [|exact Hall].
      intros i tx t Hout.
      by destruct (transferOfCandidate_record _ _ _ _ _ _ _ _ _ _ Hout)
        as (_ & _ & _ & _ & _ & _ & _ & _ & Hhash & _).
    - apply fmap_sublist, candidates_in_order. }
  exists rows. split; [exact Hrows|]. split; [exact Hsub|].
  apply sublist_length in Hsub. by rewrite !length_fmap in Hsub.
Qed.

Lemma discovery_keeps_order_scenario :
  exists transfers,
    findAllTransfers (Scenario.N.world WorldsN.draws) "0" "latest"
      "alice.near" "token.near" Scenario.N.indexer no_options = Ok transfers
    /\ sublist (lockHashes <$> transfers) [["hash1"]; ["hash2"]].
Proof.
  destruct (findAllTransfers (Scenario.N.world WorldsN.draws) "0" "latest"
              "alice.near" "token.near" Scenario.N.indexer no_options)
    as [transfers|] eqn:Hrun; [|vm_compute in Hrun; discriminate Hrun].
  destruct (discovery_keeps_order _ _ _ _ _ _ _ _ Hrun)
    as (rows & Hrows & Hsub & _).
  exists transfers. split; [reflexivity|].
  injection Hrows as <-. exact Hsub.
Defined.

Lemma promiseAll_rejects {A B : Type} (f : nat -> A -> Res B) (n : nat)
    (xs : list A) (i : nat) (x : A) (e : Exn) :
  xs !! i = Some x -> f (n + i)%nat x = Throw e ->
  exists e', promiseAll f n xs = Throw e'.
Proof.
  revert n i. induction xs as [|x0 rest IH]; intros n i; simpl.
  - intros Hnone. by rewrite lookup_nil in Hnone.
  - destruct i as [|i]; simpl.
    + intros [= <-]. rewrite Nat.add_0_r. intros ->. eauto.
    + intros Hx Hfail. destruct (f n x0) as [y0|e0]; [|eauto]. cbn [bind].
      destruct (IH (S n) i Hx) as [e' ->]; [|eauto].
      by replace (S n + i)%nat with (n + S i)%nat by lia.
Qed.

(** X19: Discovery has no partial result: when the status lookup of one
    candidate row is rejected, of a row it would keep or of one it would
    drop, [findAllTransfers] is rejected as a whole. *)
Theorem discovery_all_or_nothing (env : Env) (fromBlock toBlock sender
    nep141Address : string) (callIndexer : string -> Res (list IndexedTx))
    (options : Options) (rows : list IndexedTx) (tx : IndexedTx) (e : Exn) :
  nep141Address
  <> default (bridge_auroraEvmAccount env) (opt_auroraEvmAccount options) ->
  callIndexer (buildIndexerTxQuery env fromBlock toBlock sender nep141Address)
    = Ok rows ->
  In tx rows ->
  method_name tx = "ft_transfer_call" ->
  args_receiver_id tx
  = default (bridge_auroraEvmAccount env) (opt_auroraEvmAccount options) ->
  test_lower_hex40 (args_msg tx) = true ->
  txStatus env (originated_from_transaction_hash tx) sender = Throw e ->
  exists e',
    findAllTransfers env fromBlock toBlock sender nep141Address callIndexer
      options = Throw e'.
Proof.
  intros Htoken Hrows Hin Hmethod Hreceiver Hmsg Hfail.
  unfold findAllTransfers.
  destruct (nearAccountOf env options) as [account|]; [|eauto]. cbn [bind].
  rewrite Hrows. cbn [bind].
  rewrite bool_decide_eq_false_2 by done. cbn [bind].
  destruct (resolveMetadata env _ _ options) as [metadata|]; [|eauto].
  cbn [bind].
  assert (Hcand : In tx (candidates
                    (default (bridge_auroraEvmAccount env)
                       (opt_auroraEvmAccount options))
                    test_lower_hex40 rows)) by by apply candidates_elem.
  apply list_elem_of_In, list_elem_of_lookup in Hcand as [i Hi].
  edestruct (promiseAll_rejects
               (transferOfCandidate env sender nep141Address
                  (default (bridge_auroraEvmAccount env)
                     (opt_auroraEvmAccount options))
                  (default (meta_symbol metadata) (opt_symbol options))
                  (default (meta_decimals metadata) (opt_decimals options))
                  metadata) 0%nat _ i tx e Hi) as [e' ->]; [|eauto].
  unfold transferOfCandidate. by rewrite Hfail.
Qed.

Lemma discovery_all_or_nothing_scenario :
  exists e',
    findAllTransfers WorldsN.offline "0" "latest" "alice.near" "token.near"
      Scenario.N.indexer no_options = Throw e'.
Proof.
  apply (discovery_all_or_nothing WorldsN.offline "0" "latest" "alice.near"
           "token.near" Scenario.N.indexer no_options
           [Scenario.N.row_paid; Scenario.N.row_reverted]
           Scenario.N.row_reverted (mkExn GenericError "unavailable"));
    try reflexivity; [vm_compute; discriminate | right; by left].
Defined.

(** X20: A candidate whose transaction has no success value, a reverted call,
    is read as the outcome ['0']: it is dropped unless its row carries the
    amount ['0'], and then it comes back as a complete transfer of that
    amount. *)
Theorem reverted_call_kept_iff_zero (env : Env) (sender nep141Address
    auroraEvmAccount symbol : string) (decimals : Z) (metadata : Metadata)
    (n : nat) (tx : IndexedTx) (lockTx : TxOutcome) (timestamp : Z) :
  txStatus env (originated_from_transaction_hash tx) sender = Ok lockTx ->
  SuccessValue lockTx = None ->
  block env (block_hash lockTx) = Ok timestamp ->
  (args_amount tx <> "0" ->
   transferOfCandidate env sender nep141Address auroraEvmAccount symbol
     decimals metadata n tx = Ok None)
  /\ (args_amount tx = "0" ->
      exists t,
        transferOfCandidate env sender nep141Address auroraEvmAccount symbol
          decimals metadata n tx = Ok (Some t)
        /\ status t = COMPLETE
        /\ amount t = "0"
        /\ lockHashes t = [originated_from_transaction_hash tx]).
Proof.
  intros Hstatus Hnone Hblock. unfold transferOfCandidate.
  rewrite Hstatus. cbn [bind]. rewrite Hblock. cbn [bind].
  rewrite (successValueOf_failed env lockTx Hnone). split.
  - intros Hne. by rewrite bool_decide_eq_true_2.
  - intros Hzero. rewrite bool_decide_eq_false_2 by (by intros Hne).
    eexists. split; [reflexivity|]. by rewrite Hzero.
Qed.

Lemma reverted_call_kept_iff_zero_scenario :
  exists t,
    transferOfCandidate (Scenario.N.world WorldsN.draws) "alice.near"
      "token.near" "aurora" "TKN" 6 (mkMetadata "TKN" 6) 0%nat WorldsN.row_zero
    = Ok (Some t)
    /\ status t = COMPLETE.
Proof.
  destruct (proj2 (reverted_call_kept_iff_zero (Scenario.N.world WorldsN.draws)
                     "alice.near" "token.near" "aurora" "TKN" 6
                     (mkMetadata "TKN" 6) 0%nat WorldsN.row_zero
                     (mkTxOutcome None "block2") 1622505600000000000
                     eq_refl eq_refl eq_refl) eq_refl)
    as (t & Hrun & Hstatus & _).
  by exists t.
Defined.

(** C7: [findAllTransfers] returns a reverted call.  The indexer reports one
    [ft_transfer_call] of amount ['0'] to the engine; its transaction has no
    success value, so there is no outcome that equals the amount.  The code
    reads the missing value as ['0'], finds it equal to the amount, and
    returns the call as a [COMPLETE] transfer without errors instead of
    leaving it out. *)
Theorem reverted_zero_call_returned :
  exists (lockTx : TxOutcome) (t : Transfer),
    txStatus (Scenario.N.world WorldsN.draws)
      (originated_from_transaction_hash WorldsN.row_zero) "alice.near"
    = Ok lockTx
    /\ SuccessValue lockTx = None
    /\ args_amount WorldsN.row_zero = "0"
    /\ findAllTransfers (Scenario.N.world WorldsN.draws) "0" "latest"
         "alice.near" "token.near" (fun _ => Ok [WorldsN.row_zero]) no_options
       = Ok [t]
    /\ status t = COMPLETE
    /\ errors t = []
    /\ amount t = "0"
    /\ lockHashes t = [originated_from_transaction_hash WorldsN.row_zero].
Proof.
  eexists. eexists. split; [reflexivity|]. split; [reflexivity|].
  split; [reflexivity|]. split; [reflexivity|]. by repeat split.
Qed.

(** *** recover *)

(** X21: [recover] takes the first [ft_on_transfer] receipt of the transaction
    whose message ends in 40 lower-case hexadecimal digits, and is rejected
    when there is none.  The record is complete at [LOCK], so [act] and
    [checkStatus] reject it; its recipient is [0x] and those digits, its
    token the predecessor of the receipt, and its sender the sender of the
    receipt, or the text before the colon of the message when that sender
    is the Aurora engine itself. *)
Theorem recovered_transfer (env : Env) (lockTxHash : string)
    (callIndexer : string -> Res (list ActionReceipt)) (options : Options)
    (actionReceipts : list ActionReceipt) :
  let auroraEvmAccount :=
    default (bridge_auroraEvmAccount env) (opt_auroraEvmAccount options) in
  callIndexer (recoverQuery lockTxHash auroraEvmAccount) = Ok actionReceipts ->
  match List.filter
          (fun r => bool_decide (receipt_method_name r = "ft_on_transfer")
                    && test_lower_hex40 (slice_last40 (receipt_msg r)))
          actionReceipts with
  | [] =>
      exists e, recover env lockTxHash callIndexer options = Throw e
  | first :: _ =>
      forall t,
        recover env lockTxHash callIndexer options = Ok t ->
        recipient t = "0x" +:+ slice_last40 (receipt_msg first)
        /\ String.length (recipient t) = 42%nat
        /\ amount t = receipt_amount first
        /\ sourceToken t = receipt_predecessor_account_id first
        /\ Nep141.sender t
           = (if bool_decide (receipt_sender_id first = auroraEvmAccount)
              then default EmptyString (before_colon (receipt_msg first))
              else receipt_sender_id first)
        /\ lockHashes t = [lockTxHash]
        /\ status t = COMPLETE
        /\ completedStep t = Some LOCK
        /\ errors t = []
        /\ forall (U : Type) (P : UrlParams U) (later : Env) (url : U),
             (exists e, act later t url = (Throw e, url))
             /\ (exists e, checkStatus later t url = (Throw e, url))
  end.
Proof.
  intros auroraEvmAccount Hrows. unfold recover.
  fold auroraEvmAccount. rewrite Hrows. cbn [bind].
  destruct (List.filter _ actionReceipts) as [|first rest] eqn:Hfilter;
    [eauto|].
  intros t.
  destruct (resolveMetadata env _ _ options) as [metadata|]; [|discriminate].
  cbn [bind]. intros [= <-]. simpl.
  assert (Hin : In first (first :: rest)) by by left.
  rewrite <- Hfilter in Hin. apply filter_In in Hin as [_ Htest].
  apply andb_prop in Htest as [_ Hhex].
  change (String.length ("" +:+ slice_last40 (receipt_msg first)))
    with (String.length (slice_last40 (receipt_msg first))).
  rewrite (test_lower_hex40_length _ Hhex).
  repeat split; eauto.
Qed.

Lemma recovered_transfer_scenario :
  exists t,
    recover (Scenario.N.world WorldsN.draws) "hash1"
      Scenario.N.receipts_indexer no_options = Ok t
    /\ recipient t = "0x" +:+ Scenario.recipient_hex
    /\ Nep141.sender t = "alice.near".
Proof.
  destruct (recover (Scenario.N.world WorldsN.draws) "hash1"
              Scenario.N.receipts_indexer no_options)
    as [t|] eqn:Hrun; [|vm_compute in Hrun; discriminate Hrun].
  pose proof (recovered_transfer (Scenario.N.world WorldsN.draws) "hash1"
                Scenario.N.receipts_indexer no_options
                [Scenario.N.row_receipt] eq_refl) as Hcase.
  simpl in Hcase. destruct (Hcase t Hrun) as (Hrecipient & _ & _ & _ & Hsender & _).
  exists t. split; [reflexivity|]. by split.
Defined.

(** X22: When the caller supplies both a symbol and a number of decimals and the
    token is not nETH, the metadata is not looked up and the record carries
    the symbol and the decimals supplied; but the source token name is
    left empty, and the destination token name is the bare prefix [a]. *)
Theorem recovered_names_with_explicit_metadata (env : Env)
    (lockTxHash symbol : string) (decimals : Z)
    (callIndexer : string -> Res (list ActionReceipt)) (options : Options)
    (t : Transfer) :
  opt_symbol options = Some symbol ->
  symbol <> EmptyString ->
  opt_decimals options = Some decimals ->
  decimals <> 0 ->
  recover env lockTxHash callIndexer options = Ok t ->
  sourceToken t
  <> default (bridge_auroraEvmAccount env) (opt_auroraEvmAccount options) ->
  Nep141.symbol t = symbol
  /\ Nep141.decimals t = decimals
  /\ sourceTokenName t = EmptyString
  /\ destinationTokenName t = "a".
Proof.
  intros Hsymbol Hname Hdecimals Hnonzero. unfold recover.
  destruct (callIndexer _) as [actionReceipts|]; [|discriminate]. cbn [bind].
  destruct (List.filter _ actionReceipts) as [|first rest]; [discriminate|].
  unfold resolveMetadata. case_bool_decide as Hneth.
  - cbn [bind]. intros [= <-]. simpl. intros Hother. by destruct Hother.
  - rewrite Hsymbol, Hdecimals. simpl.
    rewrite (bool_decide_eq_false_2 _ Hname).
    destruct (Z.eqb_spec decimals 0) as [|_]; [done|]. simpl.
    intros [= <-]. done.
Qed.

Lemma recovered_names_with_explicit_metadata_scenario :
  exists t,
    recover (Scenario.N.world WorldsN.draws) "hash1"
      Scenario.N.receipts_indexer WorldsN.explicit = Ok t
    /\ Nep141.symbol t = "TKN"
    /\ sourceTokenName t = EmptyString
    /\ destinationTokenName t = "a".
Proof.
  destruct (recover (Scenario.N.world WorldsN.draws) "hash1"
              Scenario.N.receipts_indexer WorldsN.explicit)
    as [t|] eqn:Hrun; [|vm_compute in Hrun; discriminate Hrun].
  destruct (recovered_names_with_explicit_metadata
              (Scenario.N.world WorldsN.draws) "hash1" "TKN" 6
              Scenario.N.receipts_indexer WorldsN.explicit t
              eq_refl) as (Hsymbol & _ & Hsource & Hdestination);
    [discriminate | reflexivity | discriminate | exact Hrun | |].
  - vm_compute in Hrun. injection Hrun as <-. vm_compute. discriminate.
  - exists t. split; [reflexivity|]. by repeat split.
Defined.

End Nep141Discovery.

(** ** Sending, NEP-141 variant *)
Section Nep141Sending.
Import Nep141 Nep141Client.

Lemma lower_hex_digit (a : ascii) :
  is_lower_hex a || is_upper_hex a = true -> is_lower_hex (lower_ascii a) = true.
Proof.
  destruct a as [[] [] [] [] [] [] [] []]; vm_compute; congruence.
Qed.

Lemma toLowerCase_length (s : string) :
  String.length (toLowerCase s) = String.length s.
Proof. induction s as [|a s IH]; simpl; congruence. Qed.

Lemma toLowerCase_hex (s : string) :
  all_chars (fun a => is_lower_hex a || is_upper_hex a) s = true ->
  all_chars is_lower_hex (toLowerCase s) = true.
Proof.
  induction s as [|a s IH]; simpl; [done|].
  intros Hall. apply andb_prop in Hall as [Ha Hs].
  by rewrite (lower_hex_digit a Ha), (IH Hs).
Qed.

Lemma toLowerCase_hex40 (s : string) :
  test_hex40 s = true -> test_lower_hex40 (toLowerCase s) = true.
Proof.
  unfold test_hex40, test_lower_hex40. intros Htest.
  apply andb_prop in Htest as [Hlen Hall].
  by rewrite toLowerCase_length, Hlen, (toLowerCase_hex s Hall).
Qed.

(** X23: The message [lock] sends is the one discovery looks for.  For a token
    other than nETH and a recipient of [0x] and 40 hexadecimal digits in
    either case, [lock] calls [ft_transfer_call] with the digits in lower
    case as message; the row the indexer shows for that call passes the
    filters of [findAllTransfers], and a transfer built from it has the
    recipient in lower case and the amount that was sent. *)
Theorem lock_message_is_discoverable {U : Type} `{UrlParams U} (env : Env)
    (t : Transfer) (options : Options) (url : U) (hex : string)
    (account : Account) :
  let auroraEvmAccount :=
    default (bridge_auroraEvmAccount env) (opt_auroraEvmAccount options) in
  let tracked := if hasWindow env then with_status IN_PROGRESS t else t in
  let message := toLowerCase hex in
  recipient t = "0x" +:+ hex ->
  test_hex40 hex = true ->
  sourceToken t <> auroraEvmAccount ->
  nearAccountOf env options = Ok account ->
  (hasWindow env = true -> track env tracked = Ok tracked) ->
  lock env t options url
  = (match functionCall env (sourceToken t)
             (mkAction "ft_transfer_call"
                (FtTransferCall auroraEvmAccount (amount t) message)
                ("70" +:+ repeat_text "0" 12) "1") with
     | Ok hash => Ok (with_lockHashes [hash] tracked)
     | Throw e => Throw e
     end,
     if hasWindow env then url_set "locking" (id t) url else url)
  /\ forall (hash : string),
       let row :=
         mkIndexedTx hash "ft_transfer_call" message (amount t)
           auroraEvmAccount in
       candidates auroraEvmAccount test_lower_hex40 [row] = [row]
       /\ forall (later : Env) (symbol : string) (decimals : Z)
            (metadata : Metadata) (n : nat) (found : Transfer),
            transferOfCandidate later (sender t) (sourceToken t)
              auroraEvmAccount symbol decimals metadata n row
            = Ok (Some found) ->
            recipient found = toLowerCase (recipient t)
            /\ amount found = amount t
            /\ Nep141.sender found = sender t
            /\ sourceToken found = sourceToken t.
Proof.
  intros auroraEvmAccount tracked message Hrecipient Hhex Htoken Hacc Htrack.
  split.
  - unfold lock, mbind, lift, ret, update. rewrite Hacc.
    fold auroraEvmAccount. rewrite (bool_decide_eq_false_2 _ Htoken).
    subst tracked. destruct (hasWindow env).
    + rewrite (Htrack eq_refl). cbn. rewrite Hrecipient. cbn.
      by destruct (functionCall env _ _).
    + cbn. rewrite Hrecipient. cbn. by destruct (functionCall env _ _).
  - intros hash row. subst row message. split.
    + unfold candidates. simpl.
      rewrite bool_decide_eq_true_2 by done. simpl.
      by rewrite (toLowerCase_hex40 hex Hhex).
    + intros later symbol decimals metadata n found Hfound.
      destruct (transferOfCandidate_record _ _ _ _ _ _ _ _ _ _ Hfound)
        as (_ & Hsender & Htok & _ & _ & _ & _ & Hamount & _ & Hrec & _).
      rewrite bool_decide_eq_false_2 in Hrec by done.
      rewrite Hrec, Hrecipient. by repeat split.
Qed.

Lemma lock_message_is_discoverable_scenario :
  exists url',
    lock (Scenario.N.world WorldsN.draws) WorldsN.outgoing no_options
      (∅ : gmap string string)
    = (Ok (with_lockHashes ["hash1"] WorldsN.outgoing), url')
    /\ test_lower_hex40 (toLowerCase (repeat_text "0" 32 +:+ "DeadBeef")) = true.
Proof.
  pose proof (lock_message_is_discoverable (Scenario.N.world WorldsN.draws)
                WorldsN.outgoing no_options (∅ : gmap string string)
                (repeat_text "0" 32 +:+ "DeadBeef") (mkAccount "alice.near")
                eq_refl eq_refl) as Hsent.
  destruct Hsent as [Hlock Hrow];
    [vm_compute; discriminate | reflexivity | reflexivity |].
  eexists. split; [exact Hlock|]. reflexivity.
Defined.

(** X24: [lockNear] puts a [storage_deposit] in front of the deposit and the
    transfer exactly when the sender has no storage balance at the wNEAR
    contract or one below the minimum; a rejected balance lookup counts as
    no balance and does not reject the lock. *)
Theorem lockNear_registers_when_needed {U : Type} `{UrlParams U} (env : Env)
    (t : Transfer) (options : Options) (url : U) (account : Account)
    (minimum : string) :
  let wNearNep141 :=
    default (bridge_wNearNep141 env) (opt_wNearNep141 options) in
  let auroraEvmAccount :=
    default (bridge_auroraEvmAccount env) (opt_auroraEvmAccount options) in
  let tracked := if hasWindow env then with_status IN_PROGRESS t else t in
  let unregistered :=
    match storage_balance_of env wNearNep141 (sender t) with
    | Ok (Some total) => (BN total <? BN minimum)%Z
    | Ok None | Throw _ => true
    end in
  let registration :=
    if unregistered
    then [mkAction "storage_deposit" (StorageDeposit (sender t) true)
            ("50" +:+ repeat_text "0" 12) minimum]
    else [] in
  nearAccountOf env options = Ok account ->
  getMinStorageBalance env wNearNep141 = Ok minimum ->
  (hasWindow env = true -> track env tracked = Ok tracked) ->
  lockNear env t options url
  = (match signAndSendTransaction env wNearNep141
             (registration
              ++ [mkAction "near_deposit" NearDeposit
                    ("30" +:+ repeat_text "0" 12) (amount t);
                  mkAction "ft_transfer_call"
                    (FtTransferCall auroraEvmAccount (amount t)
                       (slice_from 2 (toLowerCase (recipient t))))
                    ("70" +:+ repeat_text "0" 12) "1"]) with
     | Ok hash => Ok (with_lockHashes [hash] tracked)
     | Throw e => Throw e
     end,
     if hasWindow env then url_set "locking" (id t) url else url).
Proof.
  intros wNearNep141 auroraEvmAccount tracked unregistered registration
    Hacc Hmin Htrack.
  unfold lockNear, mbind, lift, ret, update. rewrite Hacc.
  fold wNearNep141 auroraEvmAccount. rewrite Hmin.
  unfold getStorageBalance. subst registration unregistered tracked.
  destruct (storage_balance_of env wNearNep141 (sender t)) as [[total|]|];
    try destruct (BN total <? BN minimum)%Z;
    destruct (hasWindow env); try rewrite (Htrack eq_refl); cbn;
    by destruct (signAndSendTransaction env _ _).
Qed.

(** The balance lookup is rejected: the transaction registers, deposits and
    transfers. *)
Lemma lockNear_registers_when_needed_scenario :
  exists url',
    lockNear (WorldsN.registered Scenario.unavailable) WorldsN.outgoing
      no_options (∅ : gmap string string)
    = (Ok (with_lockHashes ["storage_deposit,near_deposit,ft_transfer_call"]
             WorldsN.outgoing), url').
Proof.
  eexists.
  rewrite (lockNear_registers_when_needed
             (WorldsN.registered Scenario.unavailable) WorldsN.outgoing
             no_options ∅ (mkAccount "alice.near") "1250000000000000000000");
    reflexivity.
Defined.

(** The record [lock] returns and the URL it leaves. *)
Lemma lock_ok_inv {U : Type} `{UrlParams U} (env : Env) (t t' : Transfer)
    (options : Options) (url url' : U) :
  lock env t options url = (Ok t', url') ->
  exists (tracked : Transfer) (hash : string),
    (if hasWindow env
     then track env (with_status IN_PROGRESS t) = Ok tracked
     else tracked = t)
    /\ t' = with_lockHashes [hash] tracked
    /\ url' = (if hasWindow env then url_set "locking" (id t) url else url).
Proof.
  intros Hrun. unfold lock, mbind, lift, ret, update in Hrun.
  destruct (nearAccountOf env options); [|discriminate].
  destruct (hasWindow env); cbn in Hrun.
  - destruct (track env _) as [tracked|] eqn:Htrack; [|discriminate].
    cbn in Hrun. destruct (functionCall env _ _) as [hash|]; [|discriminate].
    cbn in Hrun. simplify_eq. by exists tracked, hash.
  - destruct (functionCall env _ _) as [hash|]; [|discriminate].
    cbn in Hrun. simplify_eq. by exists t, hash.
Qed.

(** X25: The record [sendToAurora] returns, with a store that hands records back
    as they are: a transfer in progress at no step, without errors, with
    the one hash of its lock; its [id] is the digits of a draw; its token
    names are both made from its symbol, which is the one supplied when one
    is. *)
Theorem sendToAurora_record {U : Type} `{UrlParams U} (env : Env)
    (client : Client) (nep141Address amount recipient : string)
    (options : SendOptions) (url url' : U) (t : Transfer) :
  (forall r, track env r = Ok r) ->
  sendToAurora env client nep141Address amount recipient options url
  = (Ok t, url') ->
  id t = slice_from 2 (mathRandom env 0%nat)
  /\ startTime t = dateNowISO client
  /\ Nep141.amount t = amount
  /\ Nep141.recipient t = recipient
  /\ sourceToken t = nep141Address
  /\ sourceTokenName t = symbol t
  /\ destinationTokenName t = "a" +:+ symbol t
  /\ (forall given, send_symbol options = Some given -> symbol t = given)
  /\ status t = IN_PROGRESS
  /\ completedStep t = None
  /\ errors t = []
  /\ (exists hash, lockHashes t = [hash])
  /\ url' = (if hasWindow env then url_set "locking" (id t) url else url).
Proof.
  intros Hstore. unfold sendToAurora.
  match goal with
  | |- context [match ?m with Ok _ => _ | Throw _ => _ end] =>
      destruct m as [metadata|]; [|discriminate]
  end.
  destruct (nearAccountOf env (shared options)) as [account|]; [|discriminate].
  match goal with
  | |- context [lock env ?built (shared options) url] =>
      destruct (lock env built (shared options) url)
        as [[locked|e] url1] eqn:Hlock
  end.
  - intros [= <- <-].
    destruct (lock_ok_inv _ _ _ _ _ _ Hlock) as (tracked & hash & Htracked & -> & ->).
    destruct (hasWindow env).
    + rewrite Hstore in Htracked. injection Htracked as <-. simpl.
      repeat split; eauto. intros given ->. reflexivity.
    + subst tracked. simpl. repeat split; eauto. intros given ->. reflexivity.
  - unfold abandon.
    destruct (hasWindow env && truthy (url_get "locking" url1)); [|discriminate].
    by destruct (untrack client _).
Qed.

Lemma sendToAurora_record_scenario :
  exists t url',
    sendToAurora (Scenario.N.world WorldsN.draws) WorldsN.client "token.near"
      "1000" WorldsN.mixed_case_recipient WorldsN.named
      (∅ : gmap string string) = (Ok t, url')
    /\ id t = "123"
    /\ sourceTokenName t = "TKN"
    /\ destinationTokenName t = "aTKN".
Proof.
  destruct (sendToAurora (Scenario.N.world WorldsN.draws) WorldsN.client
              "token.near" "1000" WorldsN.mixed_case_recipient WorldsN.named
              (∅ : gmap string string))
    as [[t|e] url'] eqn:Hrun; [|vm_compute in Hrun; discriminate Hrun].
  destruct (sendToAurora_record (Scenario.N.world WorldsN.draws) WorldsN.client
              "token.near" "1000" WorldsN.mixed_case_recipient WorldsN.named
              ∅ url' t (fun r => eq_refl) Hrun)
    as (Hid & _ & _ & _ & _ & Hsource & Hdestination & Hsymbol & _).
  exists t, url'. split; [reflexivity|].
  by rewrite Hid, Hdestination, Hsource, (Hsymbol "TKN" eq_refl).
Defined.

(** X26: When the token contract rejects the call in a browser, [sendToAurora]
    untracks the record under the [id] it drew, removes the [locking]
    parameter and rethrows the rejection; when untracking is rejected too,
    that second rejection is the one thrown and [locking] stays set. *)
Theorem sendToAurora_cleans_up (env : Env) (client : Client)
    (nep141Address amount recipient : string) (options : SendOptions)
    (url : gmap string string) (metadata : Metadata) (account : Account)
    (rejection : Exn) :
  let drawn := slice_from 2 (mathRandom env 0%nat) in
  hasWindow env = true ->
  drawn <> EmptyString ->
  getMetadata env nep141Address (shared options) = Ok metadata ->
  nearAccountOf env (shared options) = Ok account ->
  (forall r, track env r = Ok r) ->
  (forall contract action, functionCall env contract action = Throw rejection) ->
  exists (failure : Exn) (url' : gmap string string),
    sendToAurora env client nep141Address amount recipient options url
    = (Throw failure, url')
    /\ match untrack client drawn with
       | Ok _ => failure = rejection /\ url' !! "locking" = None
       | Throw second => failure = second /\ url' !! "locking" = Some drawn
       end
    /\ forall name, name <> "locking" -> url' !! name = url !! name.
Proof.
  intros drawn Hwindow Hdrawn Hmeta Hacc Hstore Hreject.
  unfold sendToAurora. rewrite Hmeta, Hacc.
  match goal with
  | |- context [match ?m with Ok _ => _ | Throw _ => _ end] =>
      replace m with (Ok (A := Metadata)
                        (if negb (truthy (send_symbol options))
                            || negb (from_option (fun d => negb (d =? 0)%Z)
                                       false (send_decimals options))
                         then metadata else mkMetadata EmptyString 0))
        by (by destruct (negb _ || negb _))
  end.
  unfold lock, mbind, lift, ret, update. rewrite Hacc, Hwindow.
  subst drawn. remember (slice_from 2 (mathRandom env 0%nat)) as drawn.
  cbn. rewrite Hstore. cbn. rewrite Hreject. cbn.
  unfold abandon. rewrite Hwindow. cbn.
  rewrite lookup_insert_eq. cbn.
  rewrite (bool_decide_eq_false_2 _ Hdrawn). cbn.
  destruct (untrack client drawn) as [[]|second]; eexists _, _;
    (split; [reflexivity|]); split.
  - split; [reflexivity|]. by rewrite lookup_delete_eq.
  - intros name Hname. rewrite lookup_delete_ne by done.
    by rewrite lookup_insert_ne.
  - split; [reflexivity|]. by rewrite lookup_insert_eq.
  - intros name Hname. by rewrite lookup_insert_ne.
Qed.

Lemma sendToAurora_cleans_up_scenario :
  exists url',
    sendToAurora (WorldsN.sending true (Throw (mkExn GenericError "rejected")))
      WorldsN.stuck "token.near" "1000" WorldsN.mixed_case_recipient
      WorldsN.named (∅ : gmap string string)
    = (Throw (mkExn GenericError "storage locked"), url')
    /\ url' !! "locking" = Some "123".
Proof.
  destruct (sendToAurora_cleans_up
              (WorldsN.sending true (Throw (mkExn GenericError "rejected")))
              WorldsN.stuck "token.near" "1000" WorldsN.mixed_case_recipient
              WorldsN.named ∅ (mkMetadata "TKN" 6) (mkAccount "alice.near")
              (mkExn GenericError "rejected") eq_refl)
    as (failure & url' & Hrun & Houtcome & _);
    [discriminate | reflexivity | reflexivity | reflexivity | reflexivity |].
  simpl in Houtcome. destruct Houtcome as [-> Hlocking].
  by exists url'.
Defined.

Lemma lockNear_ok_inv {U : Type} `{UrlParams U} (env : Env) (t t' : Transfer)
    (options : Options) (url url' : U) :
  lockNear env t options url = (Ok t', url') ->
  exists (tracked : Transfer) (hash : string),
    (if hasWindow env
     then track env (with_status IN_PROGRESS t) = Ok tracked
     else tracked = t)
    /\ t' = with_lockHashes [hash] tracked.
Proof.
  intros Hrun. unfold lockNear, mbind, lift, ret, update in Hrun.
  destruct (nearAccountOf env options); [|discriminate].
  destruct (getMinStorageBalance env _); [|discriminate].
  destruct (getStorageBalance env _ _); [|discriminate].
  destruct (hasWindow env); cbn in Hrun.
  - destruct (track env _) as [tracked|] eqn:Htrack; [|discriminate].
    cbn in Hrun.
    destruct (signAndSendTransaction env _ _) as [hash|]; [|discriminate].
    cbn in Hrun. simplify_eq. by exists tracked, hash.
  - destruct (signAndSendTransaction env _ _) as [hash|]; [|discriminate].
    cbn in Hrun. simplify_eq. by exists t, hash.
Qed.

(** X27: A transfer [wrapAndSendNearToAurora] returns, with a store that hands
    records back as they are, has the token [NEAR] and 24 decimals, and is
    at no step: when it is acted on again, [act] wraps and sends through
    [lockNear], where a transfer of any other token goes through [lock]. *)
Theorem wrapped_near_retries_through_lockNear {U : Type} `{UrlParams U}
    (env : Env) (client : Client) (amount recipient : string)
    (options : SendOptions) (url url' : U) (t : Transfer) :
  (forall r, track env r = Ok r) ->
  wrapAndSendNearToAurora env client amount recipient options url
  = (Ok t, url') ->
  sourceToken t = "NEAR"
  /\ decimals t = 24
  /\ symbol t = default "NEAR" (send_symbol options)
  /\ Nep141.amount t = amount
  /\ completedStep t = None
  /\ forall (later : Env) (page page' : U) (again : Transfer),
       lockNear later t no_options page = (Ok again, page') ->
       act later t page = (Ok again, page').
Proof.
  intros Hstore. unfold wrapAndSendNearToAurora.
  destruct (nearAccountOf env (shared options)) as [account|]; [|discriminate].
  match goal with
  | |- context [lockNear env ?built (shared options) url] =>
      destruct (lockNear env built (shared options) url)
        as [[locked|e] url1] eqn:Hlock
  end.
  - intros [= <- <-].
    destruct (lockNear_ok_inv _ _ _ _ _ _ Hlock) as (tracked & hash & Htracked & ->).
    assert (Hshape : sourceToken tracked = "NEAR"
                     /\ decimals tracked = 24
                     /\ symbol tracked = default "NEAR" (send_symbol options)
                     /\ Nep141.amount tracked = amount
                     /\ completedStep tracked = None).
    { destruct (hasWindow env).
      - rewrite Hstore in Htracked. by injection Htracked as <-.
      - by subst tracked. }
    destruct Hshape as (Htoken & Hdecimals & Hsymbol & Hamount & Hstep).
    simpl. repeat split; try done.
    intros later page page' again Hagain. unfold act. simpl.
    rewrite Hstep, Htoken. simpl. by rewrite Hagain.
  - unfold abandon.
    destruct (hasWindow env && truthy (url_get "locking" url1)); [|discriminate].
    by destruct (untrack client _).
Qed.

Lemma wrapped_near_retries_through_lockNear_scenario :
  exists t url',
    wrapAndSendNearToAurora (WorldsN.registered (Ok None)) WorldsN.client
      "1000" WorldsN.mixed_case_recipient WorldsN.named
      (∅ : gmap string string) = (Ok t, url')
    /\ sourceToken t = "NEAR"
    /\ lockHashes t = ["storage_deposit,near_deposit,ft_transfer_call"].
Proof.
  destruct (wrapAndSendNearToAurora (WorldsN.registered (Ok None))
              WorldsN.client "1000" WorldsN.mixed_case_recipient WorldsN.named
              (∅ : gmap string string))
    as [[t|e] url'] eqn:Hrun; [|vm_compute in Hrun; discriminate Hrun].
  destruct (wrapped_near_retries_through_lockNear
              (WorldsN.registered (Ok None)) WorldsN.client "1000"
              WorldsN.mixed_case_recipient WorldsN.named ∅ url' t
              (fun r => eq_refl) Hrun) as (Htoken & _).
  exists t, url'. split; [reflexivity|]. split; [exact Htoken|].
  vm_compute in Hrun. by injection Hrun as <- _.
Defined.

End Nep141Sending.

(** ** The token mapping *)
Section TokenMapping.
Import TokenMap.

Lemma hex_byte_roundtrip (b : Byte.byte) :
  let n := Byte.to_nat b in
  hex_value (hex_digit (n / 16)) = Some (n / 16)%nat
  /\ hex_value (hex_digit (n mod 16)) = Some (n mod 16)%nat
  /\ Byte.of_nat (16 * (n / 16) + n mod 16) = Some b
  /\ lower_ascii (hex_digit (n / 16)) = hex_digit (n / 16)
  /\ lower_ascii (hex_digit (n mod 16)) = hex_digit (n mod 16)
  /\ is_lower_hex (hex_digit (n / 16)) = true
  /\ is_lower_hex (hex_digit (n mod 16)) = true.
Proof. destruct b; vm_compute; by repeat split. Qed.

Lemma from_hex_toString_hex (bytes : list Byte.byte) :
  from_hex (toString_hex bytes) = bytes.
Proof.
  induction bytes as [|b rest IH]; [reflexivity|].
  destruct (hex_byte_roundtrip b) as (Hhigh & Hlow & Hbyte & _).
  cbn [toString_hex from_hex]. cbv zeta in *.
  by rewrite Hhigh, Hlow, Hbyte, IH.
Qed.

Lemma toLowerCase_toString_hex (bytes : list Byte.byte) :
  toLowerCase (toString_hex bytes) = toString_hex bytes.
Proof.
  induction bytes as [|b rest IH]; [reflexivity|].
  destruct (hex_byte_roundtrip b) as (_ & _ & _ & Hhigh & Hlow & _).
  cbn [toString_hex toLowerCase]. cbv zeta in *.
  by rewrite Hhigh, Hlow, IH.
Qed.

Lemma toString_hex_length (bytes : list Byte.byte) :
  String.length (toString_hex bytes) = (2 * length bytes)%nat.
Proof. induction bytes as [|b rest IH]; simpl; [done|]. rewrite IH. lia. Qed.

Lemma toString_hex_lower (bytes : list Byte.byte) :
  all_chars is_lower_hex (toString_hex bytes) = true.
Proof.
  induction bytes as [|b rest IH]; [reflexivity|].
  destruct (hex_byte_roundtrip b) as (_ & _ & _ & _ & _ & Hhigh & Hlow).
  cbn [toString_hex all_chars]. cbv zeta in *.
  by rewrite Hhigh, Hlow, IH.
Qed.

Lemma viewFunction_inv (query : string -> list Byte.byte -> Res (list Byte.byte))
    (contractId : string) (args : list Byte.byte)
    (parse : list Byte.byte -> string) (address : Viewed) :
  viewFunction query contractId args parse = Ok address ->
  exists bytes,
    query contractId args = Ok bytes
    /\ (bytes = [] -> address = ViewedFalse)
    /\ (bytes <> [] -> address = ViewedText (parse bytes)).
Proof.
  unfold viewFunction. destruct (query contractId args) as [bytes|];
    [|discriminate].
  cbn [bind]. intros [= <-]. exists bytes. split; [reflexivity|].
  destruct bytes as [|b rest]; by split.
Qed.

(** The address made of an answer without bytes is the text of [false]. *)
Lemma unmapped_token_address :
  getErc20FromNep141 engine "other.near" "aurora" = Ok "0xfalse"
  /\ getNep141FromErc20 engine "0x00" "aurora" = Ok ViewedFalse.
Proof. by split. Qed.

(** X28: The address [getErc20FromNep141] returns follows the answer of the
    engine.  When the engine answers bytes, it is [0x] and two lower-case
    hexadecimal digits per byte, so 42 characters for an address of 20
    bytes, a recipient discovery accepts; and given back to
    [getNep141FromErc20], it reaches the engine as the very bytes the
    engine had answered.  When the engine answers no byte at all, nothing
    is parsed: the address is [0xfalse], which is no recipient, and given
    back it reaches the engine as the single byte [fa]. *)
Theorem erc20_address_round_trip (env : Env) (nep141Address
    auroraEvmAccount address : string) :
  getErc20FromNep141 env nep141Address auroraEvmAccount = Ok address ->
  exists bytes : list Byte.byte,
    get_erc20_from_nep141 env auroraEvmAccount
      (serializeBorsh env nep141Address) = Ok bytes
    /\ (bytes <> [] ->
        address = "0x" +:+ toString_hex bytes
        /\ String.length address = (2 + 2 * length bytes)%nat
        /\ (length bytes = 20%nat ->
            test_lower_hex40 (slice_from 2 address) = true)
        /\ forall (later : Env) (engine : string),
             getNep141FromErc20 later address engine
             = viewFunction (get_nep141_from_erc20 later) engine bytes
                 (toString_utf8 later))
    /\ (bytes = [] ->
        address = "0xfalse"
        /\ test_lower_hex40 (slice_from 2 address) = false
        /\ forall (later : Env) (engine : string),
             getNep141FromErc20 later address engine
             = viewFunction (get_nep141_from_erc20 later) engine [Byte.xfa]
                 (toString_utf8 later)).
Proof.
  unfold getErc20FromNep141. cbv zeta.
  destruct (viewFunction _ _ _ _) as [viewed|] eqn:Hview; [|discriminate].
  cbn [bind]. intros [= <-].
  destruct (viewFunction_inv _ _ _ _ _ Hview) as (bytes & Hbytes & Hnone & Hsome).
  exists bytes. split; [exact Hbytes|]. split.
  - intros Hne. rewrite (Hsome Hne). cbn [to_text].
    split; [reflexivity|]. split; [|split].
    + change (String.length ("0x" +:+ toString_hex bytes))
        with (S (S (String.length (toString_hex bytes)))).
      rewrite toString_hex_length. lia.
    + intros Hlen. change (slice_from 2 ("0x" +:+ toString_hex bytes))
        with (toString_hex bytes).
      unfold test_lower_hex40.
      by rewrite toString_hex_length, Hlen, toString_hex_lower.
    + intros later engine. unfold getNep141FromErc20.
      change (toLowerCase ("0x" +:+ toString_hex bytes))
        with ("0x" +:+ toLowerCase (toString_hex bytes)).
      change (slice_from 2 ("0x" +:+ toLowerCase (toString_hex bytes)))
        with (toLowerCase (toString_hex bytes)).
      rewrite toLowerCase_toString_hex, from_hex_toString_hex.
      by destruct (viewFunction (get_nep141_from_erc20 later) engine bytes
                     (toString_utf8 later)).
  - intros Hempty. rewrite (Hnone Hempty). cbn [to_text].
    split; [reflexivity|]. split; [reflexivity|].
    intros later engine. unfold getNep141FromErc20.
    change (from_hex (slice_from 2 (toLowerCase ("0x" +:+ "false"))))
      with [Byte.xfa].
    by destruct (viewFunction (get_nep141_from_erc20 later) engine [Byte.xfa]
                   (toString_utf8 later)).
Qed.

Lemma erc20_address_round_trip_scenario :
  exists address,
    getErc20FromNep141 engine "token.near" "aurora" = Ok address
    /\ address = "0x" +:+ Scenario.recipient_hex
    /\ getNep141FromErc20 engine address "aurora"
       = Ok (ViewedText "token.near").
Proof.
  destruct (getErc20FromNep141 engine "token.near" "aurora")
    as [address|] eqn:Hrun; [|vm_compute in Hrun; discriminate Hrun].
  destruct (erc20_address_round_trip _ _ _ _ Hrun)
    as (bytes & Hbytes & Hsome & _).
  vm_compute in Hbytes. injection Hbytes as <-.
  destruct Hsome as (-> & _ & _ & Hback); [discriminate|].
  exists ("0x" +:+ toString_hex token_address). split; [reflexivity|].
  split; [reflexivity|]. rewrite Hback. reflexivity.
Defined.

End TokenMapping.
